(** * SimHash similarity analysis: a shallow embedding of
    [test-similarities.py] and the properties of its fingerprinting,
    comparison and evaluation code, and of the corpus generator
    [expand-test-corpus.py].

    Conventions of the embedding.
    - A Python [int] is a [Z]; [>>], [<<], [&], [|], [^] and [%] are
      [Z.shiftr], [Z.shiftl], [Z.land], [Z.lor], [Z.lxor] and [Z.modulo].
    - A Python [str] is the list of its code points ([N]); [ord] injects a
      code point into [Z].
    - A Python [float] is represented by the rational it stands for, kept
      in lowest terms so that Leibniz equality is equality of values.
      Every SimHash similarity is [k/64] with [0 <= k <= 64] and is exact in
      binary64; a Jaccard similarity is the quotient of two set sizes, whose
      rounding to binary64 fixes 0 and 1 and stays between them.
    - A float literal of the script is the binary64 value it denotes
      (the edges of the histogram).
    - A computation that can raise, or loop, returns an [outcome]; one
      that writes files returns the directory it leaves as well. *)

From Stdlib Require Import ZArith QArith Qreduction Qround Lia Lqa Ascii Sorted.
From stdpp Require Import base list gmap strings.

Local Open Scope Z_scope.

(** ** Outcomes of Python computations *)

Inductive exn : Set :=
| IndexError
| KeyError
| ValueError
| ZeroDivisionError
| StatisticsError
| FileNotFoundError
| OSError.

Inductive outcome (A : Type) : Type :=
| Ret (a : A)
| Raise (e : exn)
| OutOfFuel.

Arguments Ret {A} a.
Arguments Raise {A} e.
Arguments OutOfFuel {A}.

#[global] Instance outcome_ret : MRet outcome := fun A a => Ret a.

#[global] Instance outcome_bind : MBind outcome := fun A B k m =>
  match m with
  | Ret a => k a
  | Raise e => Raise e
  | OutOfFuel => OutOfFuel
  end.

(** A [for x in xs:] loop whose body updates a state and may raise. *)
Fixpoint for_each {A S : Type} (body : S -> A -> outcome S) (xs : list A) (s : S)
  : outcome S :=
  match xs with
  | [] => Ret s
  | x :: xs' => s' ← body s x; for_each body xs' s'
  end.

(** A list comprehension whose element expression may raise. *)
Fixpoint comprehension {A B : Type} (f : A -> outcome B) (xs : list A)
  : outcome (list B) :=
  match xs with
  | [] => Ret []
  | x :: xs' => y ← f x; ys ← comprehension f xs'; Ret (y :: ys)
  end.

(** ** Python built-ins used by the script *)

(** [range(n)]: empty when [n <= 0]. *)
Definition range (n : Z) : list Z := map Z.of_nat (seq 0 (Z.to_nat n)).

(** [[x] * n]: empty when [n <= 0]. *)
Definition list_mul {A : Type} (x : A) (n : Z) : list A := replicate (Z.to_nat n) x.

(** [len(l)] *)
Definition len {A : Type} (l : list A) : Z := Z.of_nat (length l).

(** Truth value of an [int] in a condition. *)
Definition truthy (z : Z) : bool := negb (z =? 0).

(** Position denoted by a Python subscript: a negative subscript counts
    from the end, and anything outside the list is an [IndexError]. *)
Definition subscript (n : nat) (i : Z) : outcome nat :=
  let j := if i <? 0 then i + Z.of_nat n else i in
  if (0 <=? j) && (j <? Z.of_nat n) then Ret (Z.to_nat j) else Raise IndexError.

(** [l[i]] *)
Definition getitem {A : Type} (l : list A) (i : Z) : outcome A :=
  k ← subscript (length l) i;
  match l !! k with
  | Some x => Ret x
  | None => Raise IndexError
  end.

(** [l[i] = x] *)
Definition setitem {A : Type} (l : list A) (i : Z) (x : A) : outcome (list A) :=
  k ← subscript (length l) i; Ret (<[k := x]> l).

(** ** Floats *)

Definition float : Set := Q.

(** The float denoting a rational value. *)
Definition fl (q : Q) : float := Qred q.

(** [a / b] on two [int]s. *)
Definition truediv (a b : Z) : outcome float :=
  if b =? 0 then Raise ZeroDivisionError
  else Ret (fl (inject_Z a / inject_Z b)).

(** ** Text *)

Definition char : Set := N.
Definition str : Set := list char.

Definition ord (c : char) : Z := Z.of_N c.

(** [not s] on a string. *)
Definition is_empty {A : Type} (s : list A) : bool :=
  match s with
  | [] => true
  | _ :: _ => false
  end.

(** A string literal of the script, as code points. *)
Fixpoint lit (s : string) : str :=
  match s with
  | EmptyString => []
  | String a s' => N_of_ascii a :: lit s'
  end.

(** ** Tokenizer, fingerprint and comparison

    The Unicode tables of the Python runtime are taken as given:
    [lower] is [str.lower], [is_word] is the class [\w] of [re] on [str]
    patterns, [is_space] is the whitespace class removed by [str.strip]. *)

Class unicode : Type := {
  lower : str -> str;
  is_word : char -> bool;
  is_space : char -> bool
}.

Section Core.

Context `{U : unicode}.

(** *** [re.findall(r'\b\w+\b', s)]

    The engine is at a position of the subject string: [prev] is the
    character before it, if any, and [s] is what follows. *)

Definition word_opt (c : option char) : bool :=
  match c with
  | Some x => is_word x
  | None => false
  end.

(** [\b]: exactly one side of the position is a word character. *)
Definition at_boundary (prev next : option char) : bool :=
  xorb (word_opt prev) (word_opt next).

(** Greedy [\w+]: how many word characters can be consumed. *)
Fixpoint word_run (s : str) : nat :=
  match s with
  | [] => O
  | c :: s' => if is_word c then S (word_run s') else O
  end.

(** After consuming [k] characters the engine tries the closing [\b],
    and gives one character back on failure; [\w+] needs at least one. *)
Fixpoint backtrack (s : str) (k : nat) : option str :=
  match k with
  | O => None
  | S k' =>
      if at_boundary (s !! k') (s !! k) then Some (take k s)
      else backtrack s k'
  end.

(** One attempt to match [\b\w+\b] at the current position. *)
Definition match_here (prev : option char) (s : str) : option str :=
  if at_boundary prev (head s) then backtrack s (word_run s) else None.

(** The scan of [findall]: after a match the search resumes at its end,
    so the next [skip] characters are passed over; otherwise it moves one
    character forward.  No match is possible at the end of the string. *)
Fixpoint scan (skip : nat) (prev : option char) (s : str) : list str :=
  match s with
  | [] => []
  | c :: s' =>
      match skip with
      | S k => scan k (Some c) s'
      | O =>
          match match_here prev s with
          | Some m => m :: scan (length m - 1) (Some c) s'
          | None => scan O (Some c) s'
          end
      end
  end.

Definition findall (s : str) : list str := scan O None s.

(** *** The tokens as the spec describes them: the maximal runs of word
    characters.  [cur] is the run being read, last character first. *)

Definition close_run (cur : str) : list str :=
  match cur with
  | [] => []
  | _ :: _ => [reverse cur]
  end.

Fixpoint runs (cur : str) (s : str) : list str :=
  match s with
  | [] => close_run cur
  | c :: s' =>
      if is_word c then runs (c :: cur) s' else close_run cur ++ runs [] s'
  end.

Definition spec_tokens (text : str) : list str := runs [] (lower text).

(** *** [hash_string] (FNV-1a) *)

Definition hash_step (hash_val : Z) (c : char) : Z :=
  let hash_val := Z.lxor hash_val (ord c) in
  (hash_val * 16777619) mod (2 ^ 32).

Definition hash_string (s : str) : Z := fold_left hash_step s 2166136261.

(** The hash as the spec writes it. *)
Fixpoint spec_fnv1a (h : Z) (s : str) : Z :=
  match s with
  | [] => h
  | c :: s' => spec_fnv1a (((Z.lxor h (ord c)) * 16777619) mod 2 ^ 32) s'
  end.

(** *** [simhash_hash] *)

(** The body of [for i in range(bits)] for one word. *)
Definition vote (word_hash : Z) (v : list Z) (i : Z) : outcome (list Z) :=
  let bit := Z.land (Z.shiftr word_hash (i mod 32)) 1 in
  if truthy bit then x ← getitem v i; setitem v i (x + 1)
  else x ← getitem v i; setitem v i (x - 1).

(** The body of the final loop. *)
Definition set_bit (v : list Z) (simhash : Z) (i : Z) : outcome Z :=
  x ← getitem v i;
  if 0 <? x then Ret (Z.lor simhash (Z.shiftl 1 i)) else Ret simhash.

Definition simhash_hash (text : str) (bits : Z) : outcome Z :=
  if is_empty text then Ret 0
  else
    let words := findall (lower text) in
    let v := list_mul 0 bits in
    v ← for_each (fun v word =>
                    let word_hash := hash_string word in
                    for_each (vote word_hash) (range bits) v)
                 words v;
    for_each (set_bit v) (range bits) 0.

(** The fingerprint as the spec describes it: the signed counter of a bit
    position, and the number whose bit [i] is set when the counter is
    strictly positive. *)
Definition spec_bit (h i : Z) : bool := Z.land (Z.shiftr h (i mod 32)) 1 =? 1.

Fixpoint spec_counter (tokens : list str) (i : Z) : Z :=
  match tokens with
  | [] => 0
  | t :: rest =>
      (if spec_bit (spec_fnv1a 2166136261 t) i then 1 else -1)
      + spec_counter rest i
  end.

(** The change one word makes to the counter of position [i]. *)
Definition ballot (word_hash i : Z) : Z := if spec_bit word_hash i then 1 else -1.

(** The counters after the first [n] positions have been voted on. *)
Definition tally (word_hash : Z) (n : nat) (v : list Z) : list Z :=
  imap (fun j x => if (j <? n)%nat then x + ballot word_hash (Z.of_nat j) else x) v.

(** The number of set bits of a non-negative integer (the spec's
    popcount). *)
Fixpoint pos_popcount (p : positive) : Z :=
  match p with
  | xH => 1
  | xO q => pos_popcount q
  | xI q => 1 + pos_popcount q
  end.

Definition popcount (x : Z) : Z :=
  match x with
  | Zpos p => pos_popcount p
  | _ => 0
  end.

(** *** [hamming_distance]

    The [while xor:] loop stops only when [xor] reaches 0, which a negative
    [xor] never does; the loop is given fuel. *)
Fixpoint hamming_loop (fuel : nat) (xor distance : Z) : outcome Z :=
  match fuel with
  | O => OutOfFuel
  | S fuel' =>
      if truthy xor
      then hamming_loop fuel' (Z.shiftr xor 1) (distance + Z.land xor 1)
      else Ret distance
  end.

Definition hamming_distance (fuel : nat) (hash1 hash2 : Z) : outcome Z :=
  let xor := Z.lxor hash1 hash2 in
  hamming_loop fuel xor 0.

(** *** [simhash_similarity] *)

Definition simhash_similarity (fuel : nat) (text1 text2 : str) : outcome float :=
  hash1 ← simhash_hash text1 64;
  hash2 ← simhash_hash text2 64;
  distance ← hamming_distance fuel hash1 hash2;
  q ← truediv distance 64;
  Ret (fl (1 - q)).

(** *** [compute_simple_similarity] (Jaccard over distinct words) *)

Definition word_set (text : str) : gset str :=
  list_to_set (findall (lower text)).

Definition compute_simple_similarity (text1 text2 : str) : outcome float :=
  if is_empty text1 || is_empty text2 then Ret (fl 0)
  else
    let words1 := word_set text1 in
    let words2 := word_set text2 in
    if bool_decide (words1 = ∅) || bool_decide (words2 = ∅) then Ret (fl 0)
    else
      let intersection := Z.of_nat (size (words1 ∩ words2)) in
      let union := Z.of_nat (size (words1 ∪ words2)) in
      if 0 <? union then truediv intersection union else Ret (fl 0).

End Core.

(** ** The [statistics] module and the [min] / [max] built-ins

    The functions of the Python library the report calls, with the
    exceptions they document.  The square root of a float is taken as
    given. *)

Definition fle (a b : float) : bool := Qle_bool a b.
Definition flt (a b : float) : bool := negb (Qle_bool b a).
Definition feq (a b : float) : bool := Qeq_bool a b.

Fixpoint insert_sorted (x : float) (l : list float) : list float :=
  match l with
  | [] => [x]
  | y :: l' => if flt x y then x :: l else y :: insert_sorted x l'
  end.

(** [sorted(data)] *)
Definition sorted (data : list float) : list float :=
  fold_right insert_sorted [] data.

Definition fsum (data : list float) : Q := fold_right Qplus 0%Q data.

Module statistics.

Definition mean (data : list float) : outcome float :=
  if len data <? 1 then Raise StatisticsError
  else Ret (fl (fsum data / inject_Z (len data))).

Definition median (data : list float) : outcome float :=
  let data := sorted data in
  let n := len data in
  if n =? 0 then Raise StatisticsError
  else if n mod 2 =? 1 then getitem data (n / 2)
  else
    a ← getitem data (n / 2 - 1);
    b ← getitem data (n / 2);
    Ret (fl ((a + b) / 2)).

Section Sqrt.

Variable fsqrt : Q -> float.

(** The sample standard deviation: fewer than two data points raise
    [StatisticsError]. *)
Definition stdev (data : list float) : outcome float :=
  let n := len data in
  if n <? 2 then Raise StatisticsError
  else
    let xbar := (fsum data / inject_Z n)%Q in
    let ss := fsum (map (fun x => (x - xbar) * (x - xbar))%Q data) in
    Ret (fsqrt (ss / inject_Z (n - 1))).

End Sqrt.

End statistics.

(** [min(data)] and [max(data)]: [ValueError] on an empty list. *)
Definition py_min (data : list float) : outcome float :=
  match data with
  | [] => Raise ValueError
  | x :: rest => Ret (fold_left (fun m y => if flt y m then y else m) rest x)
  end.

Definition py_max (data : list float) : outcome float :=
  match data with
  | [] => Raise ValueError
  | x :: rest => Ret (fold_left (fun m y => if flt m y then y else m) rest x)
  end.

(** ** The evaluator *)

(** [d[k]] on a dict. *)
Definition dict_get {V : Type} (d : gmap str V) (k : str) : outcome V :=
  match d !! k with
  | Some v => Ret v
  | None => Raise KeyError
  end.

Record pair_result : Type := {
  file1 : str;
  file2 : str;
  category1 : str;
  category2 : str;
  same_category : bool;
  similarities : gmap str float
}.

(** The dict [results] of [analyze_test_corpus], one field per key. *)
Record results : Type := {
  res_same_category : list pair_result;
  res_different_category : list pair_result;
  res_all_pairs : list pair_result
}.

(** *** [read_file_content] *)

Fixpoint split_on (sep : char) (s : str) : list str :=
  match s with
  | [] => [[]]
  | c :: s' =>
      if (c =? sep)%N then [] :: split_on sep s'
      else
        match split_on sep s' with
        | line :: lines => (c :: line) :: lines
        | [] => [[c]]
        end
  end.

Fixpoint startswith (s prefix : str) : bool :=
  match prefix, s with
  | [], _ => true
  | _ :: _, [] => false
  | p :: prefix', c :: s' => (c =? p)%N && startswith s' prefix'
  end.

Fixpoint join (sep : str) (parts : list str) : str :=
  match parts with
  | [] => []
  | [part] => part
  | part :: parts' => part ++ sep ++ join sep parts'
  end.

(** The world [analyze_test_corpus] runs in.
    - [file_system path] is the text [open(path).read()] returns, or
      nothing when opening or decoding raises;
    - [all_files] is the result of the glob, a file standing for its name;
    - [category_of name] is [parse_file_info(name)['category']];
    - [random_sample i] is the pair [random.sample(all_files, 2)] returns
      at iteration [i] of the sampling loop, its only caller. *)
Class corpus : Type := {
  file_system : str -> option str;
  all_files : list str;
  category_of : str -> str;
  random_sample : nat -> str * str
}.

Section Evaluator.

Context `{U : unicode} `{C : corpus}.

Fixpoint lstrip (s : str) : str :=
  match s with
  | [] => []
  | c :: s' => if is_space c then lstrip s' else s
  end.

(** [s.strip()] *)
Definition strip (s : str) : str := reverse (lstrip (reverse (lstrip s))).

Definition read_file_content (filepath : str) : str :=
  match file_system filepath with
  | Some content =>
      let lines := split_on 10%N content in
      let clean_lines :=
        List.filter (fun line =>
                  negb (startswith line (lit "#"))
                  && negb (startswith line (lit "From:"))
                  && negb (startswith line (lit "Category:"))
                  && negb (startswith line (lit "Generated:")))
               lines in
      strip (join (lit " ") clean_lines)
  | None => lit ""
  end.

(** *** [analyze_test_corpus] *)

Definition similarity_methods (fuel : nat)
  : list (str * (str -> str -> outcome float)) :=
  [ (lit "word_jaccard", compute_simple_similarity);
    (lit "simhash", simhash_similarity fuel) ].

Definition no_results : results :=
  {| res_same_category := []; res_different_category := [];
     res_all_pairs := [] |}.

(** One iteration of [for i in range(num_samples)].  Of the dict
    [parse_file_info] returns only the category is read, and [file_info]
    holds that. *)
Definition sample_pair (fuel : nat) (file_info : gmap str str)
  (res : results) (i : Z) : outcome results :=
  let '(file1, file2) := random_sample (Z.to_nat i) in
  info1 ← dict_get file_info file1;
  info2 ← dict_get file_info file2;
  let content1 := read_file_content file1 in
  let content2 := read_file_content file2 in
  if is_empty content1 || is_empty content2 then Ret res
  else
    similarities ←
      for_each (fun similarities '(method_name, method_func) =>
                  sim ← method_func content1 content2;
                  Ret (<[method_name := sim]> similarities))
               (similarity_methods fuel) (∅ : gmap str float);
    let pair_result :=
      {| file1 := file1; file2 := file2;
         category1 := info1; category2 := info2;
         same_category := bool_decide (info1 = info2);
         similarities := similarities |} in
    let all_pairs := res_all_pairs res ++ [pair_result] in
    if bool_decide (info1 = info2)
    then Ret {| res_same_category := res_same_category res ++ [pair_result];
                res_different_category := res_different_category res;
                res_all_pairs := all_pairs |}
    else Ret {| res_same_category := res_same_category res;
                res_different_category :=
                  res_different_category res ++ [pair_result];
                res_all_pairs := all_pairs |}.

(** The function returns [None] when the corpus has fewer than two
    files. *)
Definition analyze_test_corpus (fuel : nat) (num_samples : Z)
  : outcome (option results) :=
  if len all_files <? 2 then Ret None
  else
    let file_info :=
      fold_left (fun file_info filepath =>
                   <[filepath := category_of filepath]> file_info)
                all_files (∅ : gmap str str) in
    res ← for_each (sample_pair fuel file_info) (range num_samples) no_results;
    Ret (Some res).

(** Whether the pair drawn at iteration [i] has content on both sides. *)
Definition has_content (i : Z) : bool :=
  let '(file1, file2) := random_sample (Z.to_nat i) in
  negb (is_empty (read_file_content file1) || is_empty (read_file_content file2)).

(** The pair recorded for the draw of iteration [i]. *)
Definition records (fuel : nat) (pair : pair_result) (i : Z) : Prop :=
  let '(f1, f2) := random_sample (Z.to_nat i) in
  file1 pair = f1 /\ file2 pair = f2
  /\ category1 pair = category_of f1 /\ category2 pair = category_of f2
  /\ same_category pair = bool_decide (category_of f1 = category_of f2)
  /\ dict_get (similarities pair) (lit "word_jaccard")
     = compute_simple_similarity (read_file_content f1) (read_file_content f2)
  /\ dict_get (similarities pair) (lit "simhash")
     = simhash_similarity fuel (read_file_content f1) (read_file_content f2).

End Evaluator.

(** [results] after the pairs [added] have been appended to the views
    they belong to. *)
Definition extend (res : results) (added : list pair_result) : results :=
  {| res_same_category := res_same_category res ++ List.filter same_category added;
     res_different_category :=
       res_different_category res
       ++ List.filter (fun pair => negb (same_category pair)) added;
     res_all_pairs := res_all_pairs res ++ added |}.

(** A line [read_file_content] drops: a heading or a metadata line. *)
Definition dropped_line (line : str) : bool :=
  startswith line (lit "#") || startswith line (lit "From:")
  || startswith line (lit "Category:") || startswith line (lit "Generated:").


(** *** [print_statistics]

    What the function prints is kept as values: per method the overall
    statistics, those of the two category views when they are not empty,
    and the count and percentage of each row of the distribution (the
    edges of the bucket, printed beside them, are constants).  The list of
    the five most similar pairs, printed last, is [most_similar_pairs]
    below.  The edges [bins] are the binary64 values of the literals
    [0.0], [0.1], ..., [1.0]. *)

Definition bins : list float :=
  [ 0;
    3602879701896397 # 36028797018963968;
    3602879701896397 # 18014398509481984;
    5404319552844595 # 18014398509481984;
    3602879701896397 # 9007199254740992;
    1 # 2;
    5404319552844595 # 9007199254740992;
    3152519739159347 # 4503599627370496;
    3602879701896397 # 4503599627370496;
    8106479329266893 # 9007199254740992;
    1 ]%Q.

(** The inner [for i in range(len(bins) - 1): ... else: ...] for one
    similarity value. *)
Fixpoint count_in_bucket (sim : float) (indices : list Z) (hist : list Z)
  : outcome (list Z) :=
  match indices with
  | [] =>
      if feq sim 1%Q then x ← getitem hist (-1); setitem hist (-1) (x + 1)
      else Ret hist
  | i :: rest =>
      lo ← getitem bins i;
      if fle lo sim
      then
        hi ← getitem bins (i + 1);
        if flt sim hi then x ← getitem hist i; setitem hist i (x + 1)
        else count_in_bucket sim rest hist
      else count_in_bucket sim rest hist
  end.

Definition histogram (all_sims : list float) : outcome (list Z) :=
  let hist := list_mul 0 (len bins - 1) in
  for_each (fun hist sim =>
              count_in_bucket sim (range (len bins - 1)) hist)
           all_sims hist.

(** The rows [(count, percentage)] printed under the distribution. *)
Definition distribution (all_sims : list float) : outcome (list (Z * float)) :=
  hist ← histogram all_sims;
  comprehension (fun i =>
                   count ← getitem hist i;
                   q ← truediv count (len all_sims);
                   Ret (count, fl (q * 100)))
                (range (len hist)).

(** The sum of the bucket counts. *)
Definition total (hist : list Z) : Z := foldr Z.add 0 hist.

(** The row printed for a bucket holding [count] of [n] values. *)
Definition row (n count : Z) : Z * float :=
  (count, fl (fl (inject_Z count / inject_Z n) * 100)).

Record view_report : Type := {
  view_mean : float;
  view_median : float;
  view_stdev : float
}.

Record method_report : Type := {
  overall : view_report;
  overall_min : float;
  overall_max : float;
  same_view : option view_report;
  different_view : option view_report;
  rows : list (Z * float)
}.

Section Report.

Variable fsqrt : Q -> float.

Definition view_statistics (sims : list float) : outcome view_report :=
  m ← statistics.mean sims;
  md ← statistics.median sims;
  sd ← statistics.stdev fsqrt sims;
  Ret {| view_mean := m; view_median := md; view_stdev := sd |}.

(** A view guarded by [if sims:]. *)
Definition guarded_view (sims : list float) : outcome (option view_report) :=
  if negb (is_empty sims) then v ← view_statistics sims; Ret (Some v)
  else Ret None.

Definition sims_of (method : str) (pairs : list pair_result)
  : outcome (list float) :=
  comprehension (fun pair => dict_get (similarities pair) method) pairs.

Definition method_statistics (res : results) (method : str)
  : outcome method_report :=
  all_sims ← sims_of method (res_all_pairs res);
  same_sims ← sims_of method (res_same_category res);
  diff_sims ← sims_of method (res_different_category res);
  all ← view_statistics all_sims;
  lo ← py_min all_sims;
  hi ← py_max all_sims;
  same ← guarded_view same_sims;
  diff ← guarded_view diff_sims;
  dist ← distribution all_sims;
  Ret {| overall := all; overall_min := lo; overall_max := hi;
         same_view := same; different_view := diff; rows := dist |}.

Definition print_statistics (res : results) : outcome (list method_report) :=
  let methods := [lit "word_jaccard"; lit "simhash"] in
  comprehension (method_statistics res) methods.

End Report.

(** *** What a run leaves in [results] *)

(** A recorded pair holds a value in the unit interval for both methods. *)
Definition scored (pair : pair_result) : Prop :=
  exists j s : float,
    similarities pair !! lit "word_jaccard" = Some j
    /\ similarities pair !! lit "simhash" = Some s
    /\ (0 <= j <= 1)%Q /\ (0 <= s <= 1)%Q.

Definition well_formed (res : results) : Prop :=
  Forall scored (res_all_pairs res)
  /\ (length (res_same_category res) + length (res_different_category res)
      = length (res_all_pairs res))%nat.

(** ** The tables on ASCII text

    On strings of code points below 128 the tables of the Python runtime
    are these; they are used to run the model on concrete texts. *)

Definition ascii_lower (s : str) : str :=
  map (fun c => if (65 <=? c) && (c <=? 90) then c + 32 else c)%N s.

Definition ascii_word (c : char) : bool :=
  ((48 <=? c) && (c <=? 57) || (65 <=? c) && (c <=? 90)
   || (97 <=? c) && (c <=? 122) || (c =? 95))%N.

Definition ascii_space (c : char) : bool :=
  ((9 <=? c) && (c <=? 13) || (28 <=? c) && (c <=? 32))%N.

Definition ascii : unicode :=
  {| lower := ascii_lower; is_word := ascii_word; is_space := ascii_space |}.

(** ** A small vault

    Two notes with text and one that holds a heading only; the first draw
    pairs a note with the empty one, every later draw pairs the two
    notes. *)

Definition example_vault : corpus :=
  {| file_system := fun path =>
       if bool_decide (path = lit "a.md") then Some (lit "alpha beta gamma")
       else if bool_decide (path = lit "b.md") then Some (lit "beta gamma delta")
       else if bool_decide (path = lit "e.md") then Some (lit "# heading only")
       else None;
     all_files := [lit "a.md"; lit "b.md"; lit "e.md"];
     category_of := fun _ => lit "unknown";
     random_sample := fun i =>
       match i with
       | O => (lit "a.md", lit "e.md")
       | S _ => (lit "a.md", lit "b.md")
       end |}.

(** Whether a value lies in the interval the buckets cover. *)
Definition in_unit_interval (sim : float) : bool := fle 0%Q sim && fle sim 1%Q.

(** The bucket a value of the unit interval falls in: the number of the
    inner edges, [bins[1]] to [bins[9]], that are not above the value. *)
Definition bucket_of (sim : float) : nat :=
  length (List.filter (fun edge => fle edge sim) (take 9 (drop 1 bins))).

(** ** [parse_file_info]

    The tables of the Python runtime for numbers are taken as given:
    [is_digit] is the class [\d] of [re] on [str] patterns and [int_of] is
    [int] on a string. *)

Class numerals : Type := {
  is_digit : char -> bool;
  int_of : str -> outcome Z
}.

(** A value held by the dict the function returns. *)
Inductive value : Type :=
| Str (s : str)
| Int (z : Z).

(** *** [re.match] on the two patterns

    A pattern is read from left to right with the rest of the pattern as
    continuation; a failure of the continuation gives control back to the
    last choice made. *)

(** A literal piece of the pattern. *)
Definition literal {A : Type} (l : str) (k : str -> option A) (s : str) : option A :=
  if startswith s l then k (drop (length l) s) else None.

(** Greedy [c+] for a character class: how many characters it can take. *)
Fixpoint class_run (cls : char -> bool) (s : str) : nat :=
  match s with
  | [] => O
  | c :: s' => if cls c then S (class_run cls s') else O
  end.

(** [c+] having taken [n] characters: the continuation is tried on the
    group and the rest, and one character is given back on failure. *)
Fixpoint give_back {A : Type} (k : str -> str -> option A) (s : str) (n : nat)
  : option A :=
  match n with
  | O => None
  | S n' =>
      match k (take n s) (drop n s) with
      | Some r => Some r
      | None => give_back k s n'
      end
  end.

Definition one_or_more {A : Type} (cls : char -> bool)
  (k : str -> str -> option A) (s : str) : option A :=
  give_back k s (class_run cls s).

(** [a|b], each alternative carrying the rest of the pattern. *)
Definition either {A : Type} (a b : str -> option A) (s : str) : option A :=
  match a s with
  | Some r => Some r
  | None => b s
  end.

Section Names.

Context `{U : unicode} `{N : numerals}.

(** [note_(\d+)_unknown_book_chapter_(\d+|xx|conclusion)\.md]: the two
    groups of a match. *)
Definition match_original (filename : str) : option (str * str) :=
  literal (lit "note_")
    (one_or_more is_digit (fun number =>
       literal (lit "_unknown_book_chapter_")
         (either
            (one_or_more is_digit (fun chapter =>
               literal (lit ".md") (fun _ => Some (number, chapter))))
            (either
               (literal (lit "xx")
                  (literal (lit ".md") (fun _ => Some (number, lit "xx"))))
               (literal (lit "conclusion")
                  (literal (lit ".md") (fun _ => Some (number, lit "conclusion"))))))))
    filename.

(** [generated_note_(\d+)_(\w+)\.md]: the two groups of a match. *)
Definition match_generated (filename : str) : option (str * str) :=
  literal (lit "generated_note_")
    (one_or_more is_digit (fun number =>
       literal (lit "_")
         (one_or_more is_word (fun category =>
            literal (lit ".md") (fun _ => Some (number, category))))))
    filename.

Definition unknown_info : gmap str value :=
  <[lit "category" := Str (lit "unknown")]>
    (<[lit "type" := Str (lit "unknown")]> ∅).

Definition parse_file_info (filename : str) : outcome (gmap str value) :=
  if startswith filename (lit "note_") then
    match match_original filename with
    | Some (number, chapter) =>
        number ← int_of number;
        Ret (<[lit "category" := Str (lit "literature")]>
               (<[lit "chapter" := Str chapter]>
                  (<[lit "number" := Int number]>
                     (<[lit "type" := Str (lit "original")]> ∅))))
    | None => Ret unknown_info
    end
  else if startswith filename (lit "generated_note_") then
    match match_generated filename with
    | Some (number, category) =>
        number ← int_of number;
        Ret (<[lit "category" := Str category]>
               (<[lit "number" := Int number]>
                  (<[lit "type" := Str (lit "generated")]> ∅)))
    | None => Ret unknown_info
    end
  else Ret unknown_info.

End Names.

(** The numerals of ASCII text: the digits [0] to [9], read in base ten;
    [int] refuses a string of more than 4300 digits. *)
Definition ascii_digit (c : char) : bool := ((48 <=? c) && (c <=? 57))%N.

Definition decimal_value (s : str) : Z :=
  fold_left (fun n c => 10 * n + (Z.of_N c - 48)) s 0.

Definition ascii_int (s : str) : outcome Z :=
  if is_empty s || negb (forallb ascii_digit s) || (4300 <? len s)
  then Raise ValueError
  else Ret (decimal_value s).

Definition ascii_numerals : numerals :=
  {| is_digit := ascii_digit; int_of := ascii_int |}.

(** *** The file names [create_large_corpus] writes *)

(** The decimal digits of a non-negative integer, most significant
    first. *)
Fixpoint decimal_digits (fuel : nat) (n : Z) (acc : str) : str :=
  match fuel with
  | O => acc
  | S fuel' =>
      let acc' := Z.to_N (48 + n mod 10) :: acc in
      if n <? 10 then acc' else decimal_digits fuel' (n / 10) acc'
  end.

(** [str(n)] for [n >= 0]. *)
Definition decimal (n : Z) : str :=
  decimal_digits (S (Z.to_nat (Z.log2 n))) n [].

(** [f"{n}"] *)
Definition format_d (n : Z) : str :=
  if n <? 0 then lit "-" ++ decimal (- n) else decimal n.

(** [f"{n:06d}"]: zeros are put between the sign and the digits until
    the whole is six characters wide. *)
Definition format_06d (n : Z) : str :=
  if n <? 0
  then lit "-" ++ replicate (5 - length (decimal (- n))) 48%N ++ decimal (- n)
  else replicate (6 - length (decimal n)) 48%N ++ decimal n.

(** [f"generated_note_{i:06d}_{category}.md"] *)
Definition generated_filename (i : Z) (category : str) : str :=
  lit "generated_note_" ++ format_06d i ++ lit "_" ++ category ++ lit ".md".


(** ** The chunks and categories of expand-test-corpus.py *)

Definition fiction_chunks : list str :=
  [
    lit "The old mansion stood silently against the dark sky, its windows like hollow eyes watching the approaching storm.";
    lit "Sarah walked through the misty garden, her footsteps echoing on the cobblestone path as shadows danced around her.";
    lit "The detective examined the crime scene carefully, noting every detail that might lead to solving this mysterious case.";
    lit "In the distant kingdom, dragons soared through cloudy skies while brave knights prepared for their next quest.";
    lit "The spaceship traveled through the vast emptiness of space, carrying its crew toward an unknown planet.";
    lit "Elizabeth received the letter with trembling hands, knowing it would change her life forever.";
    lit "The professor's laboratory was filled with strange inventions and bubbling chemicals that glowed in the dim light.";
    lit "Through the thick forest, the adventurers searched for the ancient treasure that legends spoke of.";
    lit "The small village by the sea had always been peaceful until the mysterious stranger arrived one stormy night.";
    lit "In the library's forbidden section, ancient books held secrets that few were brave enough to uncover."
  ].

Definition science_chunks : list str :=
  [
    lit "The quantum mechanics experiment revealed fascinating properties of particle behavior at the subatomic level.";
    lit "Climate change affects global weather patterns, causing significant shifts in temperature and precipitation worldwide.";
    lit "DNA sequencing technology has revolutionized our understanding of genetic diseases and hereditary traits.";
    lit "The theory of relativity explains how time and space are interconnected in ways that challenge common intuition.";
    lit "Artificial intelligence algorithms continue to evolve, showing remarkable capabilities in pattern recognition and learning.";
    lit "Renewable energy sources like solar and wind power offer sustainable alternatives to fossil fuels.";
    lit "The human brain contains billions of neurons that form complex networks responsible for consciousness and thought.";
    lit "Chemical reactions involve the breaking and forming of bonds between atoms and molecules.";
    lit "Evolution through natural selection explains the diversity of life forms we observe in nature today.";
    lit "Astronomical observations reveal distant galaxies that formed billions of years ago in the early universe."
  ].

Definition philosophy_chunks : list str :=
  [
    lit "The nature of consciousness remains one of philosophy's most enduring and perplexing questions for scholars.";
    lit "Ethical dilemmas often arise when personal values conflict with societal expectations and moral obligations.";
    lit "Free will versus determinism represents a fundamental debate about human agency and responsibility.";
    lit "The meaning of existence has been contemplated by thinkers throughout history across all cultures.";
    lit "Knowledge and truth are concepts that philosophers have analyzed through various epistemological frameworks.";
    lit "Justice requires balancing individual rights with collective welfare in complex social situations.";
    lit "Beauty and aesthetics involve subjective experiences that seem to have objective underlying principles.";
    lit "Language shapes thought in ways that influence how we perceive and understand reality around us.";
    lit "The relationship between mind and body poses interesting questions about consciousness and identity.";
    lit "Time and space form the fundamental dimensions within which all experience and existence occur."
  ].

Definition history_chunks : list str :=
  [
    lit "The Industrial Revolution transformed society by introducing mechanized production and changing labor practices.";
    lit "Ancient civilizations developed sophisticated systems of governance, trade, and cultural expression.";
    lit "Wars throughout history have shaped political boundaries and influenced technological advancement significantly.";
    lit "The Renaissance period marked a rebirth of art, science, and intellectual inquiry in European culture.";
    lit "Colonial expansion spread European influence worldwide while profoundly impacting indigenous populations everywhere.";
    lit "The development of writing systems enabled the preservation and transmission of knowledge across generations.";
    lit "Religious movements have profoundly influenced social structures, moral values, and political systems throughout time.";
    lit "Trade routes connected distant civilizations, facilitating cultural exchange and economic development across continents.";
    lit "Revolutionary movements emerged when social tensions reached critical points in various historical periods.";
    lit "Technological innovations like the printing press dramatically changed how information was shared and preserved."
  ].

(** The dict [categories], in the order of its keys. *)
Definition categories : list (str * list str) :=
  [ (lit "fiction", fiction_chunks);
    (lit "science", science_chunks);
    (lit "philosophy", philosophy_chunks);
    (lit "history", history_chunks) ].

(** ** [generate_content] (expand-test-corpus.py)

    What the function takes from outside itself: [title] is [str.title],
    and the answers of the [random] module in the order the function asks
    for them.
    - [randint_3_5] is [random.randint(3, 5)];
    - [sample population k] is [random.sample(population, k)];
    - [relates i] tells, for the section numbered [i], whether
      [random.random() < 0.3] held and, when it did, the key
      [random.choice(list(categories.keys()))] returned;
    - [cross_reference] is the final [random.random() < 0.2] and
      [other_note] the answer of [random.randint(1, file_num - 1)]. *)
Class generator : Type := {
  title : str -> str;
  randint_3_5 : Z;
  sample : list str -> Z -> list str;
  relates : Z -> option str;
  cross_reference : bool;
  other_note : Z
}.

(** [enumerate(l, start)] *)
Definition enumerate {A : Type} (l : list A) (start : Z) : list (Z * A) :=
  imap (fun p x => (start + Z.of_nat p, x)) l.

Section Generator.

Context `{G : generator}.

(** The body of [for i, chunk in enumerate(selected_chunks, 1)]. *)
Definition add_section (content : str) (numbered : Z * str) : str :=
  let '(i, chunk) := numbered in
  let content :=
    content ++ lit "## Section " ++ format_d i ++ [10; 10]%N ++ chunk
    ++ [10; 10]%N in
  match relates i with
  | Some key =>
      content ++ lit "This relates to concepts in " ++ key
      ++ lit " and demonstrates the interconnectedness of knowledge domains."
      ++ [10; 10]%N
  | None => content
  end.

Definition generate_content (category : str) (chunk_list : list str)
  (file_num : Z) : str :=
  let num_chunks := randint_3_5 in
  let selected_chunks := sample chunk_list (Z.min num_chunks (len chunk_list)) in
  let title_line := title category ++ lit " Note " ++ format_06d file_num in
  let content := lit "# " ++ title_line ++ [10; 10]%N in
  let content := content ++ lit "Category: " ++ title category ++ [10]%N in
  let content :=
    content ++ lit "Generated: File " ++ format_d file_num ++ [10; 10]%N in
  let content := fold_left add_section (enumerate selected_chunks 1) content in
  if cross_reference then
    let other_file := if 1 <? file_num then other_note else 1 in
    content ++ lit "See also: [[Note " ++ format_06d other_file
    ++ lit "]] for related concepts." ++ [10; 10]%N
  else content.

End Generator.

(** *** The five most similar pairs

    [sorted(results['all_pairs'], key=..., reverse=True)] computes the key
    of every pair, then sorts by descending key, pairs with equal keys
    staying in their order; the list below holds, for the first five, the
    value and the pair that are printed. *)

Fixpoint insert_descending {A : Type} (x : float * A) (l : list (float * A))
  : list (float * A) :=
  match l with
  | [] => [x]
  | y :: l' => if flt x.1 y.1 then y :: insert_descending x l' else x :: l
  end.

Definition sorted_reverse {A : Type} (keyed : list (float * A))
  : list (float * A) :=
  foldr insert_descending [] keyed.

Definition most_similar_pairs (res : results) (method : str)
  : outcome (list (float * pair_result)) :=
  keys ← comprehension (fun x => dict_get (similarities x) method)
           (res_all_pairs res);
  let sorted_pairs := map snd (sorted_reverse (zip keys (res_all_pairs res))) in
  comprehension (fun pair =>
                   sim ← dict_get (similarities pair) method;
                   Ret (sim, pair))
                (take 5 sorted_pairs).

(** The order of the sorted list: a pair does not come before one with a
    larger key. *)
Definition key_ge {A : Type} (a b : float * A) : Prop := (b.1 <= a.1)%Q.

(** *** [main]

    [vault_exists] is [test_vault_dir.exists()].  What [main] prints is
    kept as a value: the report of [print_statistics], or [None] when it
    ends before the statistics.  [save_results], which writes the results
    to a file after the statistics, is left out. *)

Section Main.

Context `{U : unicode} `{C : corpus}.
Variable fsqrt : Q -> float.

Definition main (vault_exists : bool) (fuel : nat)
  : outcome (option (list method_report)) :=
  if negb vault_exists then Ret None
  else
    let num_samples := 2000 in
    results ← analyze_test_corpus fuel num_samples;
    match results with
    | None => Ret None
    | Some res =>
        if is_empty (res_all_pairs res) then Ret None
        else
          report ← print_statistics fsqrt res;
          Ret (Some report)
    end.

(** Whether the two files of draw [i] have the same category. *)
Definition same_draw (i : Z) : bool :=
  let '(file1, file2) := random_sample (Z.to_nat i) in
  bool_decide (category_of file1 = category_of file2).

End Main.

(** ** [create_large_corpus] (expand-test-corpus.py)

    The vault directory is [None] when [test-vault] does not exist, and
    otherwise the map from the names of its files to their contents.
    Opening a file for writing raises [FileNotFoundError] when the
    directory is missing and [OSError] when the operating system refuses
    the file ([refused]: no permission, a directory of that name, ...).
    A function returns the directory it leaves together with its outcome:
    what was written before an exception stays written.

    The answers of [random] are taken as given, per iteration of the
    loop: [choice i] is the [random.choice] of iteration [i], and
    [note_generator i] holds the answers [generate_content] receives for
    file [i]. *)

Class corpus_generator : Type := {
  choice : Z -> list str -> str;
  note_generator : Z -> generator
}.

Class operating_system : Type := {
  refused : str -> bool
}.

Definition directory : Type := option (gmap str str).

(** [range(start, stop)] *)
Definition range_from (start stop : Z) : list Z :=
  map (fun k => start + k) (range (stop - start)).

(** The names of a directory that match [*.md]. *)
Definition md_names (files : gmap str str) : list str :=
  List.filter (fun name => bool_decide (lit ".md" `suffix_of` name))
    (map fst (map_to_list files)).

(** [list(test_vault_dir.glob("*.md"))], in no particular order; the
    list is empty when the directory does not exist. *)
Definition glob_md (vault : directory) : list str :=
  match vault with
  | None => []
  | Some files => md_names files
  end.

Section Corpus.

Context `{R : corpus_generator} `{O : operating_system}.

(** [with open(filepath, 'w', encoding='utf-8') as f: f.write(content)] *)
Definition write_file (vault : directory) (name content : str)
  : directory * outcome unit :=
  match vault with
  | None => (vault, Raise FileNotFoundError)
  | Some files =>
      if refused name then (vault, Raise OSError)
      else (Some (<[name := content]> files), Ret tt)
  end.

(** The body of [for i in range(start_num, start_num + target_files)]. *)
Definition write_note (vault : directory) (i : Z) : directory * outcome unit :=
  let category := choice i (map fst categories) in
  match dict_get (list_to_map categories : gmap str (list str)) category with
  | Ret chunks =>
      let content := generate_content (G := note_generator i) category chunks i in
      let filename := generated_filename i category in
      write_file vault filename content
  | Raise e => (vault, Raise e)
  | OutOfFuel => (vault, OutOfFuel)
  end.

(** The loop: it ends at the first exception. *)
Fixpoint write_notes (indices : list Z) (vault : directory)
  : directory * outcome unit :=
  match indices with
  | [] => (vault, Ret tt)
  | i :: rest =>
      match write_note vault i with
      | (vault', Ret _) => write_notes rest vault'
      | (vault', Raise e) => (vault', Raise e)
      | (vault', OutOfFuel) => (vault', OutOfFuel)
      end
  end.

Definition create_large_corpus (vault : directory) (target_files : Z)
  : directory * outcome unit :=
  let existing_files := glob_md vault in
  let start_num := len existing_files + 1 in
  write_notes (range_from start_num (start_num + target_files)) vault.

(** The name written at iteration [i]. *)
Definition name_of (i : Z) : str :=
  generated_filename i (choice i (map fst categories)).

(** The note written for number [i]: its name, and the content
    [generate_content] makes from the chunks of the chosen category. *)
Definition written (i : Z) (name content : str) : Prop :=
  exists chunks,
    (choice i (map fst categories), chunks) ∈ categories
    /\ name = name_of i
    /\ content
       = generate_content (G := note_generator i)
           (choice i (map fst categories)) chunks i.

End Corpus.

(** [main] of expand-test-corpus.py: the directory it leaves and its
    outcome. *)
Module expand_test_corpus.
Section Main.

Context `{R : corpus_generator} `{O : operating_system}.

Definition main (vault : directory) : directory * outcome unit :=
  let current_files := glob_md vault in
  let target_total := 20000 in
  let target_new_files := Z.max 0 (target_total - len current_files) in
  if 0 <? target_new_files then create_large_corpus vault target_new_files
  else (vault, Ret tt).

End Main.
End expand_test_corpus.

(** Whether a chunk is one line with text that [read_file_content]
    keeps. *)
Definition kept_chunk (chunk : str) : bool :=
  forallb (fun c => negb (c =? 10)%N) chunk
  && negb (dropped_line chunk)
  && existsb (fun c => negb (ascii_space c)) chunk.

(** ** Sample inputs *)

(** A recorded pair with the given two values. *)
Definition example_pair (j s : float) : pair_result :=
  {| file1 := lit "a.md"; file2 := lit "b.md";
     category1 := lit "unknown"; category2 := lit "unknown";
     same_category := true;
     similarities := <[lit "simhash" := s]> (<[lit "word_jaccard" := j]> ∅) |}.

Definition two_pairs : results :=
  {| res_same_category := [example_pair (1 # 5)%Q (21 # 32)%Q; example_pair 1%Q 1%Q];
     res_different_category := [];
     res_all_pairs := [example_pair (1 # 5)%Q (21 # 32)%Q; example_pair 1%Q 1%Q] |}.

Definition one_pair : results :=
  {| res_same_category := [example_pair (1 # 5)%Q (21 # 32)%Q];
     res_different_category := [];
     res_all_pairs := [example_pair (1 # 5)%Q (21 # 32)%Q] |}.

(** [str.title] on ASCII text: a letter is made upper case after a
    character that is not a letter and lower case after a letter. *)
Fixpoint ascii_title_from (after_letter : bool) (s : str) : str :=
  match s with
  | [] => []
  | c :: s' =>
      if ((65 <=? c) && (c <=? 90))%N
      then (if after_letter then c + 32 else c)%N :: ascii_title_from true s'
      else if ((97 <=? c) && (c <=? 122))%N
      then (if after_letter then c else c - 32)%N :: ascii_title_from true s'
      else c :: ascii_title_from false s'
  end.

(** A run of the generator: three chunks, the first ones of the list, a
    remark after the second section and a cross reference to note 1. *)
Definition example_generator : generator :=
  {| title := ascii_title_from false;
     randint_3_5 := 3;
     sample := fun population k => take (Z.to_nat k) population;
     relates := fun i => if i =? 2 then Some (lit "science") else None;
     cross_reference := true;
     other_note := 1 |}.

(** A vault holding the note the generator writes as file 7. *)
Definition generated_vault : corpus :=
  {| file_system := fun path =>
       if bool_decide (path = generated_filename 7 (lit "fiction"))
       then Some (generate_content (G := example_generator)
                    (lit "fiction") fiction_chunks 7)
       else None;
     all_files := [generated_filename 7 (lit "fiction")];
     category_of := fun _ => lit "fiction";
     random_sample := fun _ =>
       (generated_filename 7 (lit "fiction"), generated_filename 7 (lit "fiction")) |}.

(** A square root rounded down to six decimals, as a sample of the
    rounding square root [statistics.stdev] is given. *)
Definition rounded_sqrt (q : Q) : float :=
  fl (inject_Z (Z.sqrt (Qfloor (q * 1000000000000))) / 1000000).

(** Random answers for a run of [create_large_corpus]: the category is
    taken in turn from the keys, and every note is generated as by
    [example_generator]. *)
Definition example_corpus_generator : corpus_generator :=
  {| choice := fun i population =>
       default [] (population !! (Z.to_nat i mod length population)%nat);
     note_generator := fun _ => example_generator |}.

(** An operating system that refuses no file, and one that refuses the
    second note of a run of [example_corpus_generator]. *)
Definition willing : operating_system := {| refused := fun _ => false |}.

Definition refusing_second : operating_system :=
  {| refused := fun name =>
       bool_decide (name = name_of (R := example_corpus_generator) 2) |}.

(** * Properties *)

(** ** The outcome monad and the built-ins *)

Lemma bind_Ret {A B : Type} (a : A) (k : A -> outcome B) :
  (Ret a ≫= k) = k a.
Proof. reflexivity. Qed.

Lemma bind_inv_Ret {A B : Type} (m : outcome A) (k : A -> outcome B) (b : B) :
  (m ≫= k) = Ret b -> exists a, m = Ret a /\ k a = Ret b.
Proof. destruct m as [a | e |]; [eauto | discriminate | discriminate]. Qed.

Lemma for_each_app {A S : Type} (body : S -> A -> outcome S) xs ys s :
  for_each body (xs ++ ys) s = (for_each body xs s ≫= for_each body ys).
Proof.
  revert s; induction xs as [| x xs IH]; intros s; [reflexivity |].
  cbn [app for_each]. destruct (body s x) as [s' | e |]; cbn; auto.
Qed.

Lemma range_length n : length (range n) = Z.to_nat n.
Proof. unfold range. now rewrite length_map, length_seq. Qed.

Lemma range_succ (n : nat) :
  range (Z.of_nat (S n)) = range (Z.of_nat n) ++ [Z.of_nat n].
Proof.
  unfold range. rewrite !Nat2Z.id, seq_S, map_app. reflexivity.
Qed.

Lemma elem_of_range i n : i ∈ range n <-> 0 <= i < n.
Proof.
  unfold range. rewrite list_elem_of_fmap. split.
  - intros (k & -> & Hk). apply elem_of_seq in Hk. lia.
  - intros H. exists (Z.to_nat i). split; [lia |]. apply elem_of_seq. lia.
Qed.

Lemma subscript_in_range (n : nat) (i : Z) :
  0 <= i < Z.of_nat n -> subscript n i = Ret (Z.to_nat i).
Proof.
  intros H. unfold subscript.
  destruct (Z.ltb_spec i 0); [lia |].
  destruct (Z.leb_spec 0 i); [| lia].
  destruct (Z.ltb_spec i (Z.of_nat n)); [reflexivity | lia].
Qed.

Lemma getitem_in_range {A : Type} (l : list A) (i : Z) (x : A) :
  0 <= i -> l !! Z.to_nat i = Some x -> getitem l i = Ret x.
Proof.
  intros Hi Hx. unfold getitem.
  rewrite subscript_in_range.
  - cbn. now rewrite Hx.
  - apply lookup_lt_Some in Hx. lia.
Qed.

Lemma setitem_in_range {A : Type} (l : list A) (i : Z) (x : A) :
  0 <= i < len l -> setitem l i x = Ret (<[Z.to_nat i := x]> l).
Proof.
  intros H. unfold setitem. now rewrite subscript_in_range.
Qed.

(** ** The tokenizer: [findall] yields the maximal runs of word characters *)

Section TokenizerFacts.

Context `{U : unicode}.

Lemma word_run_le s : (word_run s <= length s)%nat.
Proof.
  induction s as [| c s IH]; cbn; [lia |]. destruct (is_word c); lia.
Qed.

Lemma word_run_inside s k :
  (k < word_run s)%nat -> word_opt (s !! k) = true.
Proof.
  revert k; induction s as [| c s IH]; intros k; cbn; [lia |].
  destruct (is_word c) eqn:Hc; [| lia].
  destruct k as [| k]; cbn; [intros _; exact Hc |]. intros Hk. apply IH. lia.
Qed.

Lemma word_run_end s : word_opt (s !! word_run s) = false.
Proof.
  induction s as [| c s IH]; cbn; [reflexivity |].
  destruct (is_word c) eqn:Hc; cbn; [exact IH | exact Hc].
Qed.

(** The greedy run is followed by a boundary, so nothing is given back. *)
Lemma backtrack_greedy s :
  (0 < word_run s)%nat -> backtrack s (word_run s) = Some (take (word_run s) s).
Proof.
  intros H. destruct (word_run s) as [| k] eqn:Hrun; [lia |].
  cbn [backtrack]. unfold at_boundary.
  rewrite (word_run_inside s k) by lia.
  rewrite <- Hrun, word_run_end. reflexivity.
Qed.

Lemma scan_skip k prev s :
  (k <= length s)%nat ->
  scan k prev s
  = scan 0 (match k with O => prev | S k' => s !! k' end) (drop k s).
Proof.
  revert prev s; induction k as [| k IH]; intros prev s Hk.
  - now rewrite drop_0.
  - destruct s as [| c s]; cbn in Hk; [lia |].
    cbn [scan drop]. rewrite IH by lia.
    destruct k; reflexivity.
Qed.

Lemma runs_word_prefix cur w s :
  Forall (fun c => is_word c = true) w ->
  runs cur (w ++ s) = runs (reverse w ++ cur) s.
Proof.
  revert cur; induction w as [| c w IH]; intros cur Hw; [reflexivity |].
  inversion Hw as [| ? ? Hc Hw']; subst.
  cbn [app runs]. rewrite Hc, IH by assumption.
  now rewrite reverse_cons, <- app_assoc.
Qed.

Lemma runs_skip c s : is_word c = false -> runs [] (c :: s) = runs [] s.
Proof. intros Hc. cbn. now rewrite Hc. Qed.

Lemma runs_first w s :
  w <> [] -> Forall (fun c => is_word c = true) w -> word_opt (head s) = false ->
  runs [] (w ++ s) = w :: runs [] s.
Proof.
  intros Hne Hw Hs. rewrite runs_word_prefix by assumption.
  rewrite app_nil_r.
  assert (Hclose : close_run (reverse w) = [w]).
  { destruct (reverse w) as [| c r] eqn:Hr.
    - apply (f_equal reverse) in Hr. rewrite reverse_involutive in Hr.
      now subst.
    - cbn [close_run]. now rewrite <- Hr, reverse_involutive. }
  destruct s as [| c s]; cbn in *; [exact Hclose |].
  now rewrite Hs, Hclose.
Qed.

Lemma take_word_run s : Forall (fun c => is_word c = true) (take (word_run s) s).
Proof.
  induction s as [| c s IH]; cbn; [constructor |].
  destruct (is_word c) eqn:Hc; cbn; [| constructor].
  constructor; assumption.
Qed.

Lemma head_drop {A : Type} (l : list A) k : head (drop k l) = l !! k.
Proof.
  revert l; induction k as [| k IH]; intros [| x l]; cbn; auto.
Qed.

Lemma scan_runs s : forall prev,
  word_opt prev = false \/ word_opt (head s) = false ->
  scan 0 prev s = runs [] s.
Proof.
  induction s as [s IH] using (induction_ltof1 _ (@length char)).
  unfold ltof in IH. intros prev Hinv.
  destruct s as [| c s']; [reflexivity |].
  cbn [scan]. unfold match_here, at_boundary.
  cbn [head]. change (word_opt (Some c)) with (is_word c).
  destruct (is_word c) eqn:Hc.
  - destruct Hinv as [Hprev | Hhead]; [| cbn in Hhead; congruence].
    rewrite Hprev. cbn [xorb].
    assert (Hrun : (0 < word_run (c :: s'))%nat) by (cbn; rewrite Hc; lia).
    rewrite backtrack_greedy by exact Hrun.
    set (n := word_run (c :: s')) in *.
    assert (Hn : (n <= length (c :: s'))%nat) by apply word_run_le.
    rewrite length_take, Nat.min_l by exact Hn.
    cbn [length] in Hn. rewrite scan_skip by lia.
    replace (drop (n - 1) s') with (drop n (c :: s'))
      by (destruct n; [lia | cbn; now rewrite Nat.sub_0_r]).
    rewrite IH.
    + rewrite <- (take_drop n (c :: s')) at 3.
      rewrite runs_first; [reflexivity | | apply take_word_run |].
      * destruct n; [lia | discriminate].
      * rewrite head_drop. apply word_run_end.
    + rewrite length_drop. cbn [length]. lia.
    + right. rewrite head_drop. apply word_run_end.
  - assert (Hnone : (if xorb (word_opt prev) false
                     then backtrack (c :: s') (word_run (c :: s')) else None)
                    = None).
    { cbn [word_run]. rewrite Hc. now destruct (xorb _ _). }
    rewrite Hnone, runs_skip by exact Hc.
    apply IH; [cbn; lia |]. left. exact Hc.
Qed.

(** The regular expression finds exactly the maximal runs. *)
Lemma findall_runs s : findall s = runs [] s.
Proof. unfold findall. apply scan_runs. now left. Qed.

End TokenizerFacts.

(** ** The fingerprint *)

Lemma hash_string_fold s h : fold_left hash_step s h = spec_fnv1a h s.
Proof.
  revert h; induction s as [| c s IH]; intros h; [reflexivity |].
  cbn [fold_left spec_fnv1a]. apply IH.
Qed.

Lemma land_1_cases x : Z.land x 1 = 0 \/ Z.land x 1 = 1.
Proof.
  assert (H : Z.land x 1 = x mod 2) by (apply (Z.land_ones x 1); lia).
  pose proof (Z.mod_pos_bound x 2). lia.
Qed.

Lemma vote_in_range word_hash v (i : nat) x :
  v !! i = Some x ->
  vote word_hash v (Z.of_nat i)
  = Ret (<[i := x + ballot word_hash (Z.of_nat i)]> v).
Proof.
  intros Hx. unfold vote, ballot, spec_bit, truthy.
  assert (Hlen : 0 <= Z.of_nat i < len v)
    by (apply lookup_lt_Some in Hx; unfold len; lia).
  rewrite (getitem_in_range v (Z.of_nat i) x), !bind_Ret;
    [| lia | now rewrite Nat2Z.id].
  rewrite !setitem_in_range, Nat2Z.id by exact Hlen.
  destruct (land_1_cases (Z.shiftr word_hash (Z.of_nat i mod 32))) as [-> | ->];
    reflexivity.
Qed.

Lemma tally_length word_hash n v : length (tally word_hash n v) = length v.
Proof. apply length_imap. Qed.

Lemma tally_lookup word_hash n v (j : nat) x :
  v !! j = Some x ->
  tally word_hash n v !! j
  = Some (if (j <? n)%nat then x + ballot word_hash (Z.of_nat j) else x).
Proof. intros Hx. unfold tally. now rewrite list_lookup_imap, Hx. Qed.

Lemma tally_lookup_None word_hash n v (j : nat) :
  v !! j = None -> tally word_hash n v !! j = None.
Proof. intros Hx. unfold tally. now rewrite list_lookup_imap, Hx. Qed.

Lemma votes_tally word_hash v (n : nat) :
  (n <= length v)%nat ->
  for_each (vote word_hash) (range (Z.of_nat n)) v = Ret (tally word_hash n v).
Proof.
  induction n as [| n IH]; intros Hn.
  - cbn. f_equal. unfold tally. apply list_eq; intros j.
    rewrite list_lookup_imap. now destruct (v !! j).
  - rewrite range_succ, for_each_app, IH by lia. rewrite bind_Ret.
    cbn [for_each].
    destruct (lookup_lt_is_Some_2 v n) as [x Hx]; [lia |].
    rewrite (vote_in_range _ _ _ x).
    + rewrite bind_Ret. f_equal. apply list_eq; intros j.
      destruct (decide (j = n)) as [-> | Hne].
      * rewrite list_lookup_insert_eq by (rewrite tally_length; lia).
        rewrite (tally_lookup _ _ _ _ x Hx).
        destruct (Nat.ltb_spec n (S n)); [reflexivity | lia].
      * rewrite list_lookup_insert_ne by congruence.
        destruct (v !! j) as [y |] eqn:Hj.
        -- rewrite !(tally_lookup _ _ _ _ y Hj).
           destruct (Nat.ltb_spec j n), (Nat.ltb_spec j (S n)); try lia; reflexivity.
        -- now rewrite !tally_lookup_None.
    + rewrite (tally_lookup _ _ _ _ x Hx).
      destruct (Nat.ltb_spec n n); [lia | reflexivity].
Qed.

Lemma words_tally (n : nat) (words : list str) : forall v,
  length v = n ->
  for_each (fun v word =>
              let word_hash := hash_string word in
              for_each (vote word_hash) (range (Z.of_nat n)) v) words v
  = Ret (imap (fun j x => x + spec_counter words (Z.of_nat j)) v).
Proof.
  induction words as [| w words IH]; intros v Hv.
  - cbn. f_equal. apply list_eq; intros j. rewrite list_lookup_imap.
    destruct (v !! j); cbn; [f_equal; lia | reflexivity].
  - cbn [for_each]. cbn beta zeta. rewrite votes_tally by lia.
    rewrite bind_Ret, IH by (now rewrite tally_length).
    f_equal. apply list_eq; intros j.
    rewrite !list_lookup_imap.
    destruct (v !! j) as [y |] eqn:Hj.
    + rewrite (tally_lookup _ _ _ _ y Hj). cbn [fmap option_fmap option_map].
      apply lookup_lt_Some in Hj.
      destruct (Nat.ltb_spec j n); [| lia].
      cbn [spec_counter]. unfold ballot, hash_string.
      rewrite hash_string_fold. f_equal. lia.
    + now rewrite tally_lookup_None.
Qed.

Lemma bits_above_bound a (n : Z) :
  0 <= a -> 0 <= n -> (forall i, n <= i -> Z.testbit a i = false) -> a < 2 ^ n.
Proof.
  intros Ha Hn Hbits.
  destruct (Z.eq_dec a 0) as [-> | Hne]; [apply Z.pow_pos_nonneg; lia |].
  apply Z.log2_lt_pow2; [lia |].
  destruct (Z.lt_ge_cases (Z.log2 a) n) as [Hlt | Hge]; [exact Hlt |].
  specialize (Hbits _ Hge). rewrite Z.bit_log2 in Hbits by lia. discriminate.
Qed.

(** The final loop: the bits set after the first [n] positions. *)
Lemma set_bits_spec (v : list Z) (n : nat) :
  (n <= length v)%nat ->
  exists fp,
    for_each (set_bit v) (range (Z.of_nat n)) 0 = Ret fp
    /\ 0 <= fp
    /\ forall i, 0 <= i ->
         Z.testbit fp i
         = (i <? Z.of_nat n) && (0 <? default 0 (v !! Z.to_nat i)).
Proof.
  induction n as [| n IH]; intros Hn.
  - exists 0. split; [reflexivity |]. split; [lia |]. intros i Hi.
    rewrite Z.bits_0. destruct (Z.ltb_spec i (Z.of_nat 0)); [lia | reflexivity].
  - destruct IH as (fp & Hrun & Hpos & Hbits); [lia |].
    rewrite range_succ, for_each_app, Hrun, bind_Ret. cbn [for_each].
    destruct (lookup_lt_is_Some_2 v n) as [x Hx]; [lia |].
    unfold set_bit.
    rewrite (getitem_in_range v (Z.of_nat n) x), bind_Ret;
      [| lia | now rewrite Nat2Z.id].
    destruct (0 <? x) eqn:Hsign; rewrite bind_Ret.
    + exists (Z.lor fp (Z.shiftl 1 (Z.of_nat n))).
      split; [reflexivity |]. rewrite Z.shiftl_1_l.
      split; [apply Z.lor_nonneg; split; [exact Hpos | apply Z.pow_nonneg; lia] |].
      intros i Hi. rewrite Z.lor_spec, Hbits, Z.pow2_bits_eqb by lia.
      destruct (Z.eqb_spec (Z.of_nat n) i) as [<- | Hne].
      * rewrite Nat2Z.id, Hx. cbn [from_option id]. rewrite Hsign.
        destruct (Z.ltb_spec (Z.of_nat n) (Z.of_nat (S n))); [| lia].
        now rewrite orb_true_r.
      * rewrite orb_false_r.
        destruct (Z.ltb_spec i (Z.of_nat n)), (Z.ltb_spec i (Z.of_nat (S n)));
          try lia; reflexivity.
    + exists fp. split; [reflexivity |]. split; [exact Hpos |].
      intros i Hi. rewrite Hbits by lia.
      destruct (Z.eqb_spec (Z.of_nat n) i) as [<- | Hne].
      * rewrite Nat2Z.id, Hx. cbn [from_option id]. rewrite Hsign.
        now rewrite !andb_false_r.
      * destruct (Z.ltb_spec i (Z.of_nat n)), (Z.ltb_spec i (Z.of_nat (S n)));
          try lia; reflexivity.
Qed.

Section FingerprintFacts.

Context `{U : unicode}.

Lemma simhash_hash_empty bits : simhash_hash [] bits = Ret 0.
Proof. reflexivity. Qed.

Lemma simhash_hash_counters text (bits : nat) :
  text <> [] ->
  exists fp,
    simhash_hash text (Z.of_nat bits) = Ret fp
    /\ 0 <= fp < 2 ^ Z.of_nat bits
    /\ forall i, 0 <= i < Z.of_nat bits ->
         Z.testbit fp i = (0 <? spec_counter (findall (lower text)) i).
Proof.
  intros Hne. unfold simhash_hash.
  destruct text as [| c text]; [congruence |]. cbn [is_empty]. cbn zeta.
  rewrite (words_tally bits)
    by (unfold list_mul; now rewrite length_replicate, Nat2Z.id).
  rewrite bind_Ret.
  set (v := imap _ _).
  assert (Hlen : length v = bits).
  { unfold v, list_mul. now rewrite length_imap, length_replicate, Nat2Z.id. }
  destruct (set_bits_spec v bits) as (fp & Hrun & Hpos & Hbits); [lia |].
  exists fp. split; [exact Hrun |]. split.
  - split; [exact Hpos |]. apply bits_above_bound; [exact Hpos | lia |].
    intros i Hi. rewrite Hbits by lia.
    destruct (Z.ltb_spec i (Z.of_nat bits)); [lia | reflexivity].
  - intros i Hi. rewrite Hbits by lia.
    destruct (Z.ltb_spec i (Z.of_nat bits)); [| lia]. cbn [andb].
    unfold v, list_mul. rewrite list_lookup_imap, Nat2Z.id.
    rewrite lookup_replicate_2 by lia. cbn [fmap option_fmap option_map from_option id].
    now rewrite Z2Nat.id by lia.
Qed.

End FingerprintFacts.

(** ** The Hamming distance *)

Lemma popcount_step x :
  0 < x -> popcount x = Z.land x 1 + popcount (Z.shiftr x 1).
Proof.
  intros Hx. destruct x as [| p | p]; [lia | | lia].
  destruct p; cbn; reflexivity.
Qed.

Lemma hamming_loop_popcount (n : nat) : forall fuel x distance,
  0 <= x < 2 ^ Z.of_nat n -> (n < fuel)%nat ->
  hamming_loop fuel x distance = Ret (distance + popcount x)
  /\ 0 <= popcount x <= Z.of_nat n.
Proof.
  induction n as [| n IH]; intros fuel x distance Hx Hfuel.
  - assert (x = 0) by (change (2 ^ Z.of_nat 0) with 1 in Hx; lia). subst x.
    destruct fuel; [lia |]. cbn. rewrite Z.add_0_r. split; [reflexivity | lia].
  - destruct fuel as [| fuel]; [lia |]. cbn [hamming_loop]. unfold truthy.
    destruct (Z.eqb_spec x 0) as [-> | Hne]; cbn [negb].
    + cbn [popcount]. rewrite Z.add_0_r. split; [reflexivity | lia].
    + assert (Hhalf : 0 <= Z.shiftr x 1 < 2 ^ Z.of_nat n).
      { rewrite Z.shiftr_div_pow2 by lia. change (2 ^ 1) with 2.
        rewrite Nat2Z.inj_succ, Z.pow_succ_r in Hx by lia.
        split; [apply Z.div_pos; lia | apply Z.div_lt_upper_bound; lia]. }
      destruct (IH fuel (Z.shiftr x 1) (distance + Z.land x 1) Hhalf) as [Hrun Hpc];
        [lia |].
      rewrite Hrun, (popcount_step x) by lia.
      destruct (land_1_cases x) as [Hb | Hb]; rewrite Hb;
        (split; [f_equal; lia | lia]).
Qed.

(** A negative [xor] never leaves the loop. *)
Lemma hamming_loop_negative fuel : forall x distance,
  x < 0 -> hamming_loop fuel x distance = OutOfFuel.
Proof.
  induction fuel as [| fuel IH]; intros x distance Hx; [reflexivity |].
  cbn [hamming_loop]. unfold truthy.
  destruct (Z.eqb_spec x 0); [lia |]. cbn [negb]. apply IH.
  apply Z.shiftr_neg. exact Hx.
Qed.

Lemma testbit_above a (n : Z) i :
  0 <= a < 2 ^ n -> n <= i -> Z.testbit a i = false.
Proof.
  intros [Ha Hlt] Hi.
  destruct (Z.eq_dec a 0) as [-> | Hne]; [apply Z.bits_0 |].
  apply Z.bits_above_log2; [exact Ha |].
  assert (0 <= n) by (destruct (Z.lt_ge_cases n 0) as [Hn |]; [|lia];
                      rewrite Z.pow_neg_r in Hlt; lia).
  apply Z.log2_lt_pow2 in Hlt; lia.
Qed.

Lemma lxor_bound a b (n : Z) :
  0 <= n -> 0 <= a < 2 ^ n -> 0 <= b < 2 ^ n -> 0 <= Z.lxor a b < 2 ^ n.
Proof.
  intros Hn Ha Hb.
  assert (Hpos : 0 <= Z.lxor a b) by (apply Z.lxor_nonneg; lia).
  split; [exact Hpos |]. apply bits_above_bound; [exact Hpos | exact Hn |].
  intros i Hi. rewrite Z.lxor_spec, (testbit_above a n), (testbit_above b n);
    auto.
Qed.

(** On two numbers below [2 ^ n] the distance is the number of bits in
    which they differ, whatever width either was produced with. *)
Lemma hamming_distance_popcount (n : nat) fuel hash1 hash2 :
  0 <= hash1 < 2 ^ Z.of_nat n -> 0 <= hash2 < 2 ^ Z.of_nat n -> (n < fuel)%nat ->
  hamming_distance fuel hash1 hash2 = Ret (popcount (Z.lxor hash1 hash2))
  /\ 0 <= popcount (Z.lxor hash1 hash2) <= Z.of_nat n.
Proof.
  intros H1 H2 Hfuel. unfold hamming_distance.
  apply (hamming_loop_popcount n fuel _ 0); [| exact Hfuel].
  apply lxor_bound; [lia | exact H1 | exact H2].
Qed.

(** ** The similarities *)

Lemma fl_correct q : (fl q == q)%Q.
Proof. apply Qred_correct. Qed.

Lemma fl_complete q r : (q == r)%Q -> fl q = fl r.
Proof. apply Qred_complete. Qed.

Lemma fl_one q : (q == 1)%Q -> fl q = 1%Q.
Proof. intros Hq. now rewrite (fl_complete _ _ Hq). Qed.

Lemma truediv_nonzero a b :
  b <> 0 -> truediv a b = Ret (fl (inject_Z a / inject_Z b)).
Proof. intros Hb. unfold truediv. now destruct (Z.eqb_spec b 0). Qed.

(** A quotient of two sizes, the smaller over the larger. *)
Lemma ratio_range a b :
  0 <= a <= b -> 0 < b -> (0 <= inject_Z a / inject_Z b <= 1)%Q.
Proof.
  intros Ha Hb.
  assert (Hb' : (0 < inject_Z b)%Q) by (unfold Qlt; cbn; lia).
  split.
  - apply Qle_shift_div_l; [exact Hb' |]. rewrite Qmult_0_l.
    unfold Qle; cbn; lia.
  - apply Qle_shift_div_r; [exact Hb' |]. rewrite Qmult_1_l.
    unfold Qle; cbn; lia.
Qed.

Lemma fl_range q : (0 <= q <= 1)%Q -> (0 <= fl q <= 1)%Q.
Proof. intros Hq. now rewrite fl_correct. Qed.

Lemma one_minus_range q : (0 <= q <= 1)%Q -> (0 <= 1 - q <= 1)%Q.
Proof. intros Hq. lra. Qed.

Lemma word_set_inter_self (X : gset str) : X ∩ X = X.
Proof. apply (idemp_L _). Qed.

Lemma word_set_union_self (X : gset str) : X ∪ X = X.
Proof. apply (idemp_L _). Qed.

Section SimilarityFacts.

Context `{U : unicode}.

(** The fingerprint always exists and fits the width. *)
Lemma simhash_hash_total text (bits : nat) :
  exists fp, simhash_hash text (Z.of_nat bits) = Ret fp
             /\ 0 <= fp < 2 ^ Z.of_nat bits.
Proof.
  destruct text as [| c text].
  - exists 0. split; [reflexivity |]. split; [lia |].
    apply Z.pow_pos_nonneg; lia.
  - destruct (simhash_hash_counters (c :: text) bits) as (fp & Hfp & Hb & _);
      [discriminate |]. eauto.
Qed.

Lemma simhash_similarity_popcount fuel text1 text2 hash1 hash2 :
  simhash_hash text1 64 = Ret hash1 -> simhash_hash text2 64 = Ret hash2 ->
  0 <= hash1 < 2 ^ 64 -> 0 <= hash2 < 2 ^ 64 -> (64 < fuel)%nat ->
  simhash_similarity fuel text1 text2
  = Ret (fl (1 - fl (inject_Z (popcount (Z.lxor hash1 hash2)) / 64)))
  /\ 0 <= popcount (Z.lxor hash1 hash2) <= 64.
Proof.
  intros H1 H2 Hb1 Hb2 Hfuel. unfold simhash_similarity.
  rewrite H1, H2, !bind_Ret.
  destruct (hamming_distance_popcount 64 fuel hash1 hash2) as [Hd Hpc];
    [exact Hb1 | exact Hb2 | exact Hfuel |].
  rewrite Hd, bind_Ret, truediv_nonzero by lia. rewrite bind_Ret.
  split; [reflexivity | exact Hpc].
Qed.

Lemma simhash_similarity_range fuel text1 text2 :
  (64 < fuel)%nat ->
  exists s, simhash_similarity fuel text1 text2 = Ret s /\ (0 <= s <= 1)%Q.
Proof.
  intros Hfuel.
  destruct (simhash_hash_total text1 64) as (h1 & H1 & Hb1).
  destruct (simhash_hash_total text2 64) as (h2 & H2 & Hb2).
  destruct (simhash_similarity_popcount fuel text1 text2 h1 h2) as [Hs Hpc];
    auto.
  eexists. split; [exact Hs |].
  apply fl_range, one_minus_range, fl_range.
  apply (ratio_range _ 64); lia.
Qed.

Lemma simhash_similarity_self fuel text :
  (64 < fuel)%nat -> simhash_similarity fuel text text = Ret 1%Q.
Proof.
  intros Hfuel.
  destruct (simhash_hash_total text 64) as (h & Hh & Hb).
  destruct (simhash_similarity_popcount fuel text text h h) as [Hs _]; auto.
  rewrite Hs, Z.lxor_nilpotent. reflexivity.
Qed.

Lemma jaccard_range text1 text2 :
  exists j, compute_simple_similarity text1 text2 = Ret j /\ (0 <= j <= 1)%Q.
Proof.
  unfold compute_simple_similarity.
  destruct (is_empty text1 || is_empty text2);
    [exists 0%Q; split; [reflexivity | lra] |].
  destruct (bool_decide _ || bool_decide _);
    [exists 0%Q; split; [reflexivity | lra] |].
  cbn zeta.
  destruct (Z.ltb_spec 0 (Z.of_nat (size (word_set text1 ∪ word_set text2))))
    as [Hpos | Hle]; [| exists 0%Q; split; [reflexivity | lra]].
  rewrite truediv_nonzero by lia. eexists. split; [reflexivity |].
  apply fl_range, ratio_range; [| exact Hpos].
  split; [lia |]. apply inj_le, subseteq_size.
  intros w Hw. apply elem_of_intersection in Hw. apply elem_of_union. tauto.
Qed.

Lemma jaccard_self text :
  text <> [] -> word_set text <> ∅ -> compute_simple_similarity text text = Ret 1%Q.
Proof.
  intros Hne Hwords. unfold compute_simple_similarity.
  destruct text as [| c text]; [congruence |]. cbn [is_empty orb].
  rewrite bool_decide_eq_false_2 by exact Hwords. cbn [orb]. cbn zeta.
  rewrite word_set_inter_self, word_set_union_self.
  assert (Hsize : 0 < Z.of_nat (size (word_set (c :: text)))).
  { apply (inj_lt 0). destruct (size _) eqn:Hz; [| lia].
    apply size_empty_inv in Hz. apply leibniz_equiv in Hz. contradiction. }
  destruct (Z.ltb_spec 0 (Z.of_nat (size (word_set (c :: text))))); [| lia].
  rewrite truediv_nonzero by lia. f_equal. apply fl_one.
  apply Qmult_inv_r. intros Heq.
  assert (Hq : (0 < inject_Z (Z.of_nat (size (word_set (c :: text)))))%Q)
    by (unfold Qlt; cbn; lia).
  rewrite Heq in Hq. now apply Qlt_irrefl in Hq.
Qed.

Lemma jaccard_empty text1 text2 :
  (text1 = [] \/ word_set text1 = ∅) \/ (text2 = [] \/ word_set text2 = ∅) ->
  compute_simple_similarity text1 text2 = Ret 0%Q.
Proof.
  intros Hempty. unfold compute_simple_similarity.
  destruct (is_empty text1 || is_empty text2) eqn:He; [reflexivity |].
  apply orb_false_elim in He. destruct He as [He1 He2].
  assert (Hsets : word_set text1 = ∅ \/ word_set text2 = ∅).
  { destruct Hempty as [[-> | Hw] | [-> | Hw]]; try discriminate; auto. }
  destruct Hsets as [Hw | Hw]; rewrite Hw.
  - rewrite bool_decide_eq_true_2 by reflexivity. reflexivity.
  - rewrite (bool_decide_eq_true_2 (∅ = ∅)) by reflexivity.
    now rewrite orb_true_r.
Qed.

End SimilarityFacts.

(** ** The histogram *)

Lemma total_insert (hist : list Z) (i : nat) x :
  hist !! i = Some x -> total (<[i := x + 1]> hist) = total hist + 1.
Proof.
  revert i; induction hist as [| y hist IH]; intros i Hi; [discriminate |].
  destruct i as [| i].
  - injection Hi as ->. unfold total. cbn [insert list_insert foldr]. lia.
  - change (total (y :: <[i := x + 1]> hist) = total (y :: hist) + 1).
    unfold total in *. cbn [foldr]. rewrite IH by exact Hi. lia.
Qed.

Lemma total_replicate n : total (replicate n 0) = 0.
Proof. induction n as [| n IH]; cbn; [reflexivity | exact IH]. Qed.

Lemma subscript_last (n : nat) : subscript (S n) (-1) = Ret n.
Proof.
  unfold subscript. cbn [Z.ltb Z.compare].
  destruct (Z.leb_spec 0 (-1 + Z.of_nat (S n))); [| lia].
  destruct (Z.ltb_spec (-1 + Z.of_nat (S n)) (Z.of_nat (S n))); [| lia].
  cbn [andb]. f_equal. lia.
Qed.

(** [hist[i] += 1] inside the list. *)
Lemma increment_at (hist : list Z) (i : nat) :
  (i < length hist)%nat ->
  exists hist',
    (x ← getitem hist (Z.of_nat i); setitem hist (Z.of_nat i) (x + 1)) = Ret hist'
    /\ length hist' = length hist /\ total hist' = total hist + 1.
Proof.
  intros Hi. destruct (lookup_lt_is_Some_2 hist i Hi) as [x Hx].
  exists (<[i := x + 1]> hist).
  rewrite (getitem_in_range hist (Z.of_nat i) x), bind_Ret;
    [| lia | now rewrite Nat2Z.id].
  rewrite setitem_in_range, Nat2Z.id by (unfold len; lia).
  split; [reflexivity |]. split; [apply length_insert | now apply total_insert].
Qed.

(** [hist[-1] += 1] on a list that is not empty. *)
Lemma increment_last (hist : list Z) :
  hist <> [] ->
  exists hist',
    (x ← getitem hist (-1); setitem hist (-1) (x + 1)) = Ret hist'
    /\ length hist' = length hist /\ total hist' = total hist + 1.
Proof.
  intros Hne.
  destruct (length hist) as [| n] eqn:Hlen;
    [now apply length_zero_iff_nil in Hlen |].
  destruct (lookup_lt_is_Some_2 hist n) as [x Hx]; [lia |].
  exists (<[n := x + 1]> hist).
  unfold getitem, setitem. rewrite Hlen, subscript_last, !bind_Ret, Hx, bind_Ret.
  split; [reflexivity |]. split; [| now apply total_insert].
  now rewrite length_insert.
Qed.

Lemma bins_lookup (k : nat) :
  (k <= 10)%nat -> exists q, bins !! k = Some q /\ (k = 10%nat -> q = 1%Q).
Proof.
  intros Hk. do 11 (destruct k as [| k]; [eexists; split; [reflexivity | try lia; reflexivity] |]).
  lia.
Qed.

(** A value between a bin edge and 1 is counted once, by the buckets from
    that edge on or by the branch for the value 1. *)
Lemma count_in_bucket_once (sim : float) (m : nat) : forall (k : nat) lo hist,
  (k + m = 10)%nat -> bins !! k = Some lo -> (lo <= sim)%Q -> (sim <= 1)%Q ->
  length hist = 10%nat ->
  exists hist',
    count_in_bucket sim (map Z.of_nat (seq k m)) hist = Ret hist'
    /\ length hist' = 10%nat /\ total hist' = total hist + 1.
Proof.
  induction m as [| m IH]; intros k lo hist Hkm Hlo Hle Hone Hlen.
  - cbn [seq map count_in_bucket].
    destruct (bins_lookup k) as (q & Hq & Hlast); [lia |].
    rewrite Hq in Hlo. injection Hlo as <-. rewrite Hlast in Hle by lia.
    assert (Heq : feq sim 1%Q = true)
      by (apply Qeq_bool_iff, Qle_antisym; assumption).
    rewrite Heq.
    destruct (increment_last hist) as (hist' & Hrun & Hl & Ht);
      [intros ->; discriminate |].
    exists hist'. rewrite Hrun. split; [reflexivity |]. split; [congruence | exact Ht].
  - cbn [seq map count_in_bucket].
    rewrite (getitem_in_range bins (Z.of_nat k) lo), bind_Ret;
      [| lia | now rewrite Nat2Z.id].
    assert (Hfle : fle lo sim = true) by (apply Qle_bool_iff; exact Hle).
    rewrite Hfle.
    destruct (bins_lookup (S k)) as (hi & Hhi & _); [lia |].
    rewrite (getitem_in_range bins (Z.of_nat k + 1) hi), bind_Ret;
      [| lia | now replace (Z.to_nat (Z.of_nat k + 1)) with (S k) by lia].
    unfold flt. destruct (Qle_bool hi sim) eqn:Hcmp; cbn [negb].
    + apply (IH (S k) hi); [lia | exact Hhi | | exact Hone | exact Hlen].
      apply Qle_bool_iff. exact Hcmp.
    + destruct (increment_at hist k) as (hist' & Hrun & Hl & Ht); [lia |].
      exists hist'. rewrite Hrun. split; [reflexivity |].
      split; [congruence | exact Ht].
Qed.

Lemma histogram_total (all_sims : list float) :
  Forall (fun sim => 0 <= sim <= 1)%Q all_sims ->
  exists hist,
    histogram all_sims = Ret hist
    /\ length hist = 10%nat /\ total hist = len all_sims.
Proof.
  unfold histogram.
  change (len bins - 1) with 10.
  assert (Hgen : forall hist0, length hist0 = 10%nat ->
    Forall (fun sim => 0 <= sim <= 1)%Q all_sims ->
    exists hist,
      for_each (fun hist sim => count_in_bucket sim (range 10) hist) all_sims hist0
      = Ret hist
      /\ length hist = 10%nat /\ total hist = total hist0 + len all_sims).
  { induction all_sims as [| sim sims IH]; intros hist0 Hlen Hall.
    - exists hist0. split; [reflexivity |]. split; [exact Hlen |].
      unfold len; cbn; lia.
    - inversion Hall as [| ? ? [Hlo Hhi] Hrest]; subst.
      destruct (count_in_bucket_once sim 10 0 0%Q hist0)
        as (hist1 & Hrun & Hl1 & Ht1); try reflexivity; try assumption.
      destruct (IH hist1 Hl1 Hrest) as (hist & Hrun' & Hl & Ht).
      exists hist. cbn [for_each].
      change (range 10) with (map Z.of_nat (seq 0 10)).
      rewrite Hrun, bind_Ret.
      change (map Z.of_nat (seq 0 10)) with (range 10).
      rewrite Hrun'. split; [reflexivity |]. split; [exact Hl |].
      rewrite Ht, Ht1. unfold len. cbn [length]. lia. }
  intros Hall. destruct (Hgen (list_mul 0 10)) as (hist & Hrun & Hl & Ht);
    [reflexivity | exact Hall |].
  exists hist. split; [exact Hrun |]. split; [exact Hl |].
  rewrite Ht. unfold list_mul. rewrite total_replicate. lia.
Qed.

Lemma comprehension_map {A B : Type} (f : A -> outcome B) (g : A -> B) xs :
  (forall x, x ∈ xs -> f x = Ret (g x)) -> comprehension f xs = Ret (map g xs).
Proof.
  induction xs as [| x xs IH]; intros Hf; [reflexivity |].
  cbn [comprehension map]. rewrite Hf by apply list_elem_of_here.
  rewrite bind_Ret, IH; [reflexivity |].
  intros y Hy. apply Hf. now apply list_elem_of_further.
Qed.

Lemma rows_of_histogram (hist : list Z) (n : Z) :
  n <> 0 ->
  comprehension (fun i =>
                   count ← getitem hist i;
                   q ← truediv count n;
                   Ret (count, fl (q * 100)))
                (range (len hist))
  = Ret (map (row n) hist).
Proof.
  intros Hn.
  rewrite (comprehension_map _ (fun i => row n (default 0 (hist !! Z.to_nat i)))).
  - f_equal. unfold range, len. rewrite Nat2Z.id, map_map.
    apply list_eq; intros j. rewrite !list_lookup_fmap.
    destruct (hist !! j) as [x |] eqn:Hj.
    + rewrite lookup_seq_lt by (apply lookup_lt_Some in Hj; lia).
      cbn. now rewrite Nat2Z.id, Hj.
    + rewrite lookup_seq_ge by (apply lookup_ge_None in Hj; lia). reflexivity.
  - intros i Hi. apply elem_of_range in Hi. unfold len in Hi.
    destruct (lookup_lt_is_Some_2 hist (Z.to_nat i)) as [x Hx]; [lia |].
    rewrite (getitem_in_range hist i x), bind_Ret by (lia || exact Hx).
    rewrite truediv_nonzero, bind_Ret by exact Hn.
    now rewrite Hx.
Qed.

Lemma distribution_total (all_sims : list float) :
  all_sims <> [] ->
  Forall (fun sim => 0 <= sim <= 1)%Q all_sims ->
  exists hist,
    distribution all_sims = Ret (map (row (len all_sims)) hist)
    /\ length hist = 10%nat /\ total hist = len all_sims.
Proof.
  intros Hne Hall.
  destruct (histogram_total all_sims Hall) as (hist & Hrun & Hl & Ht).
  exists hist. unfold distribution. rewrite Hrun, bind_Ret.
  rewrite rows_of_histogram; [auto |].
  unfold len. destruct all_sims; [congruence | cbn; lia].
Qed.

(** ** The evaluator *)

Section EvaluatorFacts.

Context `{U : unicode} `{C : corpus}.

Lemma file_info_lookup (files : list str) (p : str) : forall m : gmap str str,
  p ∈ files \/ m !! p = Some (category_of p) ->
  fold_left (fun file_info filepath =>
               <[filepath := category_of filepath]> file_info) files m !! p
  = Some (category_of p).
Proof.
  induction files as [| f files IH]; intros m Hp.
  - destruct Hp as [Hin | Hm]; [| exact Hm]. now apply elem_of_nil in Hin.
  - cbn [fold_left]. apply IH.
    destruct (decide (f = p)) as [-> | Hne].
    + right. apply lookup_insert_eq.
    + destruct Hp as [Hin | Hm].
      * left. apply elem_of_cons in Hin. destruct Hin; [congruence | assumption].
      * right. now rewrite lookup_insert_ne.
Qed.

Lemma method_names_differ : lit "word_jaccard" <> lit "simhash".
Proof. discriminate. Qed.

Lemma sample_pair_step (fuel : nat) (file_info : gmap str str) (res : results) (i : Z) :
  (64 < fuel)%nat ->
  (forall p, p ∈ all_files -> file_info !! p = Some (category_of p)) ->
  (random_sample (Z.to_nat i)).1 ∈ all_files ->
  (random_sample (Z.to_nat i)).2 ∈ all_files ->
  well_formed res ->
  exists res',
    sample_pair fuel file_info res i = Ret res'
    /\ well_formed res'
    /\ length (res_all_pairs res')
       = (length (res_all_pairs res) + (if has_content i then 1 else 0))%nat.
Proof.
  intros Hfuel Hinfo H1 H2 [Hscored Hviews].
  unfold sample_pair, has_content.
  destruct (random_sample (Z.to_nat i)) as [file1 file2]. cbn [fst snd] in H1, H2.
  unfold dict_get. rewrite (Hinfo _ H1), (Hinfo _ H2), !bind_Ret.
  destruct (is_empty (read_file_content file1) || is_empty (read_file_content file2)).
  - exists res. cbn [negb]. split; [reflexivity |].
    split; [split; assumption | lia].
  - cbn [negb]. unfold similarity_methods. cbn [for_each].
    destruct (jaccard_range (read_file_content file1) (read_file_content file2))
      as (j & Hj & Hjr).
    destruct (simhash_similarity_range fuel (read_file_content file1)
                (read_file_content file2) Hfuel) as (s & Hs & Hsr).
    rewrite Hj, !bind_Ret, Hs, !bind_Ret.
    set (sims := <[lit "simhash" := s]> (<[lit "word_jaccard" := j]> ∅)).
    assert (Hsc : forall f1 f2 c1 c2 b,
               scored {| file1 := f1; file2 := f2; category1 := c1;
                         category2 := c2; same_category := b;
                         similarities := sims |}).
    { intros. exists j, s. cbn [similarities]. unfold sims.
      rewrite lookup_insert_ne by (apply not_eq_sym, method_names_differ).
      rewrite !lookup_insert_eq. auto. }
    destruct (bool_decide (category_of file1 = category_of file2));
      eexists; (split; [reflexivity |]); unfold well_formed;
      cbn [res_all_pairs res_same_category res_different_category].
    all: split; [split |].
    all: rewrite ?length_app; cbn [length]; try lia.
    all: apply Forall_app; split; [exact Hscored |].
    all: constructor; [apply Hsc | constructor].
Qed.

Lemma sampling_loop (fuel : nat) (file_info : gmap str str) (indices : list Z) :
  (64 < fuel)%nat ->
  (forall p, p ∈ all_files -> file_info !! p = Some (category_of p)) ->
  (forall i, (random_sample i).1 ∈ all_files /\ (random_sample i).2 ∈ all_files) ->
  forall res, well_formed res ->
  exists res',
    for_each (sample_pair fuel file_info) indices res = Ret res'
    /\ well_formed res'
    /\ length (res_all_pairs res')
       = (length (res_all_pairs res) + length (List.filter has_content indices))%nat.
Proof.
  intros Hfuel Hinfo Hdraws.
  induction indices as [| i indices IH]; intros res Hwf.
  - exists res. split; [reflexivity |]. split; [exact Hwf | cbn; lia].
  - destruct (sample_pair_step fuel file_info res i)
      as (res1 & Hrun1 & Hwf1 & Hlen1); try assumption; try apply Hdraws.
    destruct (IH res1 Hwf1) as (res' & Hrun & Hwf' & Hlen).
    exists res'. cbn [for_each]. rewrite Hrun1, bind_Ret.
    split; [exact Hrun |]. split; [exact Hwf' |].
    rewrite Hlen, Hlen1. cbn [List.filter].
    destruct (has_content i); cbn [length]; lia.
Qed.

Lemma analyze_test_corpus_runs (fuel : nat) (num_samples : Z) :
  (64 < fuel)%nat -> 2 <= len all_files ->
  (forall i, (random_sample i).1 ∈ all_files /\ (random_sample i).2 ∈ all_files) ->
  exists res,
    analyze_test_corpus fuel num_samples = Ret (Some res)
    /\ well_formed res
    /\ length (res_all_pairs res)
       = length (List.filter has_content (range num_samples)).
Proof.
  intros Hfuel Hfiles Hdraws. unfold analyze_test_corpus.
  destruct (Z.ltb_spec (len all_files) 2); [lia |].
  destruct (sampling_loop fuel
              (fold_left (fun file_info filepath =>
                            <[filepath := category_of filepath]> file_info)
                         all_files ∅)
              (range num_samples) Hfuel) with (res := no_results)
    as (res & Hrun & Hwf & Hlen).
  - intros p Hp. apply file_info_lookup. now left.
  - exact Hdraws.
  - split; [constructor | reflexivity].
  - exists res. cbn zeta. rewrite Hrun, bind_Ret. auto.
Qed.

Lemma analyze_test_corpus_small (fuel : nat) (num_samples : Z) :
  len all_files < 2 -> analyze_test_corpus fuel num_samples = Ret None.
Proof.
  intros Hfiles. unfold analyze_test_corpus.
  destruct (Z.ltb_spec (len all_files) 2); [reflexivity | lia].
Qed.

Lemma filter_split {A : Type} (f : A -> bool) (l : list A) :
  (length (List.filter f l) + length (List.filter (fun x => negb (f x)) l)
   = length l)%nat.
Proof.
  induction l as [| x l IH]; [reflexivity |]. cbn [List.filter].
  destruct (f x); cbn [negb length]; lia.
Qed.

End EvaluatorFacts.

Lemma dict_get_Some {V : Type} (d : gmap str V) (k : str) (v : V) :
  d !! k = Some v -> dict_get d k = Ret v.
Proof. intros Hk. unfold dict_get. now rewrite Hk. Qed.

Lemma sims_of_scored (method : str) (pairs : list pair_result) :
  method = lit "word_jaccard" \/ method = lit "simhash" ->
  Forall scored pairs ->
  exists sims,
    sims_of method pairs = Ret sims
    /\ length sims = length pairs
    /\ Forall (fun sim => 0 <= sim <= 1)%Q sims.
Proof.
  intros Hmethod. induction 1 as [| pair pairs Hpair Hrest IH].
  - exists []. split; [reflexivity |]. split; [reflexivity | constructor].
  - destruct IH as (sims & Hrun & Hlen & Hall).
    destruct Hpair as (j & s & Hj & Hs & Hjr & Hsr).
    unfold sims_of in *. cbn [comprehension]. cbn beta.
    destruct Hmethod as [-> | ->].
    + exists (j :: sims).
      rewrite (dict_get_Some _ _ _ Hj), bind_Ret, Hrun, bind_Ret.
      split; [reflexivity |]. split; [cbn; lia | now constructor].
    + exists (s :: sims).
      rewrite (dict_get_Some _ _ _ Hs), bind_Ret, Hrun, bind_Ret.
      split; [reflexivity |]. split; [cbn; lia | now constructor].
Qed.

Lemma Forall_filter_list {A : Type} (P : A -> Prop) (f : A -> bool) (l : list A) :
  Forall P l -> Forall P (List.filter f l).
Proof.
  induction 1 as [| x l Hx _ IH]; [constructor |]. cbn [List.filter].
  destruct (f x); [now constructor | exact IH].
Qed.

(** ** The sampling loop *)

Lemma extend_nil res : extend res [] = res.
Proof. destruct res. unfold extend. cbn. now rewrite !app_nil_r. Qed.

Lemma extend_extend res added1 added2 :
  extend (extend res added1) added2 = extend res (added1 ++ added2).
Proof.
  unfold extend. cbn [res_same_category res_different_category res_all_pairs].
  now rewrite !List.filter_app, !app_assoc.
Qed.

Section SamplingFacts.

Context `{U : unicode} `{C : corpus}.

Lemma sample_pair_records (fuel : nat) (file_info : gmap str str)
  (res : results) (i : Z) :
  (64 < fuel)%nat ->
  (forall p, p ∈ all_files -> file_info !! p = Some (category_of p)) ->
  (random_sample (Z.to_nat i)).1 ∈ all_files ->
  (random_sample (Z.to_nat i)).2 ∈ all_files ->
  exists added,
    sample_pair fuel file_info res i = Ret (extend res added)
    /\ Forall2 (records fuel) added (List.filter has_content [i]).
Proof.
  intros Hfuel Hinfo H1 H2.
  unfold sample_pair, has_content, records. cbn [List.filter].
  destruct (random_sample (Z.to_nat i)) as [f1 f2] eqn:Hdraw. cbn [fst snd] in H1, H2.
  unfold dict_get at 1 2. rewrite (Hinfo _ H1), (Hinfo _ H2), !bind_Ret.
  destruct (is_empty (read_file_content f1) || is_empty (read_file_content f2)).
  - exists []. cbn [negb]. rewrite extend_nil. split; [reflexivity | constructor].
  - cbn [negb]. unfold similarity_methods. cbn [for_each].
    destruct (jaccard_range (read_file_content f1) (read_file_content f2))
      as (j & Hj & _).
    destruct (simhash_similarity_range fuel (read_file_content f1)
                (read_file_content f2) Hfuel) as (s & Hs & _).
    rewrite Hj, !bind_Ret, Hs, !bind_Ret.
    exists [ {| file1 := f1; file2 := f2;
                category1 := category_of f1; category2 := category_of f2;
                same_category := bool_decide (category_of f1 = category_of f2);
                similarities :=
                  <[lit "simhash" := s]> (<[lit "word_jaccard" := j]> ∅) |} ].
    split.
    + unfold extend. cbn [List.filter same_category].
      destruct (bool_decide (category_of f1 = category_of f2)); cbn [negb];
        now rewrite ?app_nil_r.
    + constructor; [| constructor]. rewrite Hdraw.
      cbn [file1 file2 category1 category2 same_category similarities].
      repeat (split; [reflexivity |]). unfold dict_get.
      rewrite lookup_insert_ne by (apply not_eq_sym, method_names_differ).
      now rewrite !lookup_insert_eq.
Qed.

Lemma sampling_loop_records (fuel : nat) (file_info : gmap str str)
  (indices : list Z) :
  (64 < fuel)%nat ->
  (forall p, p ∈ all_files -> file_info !! p = Some (category_of p)) ->
  (forall i, (random_sample i).1 ∈ all_files /\ (random_sample i).2 ∈ all_files) ->
  forall res,
  exists added,
    for_each (sample_pair fuel file_info) indices res = Ret (extend res added)
    /\ Forall2 (records fuel) added (List.filter has_content indices).
Proof.
  intros Hfuel Hinfo Hdraws.
  induction indices as [| i indices IH]; intros res.
  - exists []. rewrite extend_nil. split; [reflexivity | constructor].
  - destruct (sample_pair_records fuel file_info res i)
      as (added1 & Hrun1 & Hrec1); try assumption; try apply Hdraws.
    destruct (IH (extend res added1)) as (added2 & Hrun2 & Hrec2).
    exists (added1 ++ added2). cbn [for_each].
    rewrite Hrun1, bind_Ret, Hrun2, extend_extend. split; [reflexivity |].
    change (i :: indices) with ([i] ++ indices). rewrite List.filter_app.
    now apply Forall2_app.
Qed.

Lemma analyze_test_corpus_records (fuel : nat) (num_samples : Z) :
  (64 < fuel)%nat -> 2 <= len all_files ->
  (forall i, (random_sample i).1 ∈ all_files /\ (random_sample i).2 ∈ all_files) ->
  exists res,
    analyze_test_corpus fuel num_samples = Ret (Some res)
    /\ Forall2 (records fuel) (res_all_pairs res)
         (List.filter has_content (range num_samples))
    /\ res_same_category res = List.filter same_category (res_all_pairs res)
    /\ res_different_category res
       = List.filter (fun pair => negb (same_category pair)) (res_all_pairs res).
Proof.
  intros Hfuel Hfiles Hdraws. unfold analyze_test_corpus.
  destruct (Z.ltb_spec (len all_files) 2); [lia |]. cbn zeta.
  destruct (sampling_loop_records fuel
              (fold_left (fun file_info filepath =>
                            <[filepath := category_of filepath]> file_info)
                         all_files ∅)
              (range num_samples) Hfuel) with (res := no_results)
    as (added & Hrun & Hrec).
  - intros p Hp. apply file_info_lookup. now left.
  - exact Hdraws.
  - exists (extend no_results added). rewrite Hrun, bind_Ret.
    split; [reflexivity |]. split; [exact Hrec |]. split; reflexivity.
Qed.

End SamplingFacts.

(** ** The report *)

Lemma insert_sorted_length x l : length (insert_sorted x l) = S (length l).
Proof.
  induction l as [| y l IH]; [reflexivity |]. cbn [insert_sorted].
  destruct (flt x y); cbn [length]; [reflexivity | now rewrite IH].
Qed.

Lemma sorted_length data : length (sorted data) = length data.
Proof.
  induction data as [| x data IH]; [reflexivity |].
  cbn [sorted fold_right]. fold (sorted data).
  now rewrite insert_sorted_length, IH.
Qed.

Lemma getitem_total {A : Type} (l : list A) (i : Z) :
  0 <= i < len l -> exists x, getitem l i = Ret x.
Proof.
  intros Hi. unfold len in Hi.
  destruct (lookup_lt_is_Some_2 l (Z.to_nat i)) as [x Hx]; [lia |].
  exists x. apply getitem_in_range; [lia | exact Hx].
Qed.

Lemma mean_returns data :
  data <> [] -> exists m, statistics.mean data = Ret m.
Proof.
  intros Hne. unfold statistics.mean.
  destruct (Z.ltb_spec (len data) 1) as [Hlt | _]; [| eauto].
  destruct data; [congruence | unfold len in Hlt; cbn in Hlt; lia].
Qed.

Lemma median_returns data :
  data <> [] -> exists m, statistics.median data = Ret m.
Proof.
  intros Hne. unfold statistics.median. cbn zeta.
  assert (Hlen : 0 < len (sorted data)).
  { unfold len. rewrite sorted_length. destruct data; [congruence | cbn; lia]. }
  destruct (Z.eqb_spec (len (sorted data)) 0); [lia |].
  destruct (Z.eqb_spec (len (sorted data) mod 2) 1) as [Hodd | Heven].
  - apply getitem_total. split; [apply Z.div_pos; lia |].
    apply Z.div_lt_upper_bound; lia.
  - assert (Hmod : len (sorted data) mod 2 = 0)
      by (pose proof (Z.mod_pos_bound (len (sorted data)) 2); lia).
    assert (Hhalf : 1 <= len (sorted data) / 2).
    { apply Z.div_le_lower_bound; [lia |].
      destruct (Z.eq_dec (len (sorted data)) 1) as [H1 | H1]; [| lia].
      rewrite H1 in Hmod. discriminate. }
    destruct (getitem_total (sorted data) (len (sorted data) / 2 - 1)) as [a Ha].
    { split; [lia |]. assert (len (sorted data) / 2 < len (sorted data))
        by (apply Z.div_lt_upper_bound; lia). lia. }
    destruct (getitem_total (sorted data) (len (sorted data) / 2)) as [b Hb].
    { split; [lia |]. apply Z.div_lt_upper_bound; lia. }
    rewrite Ha, bind_Ret, Hb, bind_Ret. eauto.
Qed.

Section ReportFacts.

Variable fsqrt : Q -> float.

Lemma stdev_returns data :
  2 <= len data -> exists sd, statistics.stdev fsqrt data = Ret sd.
Proof.
  intros Hn. unfold statistics.stdev. cbn zeta.
  destruct (Z.ltb_spec (len data) 2); [lia | eauto].
Qed.

Lemma stdev_raises data :
  len data < 2 -> statistics.stdev fsqrt data = Raise StatisticsError.
Proof.
  intros Hn. unfold statistics.stdev. cbn zeta.
  destruct (Z.ltb_spec (len data) 2); [reflexivity | lia].
Qed.

Lemma view_statistics_returns sims :
  2 <= len sims -> exists v, view_statistics fsqrt sims = Ret v.
Proof.
  intros Hn. unfold view_statistics.
  assert (Hne : sims <> []) by (intros ->; unfold len in Hn; cbn in Hn; lia).
  destruct (mean_returns sims Hne) as [m ->].
  destruct (median_returns sims Hne) as [md ->].
  destruct (stdev_returns sims Hn) as [sd ->].
  rewrite !bind_Ret. eauto.
Qed.

Lemma view_statistics_raises sims :
  len sims < 2 -> view_statistics fsqrt sims = Raise StatisticsError.
Proof.
  intros Hn. unfold view_statistics.
  destruct sims as [| x sims]; [reflexivity |].
  destruct (mean_returns (x :: sims)) as [m ->]; [discriminate |].
  destruct (median_returns (x :: sims)) as [md ->]; [discriminate |].
  rewrite !bind_Ret, stdev_raises by exact Hn. reflexivity.
Qed.

Lemma guarded_view_returns sims :
  len sims <> 1 ->
  exists v, guarded_view fsqrt sims = Ret v /\ (v = None <-> sims = []).
Proof.
  intros Hn. unfold guarded_view. destruct sims as [| x sims].
  - exists None. split; [reflexivity | tauto].
  - cbn [is_empty negb].
    destruct (view_statistics_returns (x :: sims)) as [v Hv].
    { unfold len in *. cbn [length] in *. lia. }
    rewrite Hv, bind_Ret. exists (Some v). split; [reflexivity |].
    split; discriminate.
Qed.

Lemma guarded_view_raises sims :
  len sims = 1 -> guarded_view fsqrt sims = Raise StatisticsError.
Proof.
  intros Hn. unfold guarded_view.
  destruct sims as [| x sims]; [discriminate |]. cbn [is_empty negb].
  rewrite view_statistics_raises by lia. reflexivity.
Qed.

Lemma method_statistics_returns (res : results) (method : str) :
  method = lit "word_jaccard" \/ method = lit "simhash" ->
  Forall scored (res_all_pairs res) ->
  Forall scored (res_same_category res) ->
  Forall scored (res_different_category res) ->
  2 <= len (res_all_pairs res) ->
  len (res_same_category res) <> 1 ->
  len (res_different_category res) <> 1 ->
  exists report,
    method_statistics fsqrt res method = Ret report
    /\ length (rows report) = 10%nat
    /\ total (map fst (rows report)) = len (res_all_pairs res)
    /\ (same_view report = None <-> res_same_category res = [])
    /\ (different_view report = None <-> res_different_category res = [])
    /\ Forall (fun r : Z * float =>
                 r.2 == inject_Z r.1 / inject_Z (len (res_all_pairs res)) * 100)%Q
         (rows report).
Proof.
  intros Hmethod Hall Hsame Hdiff Hn Hns Hnd. unfold method_statistics.
  destruct (sims_of_scored method _ Hmethod Hall) as (all_sims & -> & Hla & Hra).
  destruct (sims_of_scored method _ Hmethod Hsame) as (same_sims & -> & Hls & _).
  destruct (sims_of_scored method _ Hmethod Hdiff) as (diff_sims & -> & Hld & _).
  rewrite !bind_Ret.
  assert (Hlen : len all_sims = len (res_all_pairs res)) by (unfold len; congruence).
  destruct (view_statistics_returns all_sims) as [v ->]; [lia |].
  assert (Hne : all_sims <> [])
    by (intros ->; unfold len in Hlen, Hn; cbn in Hlen; lia).
  destruct all_sims as [| x all_sims]; [congruence |]. cbn [py_min py_max].
  rewrite !bind_Ret.
  destruct (guarded_view_returns same_sims) as (sv & -> & Hsv);
    [unfold len in *; congruence |].
  destruct (guarded_view_returns diff_sims) as (dv & -> & Hdv);
    [unfold len in *; congruence |].
  rewrite !bind_Ret.
  destruct (distribution_total (x :: all_sims) Hne Hra) as (hist & -> & Hl & Ht).
  rewrite bind_Ret. eexists. split; [reflexivity |].
  cbn [rows same_view different_view].
  split; [now rewrite length_map |]. split.
  - rewrite map_map. cbn [row fst]. rewrite map_id. congruence.
  - split; [| split].
    + rewrite Hsv. split; intros He.
      * subst. destruct (res_same_category res); [reflexivity | discriminate].
      * rewrite He in Hls. now destruct same_sims.
    + rewrite Hdv. split; intros He.
      * subst. destruct (res_different_category res); [reflexivity | discriminate].
      * rewrite He in Hld. now destruct diff_sims.
    + rewrite <- Hlen. apply Forall_forall. intros r Hr.
      apply list_elem_of_fmap in Hr. destruct Hr as (count & -> & _).
      unfold row. cbn [fst snd]. now rewrite !fl_correct.
Qed.

Lemma method_statistics_raises (res : results) (method : str) :
  method = lit "word_jaccard" \/ method = lit "simhash" ->
  Forall scored (res_all_pairs res) ->
  Forall scored (res_same_category res) ->
  Forall scored (res_different_category res) ->
  len (res_all_pairs res) < 2
  \/ len (res_same_category res) = 1
  \/ len (res_different_category res) = 1 ->
  method_statistics fsqrt res method = Raise StatisticsError.
Proof.
  intros Hmethod Hall Hsame Hdiff Hbad. unfold method_statistics.
  destruct (sims_of_scored method _ Hmethod Hall) as (all_sims & -> & Hla & Hra).
  destruct (sims_of_scored method _ Hmethod Hsame) as (same_sims & -> & Hls & _).
  destruct (sims_of_scored method _ Hmethod Hdiff) as (diff_sims & -> & Hld & _).
  rewrite !bind_Ret.
  destruct (Z.lt_ge_cases (len all_sims) 2) as [Hlt | Hge].
  - rewrite view_statistics_raises by exact Hlt. reflexivity.
  - destruct (view_statistics_returns all_sims Hge) as [v ->]. rewrite bind_Ret.
    destruct all_sims as [| x all_sims]; [unfold len in Hge; cbn in Hge; lia |].
    cbn [py_min py_max]. rewrite !bind_Ret.
    destruct (Z.eq_dec (len same_sims) 1) as [H1 | H1].
    + rewrite (guarded_view_raises same_sims H1). reflexivity.
    + destruct (guarded_view_returns same_sims H1) as (sv & -> & _).
      rewrite bind_Ret. rewrite (guarded_view_raises diff_sims); [reflexivity |].
      unfold len in *. destruct Hbad as [Hb | [Hb | Hb]]; congruence || lia.
Qed.

End ReportFacts.

(** * The claims *)

Section Claims.

Context `{U : unicode}.

(** C1. For every text, at the default width 64, [simhash_hash] returns the
    fingerprint of the spec: the tokens are the maximal runs of word
    characters of the lowercased text, each hashed with FNV-1a from
    2166136261; position [i] has a signed counter moved up when bit
    [(hash >> (i mod 32)) & 1] is 1 and down otherwise; bit [i] of the
    result is 1 exactly when the counter is strictly positive, and no bit
    beyond the width is set. *)
Theorem simhash_hash_follows_spec (text : str) :
  lower [] = [] ->
  exists fp,
    simhash_hash text 64 = Ret fp
    /\ 0 <= fp < 2 ^ 64
    /\ forall i, 0 <= i < 64 ->
         Z.testbit fp i = (0 <? spec_counter (spec_tokens text) i).
Proof.
  intros Hlower. destruct text as [| c text].
  - exists 0. split; [reflexivity |]. split; [lia |]. intros i Hi.
    unfold spec_tokens. rewrite Hlower. cbn. apply Z.bits_0.
  - destruct (simhash_hash_counters (c :: text) 64) as (fp & Hfp & Hb & Hbits);
      [discriminate |].
    exists fp. split; [exact Hfp |]. split; [exact Hb |].
    intros i Hi. unfold spec_tokens. rewrite <- findall_runs.
    apply Hbits. exact Hi.
Qed.

(** C4. A text with no token (the empty string, or one whose lowercased
    form has no word) has fingerprint 0, and two such texts have SimHash
    similarity exactly 1. *)
Theorem empty_tokens_fingerprint_zero (fuel : nat) (text1 text2 : str) :
  text1 = [] \/ findall (lower text1) = [] ->
  text2 = [] \/ findall (lower text2) = [] ->
  (0 < fuel)%nat ->
  simhash_hash text1 64 = Ret 0
  /\ simhash_hash text2 64 = Ret 0
  /\ simhash_similarity fuel text1 text2 = Ret 1%Q.
Proof.
  assert (Hzero : forall text,
             text = [] \/ findall (lower text) = [] -> simhash_hash text 64 = Ret 0).
  { intros text [-> | Hnone]; [reflexivity |].
    destruct text as [| c text]; [reflexivity |].
    destruct (simhash_hash_counters (c :: text) 64) as (fp & Hfp & Hb & Hbits);
      [discriminate |].
    change (Z.of_nat 64) with 64 in Hfp, Hb, Hbits.
    rewrite Hfp. f_equal. apply Z.bits_inj_0. intros i.
    destruct (Z.lt_ge_cases i 0) as [Hneg | Hpos]; [apply Z.testbit_neg_r, Hneg |].
    destruct (Z.lt_ge_cases i 64) as [Hlt | Hge].
    - rewrite Hbits, Hnone by lia. reflexivity.
    - apply (testbit_above fp 64); [exact Hb | exact Hge]. }
  intros H1 H2 Hfuel.
  split; [apply Hzero, H1 |]. split; [apply Hzero, H2 |].
  unfold simhash_similarity. rewrite !Hzero by assumption. rewrite !bind_Ret.
  destruct fuel as [| fuel]; [lia |]. reflexivity.
Qed.

(** C5. When either text has no distinct word (in particular when either
    is the empty string), the Jaccard similarity is the value 0, not an
    exception. *)
Theorem jaccard_empty_is_zero (text1 text2 : str) :
  (text1 = [] \/ word_set text1 = ∅) \/ (text2 = [] \/ word_set text2 = ∅) ->
  compute_simple_similarity text1 text2 = Ret 0%Q.
Proof. apply jaccard_empty. Qed.

(** C9. For every pair of texts both similarities are returned and lie
    between 0 and 1 inclusive. *)
Theorem similarities_in_unit_interval (fuel : nat) (text1 text2 : str) :
  (64 < fuel)%nat ->
  (exists s, simhash_similarity fuel text1 text2 = Ret s /\ (0 <= s <= 1)%Q)
  /\ (exists j, compute_simple_similarity text1 text2 = Ret j /\ (0 <= j <= 1)%Q).
Proof.
  intros Hfuel. split;
    [apply simhash_similarity_range, Hfuel | apply jaccard_range].
Qed.

(** C10. For a non-empty text [t] the SimHash similarity of the empty
    string against [t] is [1 - popcount(simhash_hash(t, 64)) / 64]; it is
    strictly positive when fewer than 64 bits are set, while the Jaccard
    similarity of the same pair is 0. *)
Theorem simhash_of_empty_against_text (fuel : nat) (t : str) :
  t <> [] -> (64 < fuel)%nat ->
  exists h s,
    simhash_hash t 64 = Ret h
    /\ simhash_similarity fuel [] t = Ret s
    /\ (s == 1 - inject_Z (popcount h) / 64)%Q
    /\ (popcount h < 64 -> (0 < s)%Q)
    /\ compute_simple_similarity [] t = Ret 0%Q.
Proof.
  intros Hne Hfuel.
  destruct (simhash_hash_total t 64) as (h & Hh & Hb).
  destruct (simhash_similarity_popcount fuel [] t 0 h) as [Hs Hpc];
    [reflexivity | exact Hh | lia | exact Hb | exact Hfuel |].
  rewrite Z.lxor_0_l in Hs, Hpc.
  exists h. eexists. split; [exact Hh |]. split; [exact Hs |].
  assert (Heq : (fl (1 - fl (inject_Z (popcount h) / 64))
                 == 1 - inject_Z (popcount h) / 64)%Q)
    by (now rewrite !fl_correct).
  split; [exact Heq |]. split; [| reflexivity].
  intros Hlt. rewrite Heq.
  assert (Hq : (inject_Z (popcount h) / 64 < 1)%Q).
  { apply Qlt_shift_div_r; [reflexivity |]. rewrite Qmult_1_l.
    unfold Qlt; cbn; lia. }
  lra.
Qed.

(** C3, as amended.  For every text the SimHash similarity of the text with
    itself is 1; the Jaccard similarity of a non-empty text with itself is
    1 when the text has a word and 0 when it has none. *)
Theorem self_similarity (fuel : nat) (t : str) :
  t <> [] -> (64 < fuel)%nat ->
  simhash_similarity fuel t t = Ret 1%Q
  /\ (word_set t <> ∅ -> compute_simple_similarity t t = Ret 1%Q)
  /\ (word_set t = ∅ -> compute_simple_similarity t t = Ret 0%Q).
Proof.
  intros Hne Hfuel. split; [apply simhash_similarity_self, Hfuel |]. split.
  - intros Hw. apply jaccard_self; assumption.
  - intros Hw. apply jaccard_empty. auto.
Qed.

(** C2, as amended.  No width is checked when fingerprints are compared:
    on fingerprints produced with any two widths [hamming_distance]
    returns the number of positions in which they differ, the narrower one
    read as padded with zeros, and raises nothing; and
    [simhash_similarity] always fingerprints both texts at width 64 and
    divides the distance by 64. *)
Theorem widths_are_not_checked (fuel bits1 bits2 : nat) (text1 text2 : str) :
  (bits1 < fuel)%nat -> (bits2 < fuel)%nat -> (64 < fuel)%nat ->
  (exists hash1 hash2,
     simhash_hash text1 (Z.of_nat bits1) = Ret hash1
     /\ simhash_hash text2 (Z.of_nat bits2) = Ret hash2
     /\ 0 <= hash1 < 2 ^ Z.of_nat bits1 /\ 0 <= hash2 < 2 ^ Z.of_nat bits2
     /\ hamming_distance fuel hash1 hash2 = Ret (popcount (Z.lxor hash1 hash2)))
  /\ (exists hash1 hash2,
        simhash_hash text1 64 = Ret hash1
        /\ simhash_hash text2 64 = Ret hash2
        /\ hamming_distance fuel hash1 hash2 = Ret (popcount (Z.lxor hash1 hash2))
        /\ simhash_similarity fuel text1 text2
           = Ret (fl (1 - fl (inject_Z (popcount (Z.lxor hash1 hash2)) / 64)))).
Proof.
  intros Hf1 Hf2 Hf64. split.
  - destruct (simhash_hash_total text1 bits1) as (h1 & H1 & Hb1).
    destruct (simhash_hash_total text2 bits2) as (h2 & H2 & Hb2).
    exists h1, h2. split; [exact H1 |]. split; [exact H2 |].
    split; [exact Hb1 |]. split; [exact Hb2 |].
    assert (Hmono : forall a b : nat, (a <= b)%nat -> 2 ^ Z.of_nat a <= 2 ^ Z.of_nat b)
      by (intros a b Hab; apply Z.pow_le_mono_r; lia).
    apply (hamming_distance_popcount (Nat.max bits1 bits2)).
    + pose proof (Hmono bits1 (Nat.max bits1 bits2)). lia.
    + pose proof (Hmono bits2 (Nat.max bits1 bits2)). lia.
    + lia.
  - destruct (simhash_hash_total text1 64) as (h1 & H1 & Hb1).
    destruct (simhash_hash_total text2 64) as (h2 & H2 & Hb2).
    change (Z.of_nat 64) with 64 in H1, H2, Hb1, Hb2.
    exists h1, h2. split; [exact H1 |]. split; [exact H2 |].
    split; [apply (hamming_distance_popcount 64); assumption |].
    apply (simhash_similarity_popcount fuel text1 text2 h1 h2); assumption.
Qed.


End Claims.

Section EvaluatorClaims.

Context `{U : unicode} `{C : corpus}.
Variable fsqrt : Q -> float.


(** C7, as amended.  A drawn pair with empty content on either side is
    recorded in no view, and it uses up one of the [num_samples] draws:
    the run returns, and the pairs it has accumulated are as many as the
    draws less the skipped ones. *)
Theorem skipped_pairs_use_up_draws (fuel : nat) (num_samples : Z) :
  (64 < fuel)%nat -> 2 <= len all_files ->
  (forall i, (random_sample i).1 ∈ all_files /\ (random_sample i).2 ∈ all_files) ->
  exists res,
    analyze_test_corpus fuel num_samples = Ret (Some res)
    /\ len (res_all_pairs res)
       + len (List.filter (fun i => negb (has_content i)) (range num_samples))
       = Z.max 0 num_samples
    /\ len (res_same_category res) + len (res_different_category res)
       = len (res_all_pairs res).
Proof.
  intros Hfuel Hfiles Hdraws.
  destruct (analyze_test_corpus_runs fuel num_samples Hfuel Hfiles Hdraws)
    as (res & Hrun & [_ Hviews] & Hlen).
  exists res. split; [exact Hrun |]. unfold len. split; [| lia].
  rewrite Hlen.
  pose proof (filter_split has_content (range num_samples)) as Hsplit.
  rewrite range_length in Hsplit. lia.
Qed.

End EvaluatorClaims.

(** ** Runs on ASCII text *)

Lemma example_draws (i : nat) :
  (random_sample (corpus := example_vault) i).1 ∈ all_files (corpus := example_vault)
  /\ (random_sample (corpus := example_vault) i).2 ∈ all_files (corpus := example_vault).
Proof. destruct i; cbn; split; repeat constructor. Qed.

Lemma simhash_hash_follows_spec_run :
  lower (unicode := ascii) [] = []
  /\ exists fp,
       simhash_hash (U := ascii) (lit "The cat sat on the mat.") 64 = Ret fp
       /\ 0 <= fp < 2 ^ 64
       /\ forall i, 0 <= i < 64 ->
            Z.testbit fp i
            = (0 <? spec_counter
                      (spec_tokens (U := ascii) (lit "The cat sat on the mat.")) i).
Proof.
  split; [reflexivity |].
  apply (simhash_hash_follows_spec (U := ascii)). reflexivity.
Defined.

(** C2 fails as stated: the fingerprints of one text at widths 64 and 32
    are compared without any error, and a distance comes back. *)
Lemma mixed_widths_are_compared :
  simhash_hash (U := ascii) (lit "a") 64 = Ret 16432554413149399340
  /\ simhash_hash (U := ascii) (lit "a") 32 = Ret 3826002220
  /\ hamming_distance 65 16432554413149399340 3826002220 = Ret 12.
Proof. vm_compute. repeat split. Qed.

Lemma widths_are_not_checked_run :
  (64 < 65)%nat /\ (32 < 65)%nat
  /\ (exists hash1 hash2,
        simhash_hash (U := ascii) (lit "a") (Z.of_nat 64) = Ret hash1
        /\ simhash_hash (U := ascii) (lit "b") (Z.of_nat 32) = Ret hash2
        /\ 0 <= hash1 < 2 ^ Z.of_nat 64 /\ 0 <= hash2 < 2 ^ Z.of_nat 32
        /\ hamming_distance 65 hash1 hash2 = Ret (popcount (Z.lxor hash1 hash2)))
  /\ (exists hash1 hash2,
        simhash_hash (U := ascii) (lit "a") 64 = Ret hash1
        /\ simhash_hash (U := ascii) (lit "b") 64 = Ret hash2
        /\ hamming_distance 65 hash1 hash2 = Ret (popcount (Z.lxor hash1 hash2))
        /\ simhash_similarity (U := ascii) 65 (lit "a") (lit "b")
           = Ret (fl (1 - fl (inject_Z (popcount (Z.lxor hash1 hash2)) / 64)))).
Proof.
  split; [lia |]. split; [lia |].
  apply (widths_are_not_checked (U := ascii) 65 64 32 (lit "a") (lit "b")); lia.
Defined.

(** C3 fails as stated: a text of punctuation only is not empty, and its
    Jaccard similarity with itself is 0, not 1. *)
Lemma jaccard_of_punctuation_with_itself :
  lit "!!!" <> []
  /\ compute_simple_similarity (U := ascii) (lit "!!!") (lit "!!!") = Ret 0%Q
  /\ compute_simple_similarity (U := ascii) (lit "!!!") (lit "!!!") <> Ret 1%Q.
Proof.
  split; [discriminate |].
  assert (H : compute_simple_similarity (U := ascii) (lit "!!!") (lit "!!!") = Ret 0%Q)
    by (vm_compute; reflexivity).
  split; [exact H |]. rewrite H. discriminate.
Qed.

Lemma self_similarity_run :
  lit "the cat" <> [] /\ (64 < 65)%nat
  /\ simhash_similarity (U := ascii) 65 (lit "the cat") (lit "the cat") = Ret 1%Q
  /\ (word_set (U := ascii) (lit "the cat") <> ∅ ->
      compute_simple_similarity (U := ascii) (lit "the cat") (lit "the cat") = Ret 1%Q)
  /\ (word_set (U := ascii) (lit "the cat") = ∅ ->
      compute_simple_similarity (U := ascii) (lit "the cat") (lit "the cat") = Ret 0%Q).
Proof.
  split; [discriminate |]. split; [lia |].
  apply (self_similarity (U := ascii) 65 (lit "the cat")); [discriminate | lia].
Defined.

Lemma empty_tokens_fingerprint_zero_run :
  (lit "" = [] \/ findall (U := ascii) (lower (unicode := ascii) (lit "")) = [])
  /\ (lit "?! ..." = []
      \/ findall (U := ascii) (lower (unicode := ascii) (lit "?! ...")) = [])
  /\ (0 < 1)%nat
  /\ simhash_hash (U := ascii) (lit "") 64 = Ret 0
  /\ simhash_hash (U := ascii) (lit "?! ...") 64 = Ret 0
  /\ simhash_similarity (U := ascii) 1 (lit "") (lit "?! ...") = Ret 1%Q.
Proof.
  split; [left; reflexivity |]. split; [right; reflexivity |]. split; [lia |].
  apply (empty_tokens_fingerprint_zero (U := ascii) 1 (lit "") (lit "?! ..."));
    [left; reflexivity | right; reflexivity | lia].
Defined.

Lemma jaccard_empty_is_zero_run :
  ((lit "the cat" = [] \/ word_set (U := ascii) (lit "the cat") = ∅)
   \/ (lit "" = [] \/ word_set (U := ascii) (lit "") = ∅))
  /\ compute_simple_similarity (U := ascii) (lit "the cat") (lit "") = Ret 0%Q.
Proof.
  split; [right; left; reflexivity |].
  apply (jaccard_empty_is_zero (U := ascii)). right. left. reflexivity.
Defined.

Lemma similarities_in_unit_interval_run :
  (64 < 65)%nat
  /\ (exists s, simhash_similarity (U := ascii) 65 (lit "the cat") (lit "a dog") = Ret s
                /\ (0 <= s <= 1)%Q)
  /\ (exists j, compute_simple_similarity (U := ascii) (lit "the cat") (lit "a dog") = Ret j
                /\ (0 <= j <= 1)%Q).
Proof.
  split; [lia |].
  apply (similarities_in_unit_interval (U := ascii) 65 (lit "the cat") (lit "a dog")).
  lia.
Defined.

Lemma simhash_of_empty_against_text_run :
  lit "a" <> [] /\ (64 < 65)%nat
  /\ exists h s,
       simhash_hash (U := ascii) (lit "a") 64 = Ret h
       /\ simhash_similarity (U := ascii) 65 [] (lit "a") = Ret s
       /\ (s == 1 - inject_Z (popcount h) / 64)%Q
       /\ (popcount h < 64 -> (0 < s)%Q)
       /\ compute_simple_similarity (U := ascii) [] (lit "a") = Ret 0%Q.
Proof.
  split; [discriminate |]. split; [lia |].
  apply (simhash_of_empty_against_text (U := ascii) 65 (lit "a")); [discriminate | lia].
Defined.


(** C7 fails as stated: the vault has two notes with text, the first of two
    draws meets the empty note, and the run ends with one pair, not two. *)
Lemma skipped_pair_is_not_redrawn :
  read_file_content (U := ascii) (C := example_vault) (lit "a.md") <> []
  /\ read_file_content (U := ascii) (C := example_vault) (lit "b.md") <> []
  /\ exists res,
       analyze_test_corpus (U := ascii) (C := example_vault) 65 2 = Ret (Some res)
       /\ len (res_all_pairs res) = 1
       /\ len (res_all_pairs res) <> 2.
Proof.
  split; [vm_compute; discriminate |]. split; [vm_compute; discriminate |].
  eexists. split; [vm_compute; reflexivity |]. split; [reflexivity | discriminate].
Qed.

Lemma skipped_pairs_use_up_draws_run :
  (64 < 65)%nat /\ 2 <= len (all_files (corpus := example_vault))
  /\ exists res,
       analyze_test_corpus (U := ascii) (C := example_vault) 65 2 = Ret (Some res)
       /\ len (res_all_pairs res)
          + len (List.filter (fun i => negb (has_content (U := ascii) (C := example_vault) i))
                   (range 2))
          = Z.max 0 2
       /\ len (res_same_category res) + len (res_different_category res)
          = len (res_all_pairs res).
Proof.
  split; [lia |]. split; [vm_compute; discriminate |].
  apply (skipped_pairs_use_up_draws (U := ascii) (C := example_vault) 65 2);
    [lia | vm_compute; discriminate | apply example_draws].
Defined.

(** C8: a view of one sample.  The mean and the median are computed and
    [statistics.stdev] raises [StatisticsError]; the run of two draws over
    the vault accumulates one pair, and the report on it ends with that
    exception. *)
Theorem stdev_of_one_sample_raises (fsqrt : Q -> float) :
  (forall x : float, view_statistics fsqrt [x] = Raise StatisticsError)
  /\ exists res,
       analyze_test_corpus (U := ascii) (C := example_vault) 65 2 = Ret (Some res)
       /\ len (res_all_pairs res) = 1
       /\ print_statistics fsqrt res = Raise StatisticsError.
Proof.
  split; [intros x; reflexivity |].
  eexists. split; [vm_compute; reflexivity |]. split; [reflexivity |].
  vm_compute. reflexivity.
Qed.

(** * Further properties

    Properties of the code beyond the claims of the spec, read off the
    source. *)

(** ** The comparison functions *)

Lemma popcount_zero x : 0 <= x -> popcount x = 0 -> x = 0.
Proof.
  intros Hx Hpc. destruct x as [| p | p]; [reflexivity | | lia].
  exfalso. cbn in Hpc.
  assert (Hpos : forall q, 0 < pos_popcount q).
  { induction q; cbn [pos_popcount]; lia. }
  specialize (Hpos p). lia.
Qed.

Lemma spec_counter_shift tokens i :
  0 <= i -> spec_counter tokens (i + 32) = spec_counter tokens i.
Proof.
  intros Hi. induction tokens as [| t tokens IH]; [reflexivity |].
  cbn [spec_counter]. rewrite IH. unfold spec_bit.
  replace ((i + 32) mod 32) with (i mod 32); [reflexivity |].
  rewrite <- (Z.mul_1_l 32) at 2. now rewrite Z.mod_add by lia.
Qed.

Lemma spec_counter_perm tokens1 tokens2 i :
  tokens1 ≡ₚ tokens2 -> spec_counter tokens1 i = spec_counter tokens2 i.
Proof.
  induction 1 as [| t l1 l2 _ IH | t u l | l1 l2 l3 _ IH1 _ IH2];
    cbn [spec_counter]; lia.
Qed.

Lemma hash_step_bound h c : 0 <= hash_step h c < 2 ^ 32.
Proof. unfold hash_step. apply Z.mod_pos_bound. reflexivity. Qed.

Lemma hash_string_bound s : 0 <= hash_string s < 2 ^ 32.
Proof.
  unfold hash_string.
  assert (Hgen : forall h, 0 <= h < 2 ^ 32 -> 0 <= fold_left hash_step s h < 2 ^ 32).
  { induction s as [| c s IH]; intros h Hh; [exact Hh |].
    cbn [fold_left]. apply IH, hash_step_bound. }
  apply Hgen. split; [lia | reflexivity].
Qed.

(** Two numbers below [2 ^ n] with the same bits below [n] are equal. *)
Lemma bits_below_inj (n a b : Z) :
  0 <= a < 2 ^ n -> 0 <= b < 2 ^ n ->
  (forall i, 0 <= i < n -> Z.testbit a i = Z.testbit b i) -> a = b.
Proof.
  intros Ha Hb Hbits. apply Z.bits_inj'. intros i Hi.
  destruct (Z.lt_ge_cases i n) as [Hlt | Hge]; [apply Hbits; lia |].
  now rewrite (testbit_above a n), (testbit_above b n).
Qed.

Lemma word_set_inter_comm (X Y : gset str) : X ∩ Y = Y ∩ X.
Proof. apply (comm_L _). Qed.

Lemma word_set_union_comm (X Y : gset str) : X ∪ Y = Y ∪ X.
Proof. apply (comm_L _). Qed.

Section ComparisonProperties.

Context `{U : unicode}.

(** X1.  Both similarities are symmetric: exchanging the two texts changes
    neither the SimHash similarity (for any fuel) nor the Jaccard
    similarity. *)
Theorem similarities_are_symmetric (fuel : nat) (text1 text2 : str) :
  simhash_similarity fuel text1 text2 = simhash_similarity fuel text2 text1
  /\ compute_simple_similarity text1 text2 = compute_simple_similarity text2 text1.
Proof.
  split.
  - unfold simhash_similarity.
    destruct (simhash_hash_total text1 64) as (h1 & H1 & _).
    destruct (simhash_hash_total text2 64) as (h2 & H2 & _).
    change (Z.of_nat 64) with 64 in H1, H2.
    rewrite H1, H2, !bind_Ret. unfold hamming_distance.
    now rewrite Z.lxor_comm.
  - unfold compute_simple_similarity.
    rewrite (orb_comm (is_empty text1)).
    destruct (is_empty text2 || is_empty text1); [reflexivity |].
    rewrite (orb_comm (bool_decide (word_set text1 = ∅))).
    destruct (bool_decide (word_set text2 = ∅) || bool_decide (word_set text1 = ∅));
      [reflexivity |].
    cbn zeta.
    now rewrite (word_set_inter_comm (word_set text1)),
      (word_set_union_comm (word_set text1)).
Qed.

(** X2.  On two non-negative numbers below [2 ^ n], and with fuel for
    [n] bits, [hamming_distance] returns 0 exactly when the two numbers are
    equal. *)
Theorem hamming_distance_zero_iff_equal (n fuel : nat) (hash1 hash2 : Z) :
  0 <= hash1 < 2 ^ Z.of_nat n -> 0 <= hash2 < 2 ^ Z.of_nat n -> (n < fuel)%nat ->
  hamming_distance fuel hash1 hash2 = Ret 0 <-> hash1 = hash2.
Proof.
  intros H1 H2 Hfuel.
  destruct (hamming_distance_popcount n fuel hash1 hash2 H1 H2 Hfuel) as [Hd _].
  rewrite Hd. split.
  - intros Hz. injection Hz as Hz. apply Z.lxor_eq.
    apply popcount_zero; [apply Z.lxor_nonneg; lia | exact Hz].
  - intros ->. now rewrite Z.lxor_nilpotent.
Qed.

(** X3.  The SimHash similarity of two texts is 1 exactly when their
    64-bit fingerprints are the same. *)
Theorem similarity_one_iff_same_fingerprint (fuel : nat) (text1 text2 : str) :
  (64 < fuel)%nat ->
  simhash_similarity fuel text1 text2 = Ret 1%Q
  <-> simhash_hash text1 64 = simhash_hash text2 64.
Proof.
  intros Hfuel.
  destruct (simhash_hash_total text1 64) as (h1 & H1 & Hb1).
  destruct (simhash_hash_total text2 64) as (h2 & H2 & Hb2).
  change (Z.of_nat 64) with 64 in H1, H2, Hb1, Hb2.
  destruct (simhash_similarity_popcount fuel text1 text2 h1 h2 H1 H2 Hb1 Hb2 Hfuel)
    as [Hs Hpc].
  rewrite Hs, H1, H2. split.
  - intros Hone. injection Hone as Hone. f_equal. apply Z.lxor_eq.
    apply popcount_zero; [apply Z.lxor_nonneg; lia |].
    set (pc := popcount (Z.lxor h1 h2)) in *.
    pose proof (fl_correct (1 - fl (inject_Z pc / 64))) as Ha.
    pose proof (fl_correct (inject_Z pc / 64)) as Hb.
    rewrite Hone in Ha.
    assert (Hq : (inject_Z pc / 64 == 0)%Q) by lra.
    unfold Qeq, Qdiv, Qmult, Qinv in Hq. cbn in Hq. lia.
  - intros Heq. injection Heq as ->. now rewrite Z.lxor_nilpotent.
Qed.

(** X4.  When one hash is negative and the other is not, the loop of
    [hamming_distance] never ends, whatever fuel it is given and in
    whichever order the two are passed: the XOR is negative and shifting it
    right never reaches 0. *)
Theorem hamming_distance_of_opposite_signs_loops (fuel : nat) (hash1 hash2 : Z) :
  0 <= hash1 -> hash2 < 0 ->
  hamming_distance fuel hash1 hash2 = OutOfFuel
  /\ hamming_distance fuel hash2 hash1 = OutOfFuel.
Proof.
  intros H1 H2.
  assert (Hneg : Z.lxor hash1 hash2 < 0).
  { destruct (Z.lt_ge_cases (Z.lxor hash1 hash2) 0) as [Hlt | Hge]; [exact Hlt |].
    apply Z.lxor_nonneg in Hge. lia. }
  unfold hamming_distance. split; [| rewrite Z.lxor_comm];
    apply hamming_loop_negative, Hneg.
Qed.

Lemma fingerprint_halves (text : str) :
  exists fp32,
    simhash_hash text 32 = Ret fp32
    /\ 0 <= fp32 < 2 ^ 32
    /\ simhash_hash text 64 = Ret (Z.lor fp32 (Z.shiftl fp32 32)).
Proof.
  destruct text as [| c text].
  - exists 0. split; [reflexivity |]. split; [lia | reflexivity].
  - destruct (simhash_hash_counters (c :: text) 32) as (fp32 & H32 & Hb32 & Hbits32);
      [discriminate |].
    destruct (simhash_hash_counters (c :: text) 64) as (fp64 & H64 & Hb64 & Hbits64);
      [discriminate |].
    change (Z.of_nat 32) with 32 in *. change (Z.of_nat 64) with 64 in *.
    exists fp32. split; [exact H32 |]. split; [exact Hb32 |].
    rewrite H64. f_equal.
    assert (Hlor : forall i, 0 <= i ->
               Z.testbit (Z.lor fp32 (Z.shiftl fp32 32)) i
               = Z.testbit fp32 i || Z.testbit fp32 (i - 32)).
    { intros i Hi. now rewrite Z.lor_spec, Z.shiftl_spec by lia. }
    apply (bits_below_inj 64); [exact Hb64 | |].
    + assert (Hpos : 0 <= Z.lor fp32 (Z.shiftl fp32 32)).
      { apply Z.lor_nonneg. split; [lia |]. apply Z.shiftl_nonneg. lia. }
      split; [exact Hpos |]. apply bits_above_bound; [exact Hpos | lia |].
      intros i Hi. rewrite Hlor by lia.
      rewrite (testbit_above fp32 32), (testbit_above fp32 32 (i - 32)); auto; lia.
    + intros i Hi. rewrite Hlor, Hbits64 by lia.
      destruct (Z.lt_ge_cases i 32) as [Hlt | Hge].
      * rewrite Hbits32, (Z.testbit_neg_r fp32 (i - 32)) by lia.
        now rewrite orb_false_r.
      * rewrite (testbit_above fp32 32 i), Hbits32 by (auto; lia).
        cbn [orb]. rewrite <- (spec_counter_shift _ (i - 32)) by lia.
        now replace (i - 32 + 32) with i by lia.
Qed.

(** X5.  The upper half of a 64-bit fingerprint repeats its lower half:
    the fingerprint at width 64 is the fingerprint at width 32 placed in
    both halves, because bit [i] of a word votes through bit [i mod 32] of
    its hash. *)
Theorem upper_half_repeats_lower_half (text : str) :
  exists fp32,
    simhash_hash text 32 = Ret fp32
    /\ 0 <= fp32 < 2 ^ 32
    /\ simhash_hash text 64 = Ret (Z.lor fp32 (Z.shiftl fp32 32)).
Proof.
  exact (fingerprint_halves text).
Qed.

(** X6.  The fingerprint does not depend on the order of the words: two
    non-empty texts whose token sequences are permutations of each other
    have the same fingerprint, at any width. *)
Theorem fingerprint_ignores_word_order (bits : nat) (text1 text2 : str) :
  text1 <> [] -> text2 <> [] ->
  findall (lower text1) ≡ₚ findall (lower text2) ->
  simhash_hash text1 (Z.of_nat bits) = simhash_hash text2 (Z.of_nat bits).
Proof.
  intros Hne1 Hne2 Hperm.
  destruct (simhash_hash_counters text1 bits Hne1) as (fp1 & H1 & Hb1 & Hbits1).
  destruct (simhash_hash_counters text2 bits Hne2) as (fp2 & H2 & Hb2 & Hbits2).
  rewrite H1, H2. f_equal.
  apply (bits_below_inj (Z.of_nat bits)); [exact Hb1 | exact Hb2 |].
  intros i Hi. rewrite Hbits1, Hbits2 by exact Hi.
  now rewrite (spec_counter_perm _ _ i Hperm).
Qed.

(** X7.  Two non-empty texts with the same set of distinct words, which
    holds at least one word, have Jaccard similarity 1, whatever the order,
    the repetitions and the punctuation in them. *)
Theorem jaccard_of_same_words_is_one (text1 text2 : str) :
  text1 <> [] -> text2 <> [] ->
  word_set text1 = word_set text2 -> word_set text1 <> ∅ ->
  compute_simple_similarity text1 text2 = Ret 1%Q.
Proof.
  intros Hne1 Hne2 Heq Hwords.
  rewrite <- (jaccard_self text1 Hne1 Hwords).
  unfold compute_simple_similarity.
  destruct text1 as [| c1 text1]; [congruence |].
  destruct text2 as [| c2 text2]; [congruence |].
  cbn [is_empty orb]. now rewrite <- Heq.
Qed.

(** X8.  The Jaccard similarity is 0 exactly when a text is empty or the
    two texts share no word. *)
Theorem jaccard_zero_iff_no_shared_word (text1 text2 : str) :
  compute_simple_similarity text1 text2 = Ret 0%Q
  <-> text1 = [] \/ text2 = [] \/ word_set text1 ∩ word_set text2 = ∅.
Proof.
  split.
  - intros Hzero.
    destruct text1 as [| c1 text1]; [now left |].
    destruct text2 as [| c2 text2]; [now right; left |].
    right. right.
    destruct (decide (word_set (c1 :: text1) ∩ word_set (c2 :: text2) = ∅))
      as [Hd | Hshared]; [exact Hd | exfalso].
    assert (Hi : (0 < size (word_set (c1 :: text1) ∩ word_set (c2 :: text2)))%nat).
    { destruct (size _) eqn:Hz; [| lia].
      apply size_empty_inv, leibniz_equiv in Hz. contradiction. }
    assert (Hu : (size (word_set (c1 :: text1) ∩ word_set (c2 :: text2))
                  <= size (word_set (c1 :: text1) ∪ word_set (c2 :: text2)))%nat).
    { apply subseteq_size. intros w Hw.
      apply elem_of_intersection in Hw. apply elem_of_union. tauto. }
    assert (Hne1 : word_set (c1 :: text1) <> ∅).
    { intros He. apply Hshared. rewrite He. apply (left_absorb_L _ _). }
    assert (Hne2 : word_set (c2 :: text2) <> ∅).
    { intros He. apply Hshared. rewrite He. apply (right_absorb_L _ _). }
    unfold compute_simple_similarity in Hzero. cbn [is_empty orb] in Hzero.
    rewrite !bool_decide_eq_false_2 in Hzero by assumption.
    cbn [orb] in Hzero. cbn zeta in Hzero.
    destruct (Z.ltb_spec 0
                (Z.of_nat (size (word_set (c1 :: text1) ∪ word_set (c2 :: text2)))));
      [| lia].
    rewrite truediv_nonzero in Hzero by lia. injection Hzero as Hzero.
    pose proof (fl_correct
                  (inject_Z (Z.of_nat (size (word_set (c1 :: text1)
                                             ∩ word_set (c2 :: text2))))
                   / inject_Z (Z.of_nat (size (word_set (c1 :: text1)
                                               ∪ word_set (c2 :: text2)))))) as Hc.
    rewrite Hzero in Hc.
    assert (Hpos : (0 < inject_Z (Z.of_nat (size (word_set (c1 :: text1)
                                                 ∩ word_set (c2 :: text2))))
                        / inject_Z (Z.of_nat (size (word_set (c1 :: text1)
                                                    ∪ word_set (c2 :: text2)))))%Q).
    { apply Qlt_shift_div_l; [unfold Qlt; cbn; lia |].
      rewrite Qmult_0_l. unfold Qlt; cbn; lia. }
    rewrite <- Hc in Hpos. now apply Qlt_irrefl in Hpos.
  - intros [-> | [-> | Hd]]; [apply jaccard_empty; auto .. |].
    destruct (decide (word_set text1 = ∅)) as [He | Hne1];
      [apply jaccard_empty; auto |].
    destruct (decide (word_set text2 = ∅)) as [He | Hne2];
      [apply jaccard_empty; auto |].
    unfold compute_simple_similarity.
    destruct (is_empty text1 || is_empty text2); [reflexivity |].
    rewrite !bool_decide_eq_false_2 by assumption. cbn [orb]. cbn zeta.
    destruct (Z.ltb_spec 0 (Z.of_nat (size (word_set text1 ∪ word_set text2))));
      [| reflexivity].
    rewrite truediv_nonzero by lia. rewrite Hd, size_empty. reflexivity.
Qed.

(** X9.  For a text with a single word the fingerprint is the FNV-1a hash
    of the word: at width 32 the hash itself, at width 64 the hash in both
    halves. *)
Theorem fingerprint_of_one_word (text w : str) :
  text <> [] -> findall (lower text) = [w] ->
  simhash_hash text 32 = Ret (hash_string w)
  /\ simhash_hash text 64
     = Ret (Z.lor (hash_string w) (Z.shiftl (hash_string w) 32)).
Proof.
  intros Hne Hw.
  destruct (fingerprint_halves text) as (fp32 & H32 & Hb32 & H64).
  assert (Heq : fp32 = hash_string w).
  { destruct (simhash_hash_counters text 32 Hne) as (fp & Hfp & _ & Hbits).
    change (Z.of_nat 32) with 32 in *. rewrite H32 in Hfp. injection Hfp as <-.
    apply (bits_below_inj 32); [exact Hb32 | apply hash_string_bound |].
    intros i Hi. rewrite Hbits, Hw by exact Hi. cbn [spec_counter].
    rewrite <- hash_string_fold. fold (hash_string w). unfold spec_bit.
    rewrite Z.mod_small by lia.
    rewrite Z.testbit_eqb, Z.shiftr_div_pow2 by lia.
    assert (Hland : Z.land (hash_string w / 2 ^ i) 1 = (hash_string w / 2 ^ i) mod 2)
      by (apply (Z.land_ones _ 1); lia).
    rewrite Hland. change (2 ^ 1) with 2.
    destruct (Z.eqb_spec ((hash_string w / 2 ^ i) mod 2) 1); reflexivity. }
  subst fp32. auto.
Qed.

End ComparisonProperties.

(** ** Reading a note *)

Lemma split_on_cons (sep : char) (s : str) :
  exists line lines, split_on sep s = line :: lines.
Proof.
  destruct s as [| c s]; [now exists [], [] |].
  cbn [split_on]. destruct (c =? sep)%N; [eauto |].
  destruct (split_on sep s); eauto.
Qed.

Lemma join_split_newline (s : str) :
  join (lit " ") (split_on 10%N s)
  = map (fun c => if (c =? 10)%N then 32%N else c) s.
Proof.
  induction s as [| c s IH]; [reflexivity |].
  cbn [split_on map].
  destruct (split_on_cons 10%N s) as (line & lines & Hs). rewrite Hs in *.
  destruct (c =? 10)%N.
  - change (join (lit " ") ([] :: line :: lines))
      with ([] ++ lit " " ++ join (lit " ") (line :: lines)).
    rewrite IH. reflexivity.
  - rewrite <- IH. destruct lines; reflexivity.
Qed.

Lemma filter_keeps_all {A : Type} (f : A -> bool) (l : list A) :
  Forall (fun x => f x = true) l -> List.filter f l = l.
Proof.
  induction 1 as [| x l Hx _ IH]; [reflexivity |].
  cbn [List.filter]. now rewrite Hx, IH.
Qed.

Lemma filter_drops_all {A : Type} (f : A -> bool) (l : list A) :
  Forall (fun x => f x = false) l -> List.filter f l = [].
Proof.
  induction 1 as [| x l Hx _ IH]; [reflexivity |].
  cbn [List.filter]. now rewrite Hx, IH.
Qed.

Lemma clean_line_filter (line : str) :
  negb (startswith line (lit "#")) && negb (startswith line (lit "From:"))
  && negb (startswith line (lit "Category:"))
  && negb (startswith line (lit "Generated:"))
  = negb (dropped_line line).
Proof.
  unfold dropped_line. now rewrite !negb_orb.
Qed.

Section ReadingFacts.

Context `{U : unicode} `{C : corpus}.

Lemma lstrip_head s c : head (lstrip s) = Some c -> is_space c = false.
Proof.
  induction s as [| d s IH]; cbn [lstrip]; [discriminate |].
  destruct (is_space d) eqn:Hd; [exact IH |].
  cbn. intros [= <-]. exact Hd.
Qed.

Lemma lstrip_suffix s : exists pre, s = pre ++ lstrip s.
Proof.
  induction s as [| d s [pre IH]]; [now exists [] |].
  cbn [lstrip]. destruct (is_space d).
  - exists (d :: pre). cbn. now rewrite <- IH.
  - now exists [].
Qed.

Lemma lstrip_last s c : last (lstrip s) = Some c -> last s = Some c.
Proof.
  intros Hc. destruct (lstrip_suffix s) as [pre Hs]. rewrite Hs.
  destruct (lstrip s) as [| d r]; [discriminate |].
  rewrite last_app. now rewrite Hc.
Qed.

Lemma strip_ends s c :
  head (strip s) = Some c \/ last (strip s) = Some c -> is_space c = false.
Proof.
  unfold strip. intros [Hh | Hl].
  - rewrite head_reverse in Hh. apply lstrip_last in Hh.
    rewrite last_reverse in Hh. now apply lstrip_head in Hh.
  - rewrite last_reverse in Hl. now apply lstrip_head in Hl.
Qed.

Lemma lstrip_spaces s : Forall (fun c => is_space c = true) s -> lstrip s = [].
Proof.
  induction 1 as [| c s Hc _ IH]; [reflexivity |]. cbn [lstrip]. now rewrite Hc.
Qed.

Lemma lstrip_nil s : lstrip s = [] -> Forall (fun c => is_space c = true) s.
Proof.
  induction s as [| c s IH]; [constructor |]. cbn [lstrip].
  destruct (is_space c) eqn:Hc; [| discriminate]. intros Hs.
  constructor; [exact Hc | apply IH, Hs].
Qed.

Lemma strip_nil_iff s : strip s = [] <-> Forall (fun c => is_space c = true) s.
Proof.
  unfold strip. split.
  - intros Hs. apply (f_equal reverse) in Hs.
    rewrite reverse_involutive in Hs. cbn in Hs.
    apply lstrip_nil in Hs. rewrite Forall_reverse in Hs.
    destruct (lstrip s) as [| c r] eqn:Hl; [now apply lstrip_nil |].
    exfalso. pose proof (lstrip_head s c) as Hhead. rewrite Hl in Hhead.
    specialize (Hhead eq_refl). apply Forall_cons in Hs. destruct Hs as [Hc _].
    congruence.
  - intros Hs. now rewrite (lstrip_spaces s Hs).
Qed.

(** X10.  The text [read_file_content] returns neither begins nor ends with
    a white space character. *)
Theorem read_file_content_is_stripped (filepath : str) (c : char) :
  head (read_file_content filepath) = Some c
  \/ last (read_file_content filepath) = Some c ->
  is_space c = false.
Proof.
  unfold read_file_content. destruct (file_system filepath) as [content |].
  - apply strip_ends.
  - cbn. intros [H | H]; discriminate.
Qed.

Lemma Forall2_Forall_l {A B : Type} (R : A -> B -> Prop) (P : A -> Prop)
  (l1 : list A) (l2 : list B) :
  (forall a b, b ∈ l2 -> R a b -> P a) -> Forall2 R l1 l2 -> Forall P l1.
Proof.
  intros HR. induction 1 as [| a b l1 l2 Hab _ IH]; [constructor |].
  constructor.
  - apply (HR a b); [apply list_elem_of_here | exact Hab].
  - apply IH. intros a' b' Hb'. apply HR. now apply list_elem_of_further.
Qed.

(** X11.  A note that cannot be read, or all of whose lines are headings
    or metadata lines (starting with [#], [From:], [Category:] or
    [Generated:]), reads as the empty string, and every draw it takes part
    in is skipped: the iteration of the sampling loop leaves the results
    as they are, and no pair in any view of the results of
    [analyze_test_corpus] names the note. *)
Theorem note_of_headings_reads_empty (fuel : nat) (num_samples : Z)
  (filepath : str) :
  file_system filepath = None
  \/ (exists content,
        file_system filepath = Some content
        /\ Forall (fun line => dropped_line line = true) (split_on 10%N content)) ->
  (64 < fuel)%nat -> 2 <= len all_files ->
  (forall i, (random_sample i).1 ∈ all_files /\ (random_sample i).2 ∈ all_files) ->
  read_file_content filepath = []
  /\ (forall (file_info : gmap str str) (res : results) (i : Z),
        is_Some (file_info !! (random_sample (Z.to_nat i)).1) ->
        is_Some (file_info !! (random_sample (Z.to_nat i)).2) ->
        (random_sample (Z.to_nat i)).1 = filepath
        \/ (random_sample (Z.to_nat i)).2 = filepath ->
        sample_pair fuel file_info res i = Ret res)
  /\ exists res,
       analyze_test_corpus fuel num_samples = Ret (Some res)
       /\ Forall (fun pair => file1 pair <> filepath /\ file2 pair <> filepath)
            (res_all_pairs res ++ res_same_category res
             ++ res_different_category res).
Proof.
  intros Hfile Hfuel Hfiles Hdraws.
  assert (Hempty : read_file_content filepath = []).
  { unfold read_file_content.
    destruct Hfile as [-> | (content & -> & Hlines)]; [reflexivity |].
    rewrite filter_drops_all; [reflexivity |].
    eapply Forall_impl; [exact Hlines |]. cbn beta. intros line Hd.
    now rewrite clean_line_filter, Hd. }
  split; [exact Hempty |]. split.
  - intros file_info res i. unfold sample_pair.
    destruct (random_sample (Z.to_nat i)) as [f1 f2]. cbn [fst snd].
    intros [info1 H1] [info2 H2] Hi.
    rewrite (dict_get_Some _ _ _ H1), bind_Ret, (dict_get_Some _ _ _ H2), bind_Ret.
    destruct Hi as [-> | ->]; rewrite Hempty; cbn [is_empty orb];
      [reflexivity | now rewrite orb_true_r].
  - destruct (analyze_test_corpus_records fuel num_samples Hfuel Hfiles Hdraws)
      as (res & Hrun & Hrec & Hsame & Hdiff).
    exists res. split; [exact Hrun |].
    assert (Hall : Forall (fun pair => file1 pair <> filepath /\ file2 pair <> filepath)
                     (res_all_pairs res)).
    { apply (Forall2_Forall_l (records fuel) _ _ _) with (2 := Hrec).
      intros pair i Hi Hpair. apply list_elem_of_In, List.filter_In in Hi as [_ Hi].
      unfold records in Hpair. unfold has_content in Hi.
      destruct (random_sample (Z.to_nat i)) as [f1 f2].
      destruct Hpair as (-> & -> & _).
      apply negb_true_iff, orb_false_iff in Hi as [He1 He2].
      split; intros ->; rewrite Hempty in *; discriminate. }
    rewrite Hsame, Hdiff.
    repeat (apply Forall_app; split); [exact Hall | |]; now apply Forall_filter_list.
Qed.

(** X12.  For a note none of whose lines is a heading or a metadata line,
    the cleaned text is the text of the file with every newline replaced by
    a space, stripped of the white space around it. *)
Theorem plain_note_reads_as_one_line (filepath content : str) :
  file_system filepath = Some content ->
  Forall (fun line => dropped_line line = false) (split_on 10%N content) ->
  read_file_content filepath
  = strip (map (fun c => if (c =? 10)%N then 32%N else c) content).
Proof.
  intros Hfile Hlines. unfold read_file_content. rewrite Hfile.
  rewrite filter_keeps_all; [now rewrite join_split_newline |].
  eapply Forall_impl; [exact Hlines |]. cbn beta. intros line Hd.
  now rewrite clean_line_filter, Hd.
Qed.

End ReadingFacts.

(** ** The sampling loop *)

Section SamplingProperties.

Context `{U : unicode} `{C : corpus}.

(** X13.  The pairs a run accumulates are the draws with content on both
    sides, once each and in the order of the draws; each one holds the two
    drawn files, their categories, the flag for equal categories, and under
    the two method names the values the two similarity functions return on
    the cleaned texts. *)
Theorem sampled_pairs_are_recorded_in_order (fuel : nat) (num_samples : Z) :
  (64 < fuel)%nat -> 2 <= len all_files ->
  (forall i, (random_sample i).1 ∈ all_files /\ (random_sample i).2 ∈ all_files) ->
  exists res,
    analyze_test_corpus fuel num_samples = Ret (Some res)
    /\ Forall2 (records fuel) (res_all_pairs res)
         (List.filter has_content (range num_samples)).
Proof.
  intros Hfuel Hfiles Hdraws.
  destruct (analyze_test_corpus_records fuel num_samples Hfuel Hfiles Hdraws)
    as (res & Hrun & Hrec & _).
  eauto.
Qed.

(** X14.  The same-category view holds exactly the accumulated pairs whose
    two categories are equal and the different-category view the others,
    both in the order of accumulation, and the flag of every pair says
    whether its categories are equal. *)
Theorem views_split_the_pairs_by_category (fuel : nat) (num_samples : Z) :
  (64 < fuel)%nat -> 2 <= len all_files ->
  (forall i, (random_sample i).1 ∈ all_files /\ (random_sample i).2 ∈ all_files) ->
  exists res,
    analyze_test_corpus fuel num_samples = Ret (Some res)
    /\ res_same_category res
       = List.filter (fun pair => bool_decide (category1 pair = category2 pair))
           (res_all_pairs res)
    /\ res_different_category res
       = List.filter (fun pair => negb (bool_decide (category1 pair = category2 pair)))
           (res_all_pairs res)
    /\ Forall (fun pair =>
                 same_category pair
                 = bool_decide (category1 pair = category2 pair))
              (res_all_pairs res).
Proof.
  intros Hfuel Hfiles Hdraws.
  destruct (analyze_test_corpus_records fuel num_samples Hfuel Hfiles Hdraws)
    as (res & Hrun & Hrec & Hsame & Hdiff).
  exists res. split; [exact Hrun |].
  assert (Hflag : Forall (fun pair =>
                            same_category pair
                            = bool_decide (category1 pair = category2 pair))
                         (res_all_pairs res)).
  { clear Hsame Hdiff Hrun. induction Hrec as [| pair i pairs indices Hr _ IH];
      constructor; [| exact IH].
    unfold records in Hr. destruct (random_sample (Z.to_nat i)) as [f1 f2].
    destruct Hr as (_ & _ & -> & -> & -> & _). reflexivity. }
  split; [| split; [| exact Hflag]].
  - rewrite Hsame. apply filter_ext_in. intros pair Hin.
    rewrite Forall_forall in Hflag. apply Hflag, list_elem_of_In, Hin.
  - rewrite Hdiff. apply filter_ext_in. intros pair Hin.
    rewrite Forall_forall in Hflag. f_equal. apply Hflag, list_elem_of_In, Hin.
Qed.

End SamplingProperties.

(** ** The report *)

Section ReportProperties.

Variable fsqrt : Q -> float.

(** X15.  When the pairs hold a value in the unit interval for both
    methods, there are at least two of them and neither category view holds
    exactly one pair, [print_statistics] raises nothing: it reports on the
    two methods in the order word_jaccard, simhash, the bucket counts of
    each add up to the number of pairs, and the statistics of a category
    view are left out exactly when the view is empty. *)
Theorem print_statistics_reports (res : results) :
  Forall scored (res_all_pairs res) ->
  Forall scored (res_same_category res) ->
  Forall scored (res_different_category res) ->
  2 <= len (res_all_pairs res) ->
  len (res_same_category res) <> 1 ->
  len (res_different_category res) <> 1 ->
  exists jaccard simhash,
    print_statistics fsqrt res = Ret [jaccard; simhash]
    /\ total (map fst (rows jaccard)) = len (res_all_pairs res)
    /\ total (map fst (rows simhash)) = len (res_all_pairs res)
    /\ (same_view jaccard = None <-> res_same_category res = [])
    /\ (different_view jaccard = None <-> res_different_category res = [])
    /\ (same_view simhash = None <-> res_same_category res = [])
    /\ (different_view simhash = None <-> res_different_category res = []).
Proof.
  intros Hall Hsame Hdiff Hn Hns Hnd. unfold print_statistics. cbn zeta.
  destruct (method_statistics_returns fsqrt res (lit "word_jaccard"))
    as (r1 & Hr1 & _ & Ht1 & Hs1 & Hd1 & _); auto.
  destruct (method_statistics_returns fsqrt res (lit "simhash"))
    as (r2 & Hr2 & _ & Ht2 & Hs2 & Hd2 & _); auto.
  exists r1, r2. cbn [comprehension]. rewrite Hr1, bind_Ret, Hr2, !bind_Ret.
  auto 10.
Qed.

(** X16.  When there are fewer than two pairs, or a category view holds
    exactly one pair, [print_statistics] raises [StatisticsError]. *)
Theorem print_statistics_raises (res : results) :
  Forall scored (res_all_pairs res) ->
  Forall scored (res_same_category res) ->
  Forall scored (res_different_category res) ->
  len (res_all_pairs res) < 2
  \/ len (res_same_category res) = 1
  \/ len (res_different_category res) = 1 ->
  print_statistics fsqrt res = Raise StatisticsError.
Proof.
  intros Hall Hsame Hdiff Hbad. unfold print_statistics. cbn zeta.
  cbn [comprehension].
  rewrite (method_statistics_raises fsqrt res (lit "word_jaccard")); auto.
Qed.

End ReportProperties.

(** ** Buckets *)

Lemma bins_bounds (k : nat) :
  (k <= 10)%nat -> exists q, bins !! k = Some q /\ (0 <= q <= 1)%Q.
Proof.
  intros Hk.
  do 11 (destruct k as [| k];
         [eexists; split; [reflexivity |];
          split; apply Qle_bool_iff; vm_compute; reflexivity |]).
  lia.
Qed.

(** The edges are in ascending order: those before bucket [k] are not
    above its lower edge, the others not below its upper edge. *)
Lemma bins_ascending (k : nat) :
  (k <= 9)%nat ->
  exists lo hi,
    bins !! k = Some lo /\ bins !! S k = Some hi
    /\ Forall (fun edge => edge <= lo)%Q (take k (take 9 (drop 1 bins)))
    /\ Forall (fun edge => hi <= edge)%Q (drop k (take 9 (drop 1 bins))).
Proof.
  intros Hk.
  do 10 (destruct k as [| k];
         [eexists _, _; split; [reflexivity |]; split; [reflexivity |];
          split; repeat constructor; apply Qle_bool_iff; vm_compute; reflexivity |]).
  lia.
Qed.

Lemma filter_all {A : Type} (f : A -> bool) (l : list A) :
  Forall (fun x => f x = true) l -> List.filter f l = l.
Proof.
  induction 1 as [| x l Hx _ IH]; [reflexivity |]. cbn [List.filter].
  now rewrite Hx, IH.
Qed.

Lemma filter_none {A : Type} (f : A -> bool) (l : list A) :
  Forall (fun x => f x = false) l -> List.filter f l = [].
Proof.
  induction 1 as [| x l Hx _ IH]; [reflexivity |]. cbn [List.filter].
  now rewrite Hx, IH.
Qed.

Lemma bucket_between (sim : float) (k : nat) (lo hi : float) :
  (k <= 9)%nat -> bins !! k = Some lo -> bins !! S k = Some hi ->
  (lo <= sim)%Q -> (sim < hi)%Q -> bucket_of sim = k.
Proof.
  intros Hk Hlo Hhi Hle Hlt.
  destruct (bins_ascending k Hk) as (lo' & hi' & Hlo' & Hhi' & Hbelow & Habove).
  pose proof (eq_trans (eq_sym Hlo') Hlo) as Elo. injection Elo as ->.
  pose proof (eq_trans (eq_sym Hhi') Hhi) as Ehi. injection Ehi as ->.
  unfold bucket_of.
  rewrite <- (take_drop k (take 9 (drop 1 bins))), List.filter_app, length_app.
  rewrite filter_all, filter_none.
  - cbn [length]. rewrite length_take. cbn. lia.
  - eapply Forall_impl; [exact Habove |]. intros edge He. cbn beta in He.
    unfold fle. destruct (Qle_bool edge sim) eqn:Hcmp; [| reflexivity].
    apply Qle_bool_iff in Hcmp. lra.
  - eapply Forall_impl; [exact Hbelow |]. intros edge He. cbn beta in He.
    apply Qle_bool_iff. lra.
Qed.

Lemma bucket_of_one (sim : float) : (sim == 1)%Q -> bucket_of sim = 9%nat.
Proof.
  intros Heq. unfold bucket_of. rewrite filter_all; [reflexivity |].
  repeat constructor; apply Qle_bool_iff; rewrite Heq;
    apply Qle_bool_iff; vm_compute; reflexivity.
Qed.

Lemma count_out_of_range (sim : float) (m : nat) : forall (k : nat) hist,
  (k + m = 10)%nat -> (sim < 0 \/ 1 < sim)%Q ->
  count_in_bucket sim (map Z.of_nat (seq k m)) hist = Ret hist.
Proof.
  induction m as [| m IH]; intros k hist Hkm Hout.
  - cbn [seq map count_in_bucket].
    assert (Hne : feq sim 1%Q = false).
    { destruct (feq sim 1%Q) eqn:He; [| reflexivity].
      apply Qeq_bool_iff in He. lra. }
    now rewrite Hne.
  - cbn [seq map count_in_bucket].
    destruct (bins_bounds k) as (lo & Hlo & Hlov); [lia |].
    destruct (bins_bounds (S k)) as (hi & Hhi & Hhiv); [lia |].
    rewrite (getitem_in_range bins (Z.of_nat k) lo), bind_Ret;
      [| lia | now rewrite Nat2Z.id].
    destruct (fle lo sim) eqn:Hfle; [| apply IH; [lia | exact Hout]].
    apply Qle_bool_iff in Hfle.
    rewrite (getitem_in_range bins (Z.of_nat k + 1) hi), bind_Ret;
      [| lia | now replace (Z.to_nat (Z.of_nat k + 1)) with (S k) by lia].
    unfold flt. destruct (Qle_bool hi sim) eqn:Hcmp; cbn [negb];
      [apply IH; [lia | exact Hout] |].
    exfalso.
    assert (Hlt : (sim < hi)%Q).
    { apply Qnot_le_lt. intros Hle. apply Qle_bool_iff in Hle. congruence. }
    lra.
Qed.

(** X18.  A value of the unit interval is counted once, in the bucket
    whose edges enclose it: the lower edge is not above the value and the
    value is below the upper edge, the last bucket taking the value 1 as
    well.  The edges are the binary64 values of the literals, so that the
    float [0.3], which lies below three tenths, is counted in bucket 3. *)
Theorem value_is_counted_in_its_bucket (sim : float) (hist : list Z) :
  (0 <= sim <= 1)%Q -> length hist = 10%nat ->
  exists x lo hi,
    hist !! bucket_of sim = Some x
    /\ count_in_bucket sim (range (len bins - 1)) hist
       = Ret (<[bucket_of sim := x + 1]> hist)
    /\ bins !! bucket_of sim = Some lo /\ bins !! S (bucket_of sim) = Some hi
    /\ (lo <= sim)%Q
    /\ ((sim < hi)%Q \/ (bucket_of sim = 9%nat /\ sim == 1)%Q).
Proof.
  intros [Hlo Hhi] Hlen.
  change (range (len bins - 1)) with (map Z.of_nat (seq 0 10)).
  assert (Hgen : forall (m k : nat) (edge : float),
    (k + m = 10)%nat -> bins !! k = Some edge -> (edge <= sim)%Q ->
    exists x lo hi,
      hist !! bucket_of sim = Some x
      /\ count_in_bucket sim (map Z.of_nat (seq k m)) hist
         = Ret (<[bucket_of sim := x + 1]> hist)
      /\ bins !! bucket_of sim = Some lo /\ bins !! S (bucket_of sim) = Some hi
      /\ (lo <= sim)%Q
      /\ ((sim < hi)%Q \/ (bucket_of sim = 9%nat /\ sim == 1)%Q)).
  { induction m as [| m IH]; intros k edge Hkm Hedge Hk.
    - assert (k = 10%nat) by lia. subst k.
      injection Hedge as <-.
      assert (Heq : (sim == 1)%Q) by (apply Qle_antisym; assumption).
      pose proof (bucket_of_one sim Heq) as Hb.
      destruct (lookup_lt_is_Some_2 hist 9) as [x Hx]; [lia |].
      destruct (bins_bounds 9) as (lo & Hlo9 & Hlov); [lia |].
      exists x, lo, 1%Q. rewrite Hb. split; [exact Hx |]. split.
      { cbn [seq map count_in_bucket].
        apply Qeq_bool_iff in Heq. unfold feq. rewrite Heq.
        unfold getitem, setitem. rewrite Hlen, subscript_last, !bind_Ret, Hx.
        reflexivity. }
      split; [exact Hlo9 |]. split; [reflexivity |].
      split; [rewrite Heq; apply Hlov | right; split; [reflexivity | exact Heq]].
    - cbn [seq map count_in_bucket].
      destruct (bins_bounds (S k)) as (hi & Hhi' & _); [lia |].
      rewrite (getitem_in_range bins (Z.of_nat k) edge), bind_Ret;
        [| lia | now rewrite Nat2Z.id].
      assert (Hfle : fle edge sim = true) by (apply Qle_bool_iff; exact Hk).
      rewrite Hfle.
      rewrite (getitem_in_range bins (Z.of_nat k + 1) hi), bind_Ret;
        [| lia | now replace (Z.to_nat (Z.of_nat k + 1)) with (S k) by lia].
      unfold flt. destruct (Qle_bool hi sim) eqn:Hcmp; cbn [negb].
      + apply (IH (S k) hi); [lia | exact Hhi' |]. now apply Qle_bool_iff.
      + assert (Hlt : (sim < hi)%Q).
        { apply Qnot_le_lt. intros Hle. apply Qle_bool_iff in Hle. congruence. }
        assert (Hb : bucket_of sim = k)
          by (apply (bucket_between sim k edge hi); [lia | assumption ..]).
        destruct (lookup_lt_is_Some_2 hist k) as [x Hx]; [lia |].
        exists x, edge, hi. rewrite Hb. split; [exact Hx |]. split.
        { rewrite (getitem_in_range hist (Z.of_nat k) x), bind_Ret;
            [| lia | now rewrite Nat2Z.id].
          rewrite setitem_in_range, Nat2Z.id by (unfold len; lia). reflexivity. }
        auto. }
  apply (Hgen 10%nat 0%nat 0%Q); [reflexivity | reflexivity | exact Hlo].
Qed.

(** X17.  For any list of values the histogram is computed without error,
    has ten buckets, and counts exactly the values of the unit interval: a
    value below 0 or above 1 is counted in no bucket. *)
Theorem histogram_counts_unit_interval_only (all_sims : list float) :
  exists hist,
    histogram all_sims = Ret hist
    /\ length hist = 10%nat
    /\ total hist = len (List.filter in_unit_interval all_sims).
Proof.
  unfold histogram. change (len bins - 1) with 10.
  assert (Hgen : forall hist0, length hist0 = 10%nat ->
    exists hist,
      for_each (fun hist sim => count_in_bucket sim (range 10) hist) all_sims hist0
      = Ret hist
      /\ length hist = 10%nat
      /\ total hist = total hist0 + len (List.filter in_unit_interval all_sims)).
  { induction all_sims as [| sim sims IH]; intros hist0 Hlen.
    - exists hist0. split; [reflexivity |]. split; [exact Hlen |].
      unfold len; cbn; lia.
    - cbn [for_each List.filter]. unfold in_unit_interval at 1, fle.
      destruct (Qle_bool 0 sim) eqn:H0; [destruct (Qle_bool sim 1) eqn:H1 |];
        cbn [andb].
      + apply Qle_bool_iff in H0, H1.
        destruct (count_in_bucket_once sim 10 0 0%Q hist0)
          as (hist1 & Hrun & Hl1 & Ht1); try reflexivity; try assumption.
        destruct (IH hist1 Hl1) as (hist & Hrun' & Hl & Ht).
        exists hist.
        change (range 10) with (map Z.of_nat (seq 0 10)).
        rewrite Hrun, bind_Ret.
        change (map Z.of_nat (seq 0 10)) with (range 10).
        split; [exact Hrun' |]. split; [exact Hl |].
        rewrite Ht, Ht1. unfold len. cbn [length]. lia.
      + destruct (IH hist0 Hlen) as (hist & Hrun' & Hl & Ht).
        exists hist.
        change (range 10) with (map Z.of_nat (seq 0 10)).
        rewrite count_out_of_range, bind_Ret;
          [change (map Z.of_nat (seq 0 10)) with (range 10); auto | reflexivity |].
        right. apply Qnot_le_lt. intros Hle. apply Qle_bool_iff in Hle. congruence.
      + destruct (IH hist0 Hlen) as (hist & Hrun' & Hl & Ht).
        exists hist.
        change (range 10) with (map Z.of_nat (seq 0 10)).
        rewrite count_out_of_range, bind_Ret;
          [change (map Z.of_nat (seq 0 10)) with (range 10); auto | reflexivity |].
        left. apply Qnot_le_lt. intros Hle. apply Qle_bool_iff in Hle. congruence. }
  destruct (Hgen (list_mul 0 10)) as (hist & Hrun & Hl & Ht); [reflexivity |].
  exists hist. split; [exact Hrun |]. split; [exact Hl |].
  rewrite Ht. unfold list_mul. rewrite total_replicate. lia.
Qed.

(** ** Matching file names *)

Lemma startswith_app (l s : str) : startswith (l ++ s) l = true.
Proof.
  induction l as [| c l IH]; [now destruct s |].
  cbn [app startswith]. now rewrite N.eqb_refl, IH.
Qed.

Lemma startswith_prefix (s l : str) :
  startswith s l = true -> s = l ++ drop (length l) s.
Proof.
  revert s; induction l as [| p l IH]; intros s Hs; [reflexivity |].
  destruct s as [| c s]; [discriminate |]. cbn [startswith] in Hs.
  apply andb_prop in Hs. destruct Hs as [Hc Hs]. apply N.eqb_eq in Hc. subst.
  cbn [length drop app]. f_equal. apply IH, Hs.
Qed.

Lemma literal_app {A : Type} (l s : str) (k : str -> option A) :
  literal l k (l ++ s) = k s.
Proof. unfold literal. now rewrite startswith_app, drop_app_length. Qed.

Lemma literal_inv {A : Type} (l s : str) (k : str -> option A) (r : A) :
  literal l k s = Some r -> exists rest, s = l ++ rest /\ k rest = Some r.
Proof.
  unfold literal. destruct (startswith s l) eqn:Hs; [| discriminate].
  intros Hk. exists (drop (length l) s). split; [now apply startswith_prefix | exact Hk].
Qed.

Lemma class_run_app (cls : char -> bool) (w s : str) :
  Forall (fun c => cls c = true) w ->
  match head s with Some c => cls c = false | None => True end ->
  class_run cls (w ++ s) = length w.
Proof.
  intros Hw Hs. induction Hw as [| c w Hc _ IH].
  - destruct s as [| c s]; [reflexivity |]. cbn in *. now rewrite Hs.
  - cbn [app class_run length]. now rewrite Hc, IH.
Qed.

Lemma class_run_take (cls : char -> bool) (s : str) (m : nat) :
  (m <= class_run cls s)%nat ->
  Forall (fun c => cls c = true) (take m s) /\ length (take m s) = m.
Proof.
  revert m; induction s as [| c s IH]; intros m Hm.
  - cbn in Hm. assert (m = 0%nat) by lia. subst. now split.
  - destruct m as [| m]; [now split |]. cbn [class_run] in Hm.
    destruct (cls c) eqn:Hc; [| lia].
    destruct (IH m) as [Hall Hlen]; [lia |]. cbn [take length].
    split; [now constructor | now rewrite Hlen].
Qed.

(** The greedy choice is kept when the rest of the pattern matches. *)
Lemma one_or_more_greedy {A : Type} (cls : char -> bool)
  (k : str -> str -> option A) (w s : str) (r : A) :
  w <> [] -> Forall (fun c => cls c = true) w ->
  match head s with Some c => cls c = false | None => True end ->
  k w s = Some r ->
  one_or_more cls k (w ++ s) = Some r.
Proof.
  intros Hne Hw Hs Hk. unfold one_or_more. rewrite class_run_app by assumption.
  destruct w as [| c w]; [congruence |]. cbn [length give_back].
  change (S (length w)) with (length (c :: w)).
  now rewrite take_app_length, drop_app_length, Hk.
Qed.

(** What a match of [c+] hands to the rest of the pattern. *)
Lemma one_or_more_inv {A : Type} (cls : char -> bool)
  (k : str -> str -> option A) (s : str) (r : A) :
  one_or_more cls k s = Some r ->
  exists group rest,
    s = group ++ rest /\ group <> []
    /\ Forall (fun c => cls c = true) group /\ k group rest = Some r.
Proof.
  unfold one_or_more.
  assert (Hgen : forall n, (n <= class_run cls s)%nat ->
            give_back k s n = Some r ->
            exists group rest,
              s = group ++ rest /\ group <> []
              /\ Forall (fun c => cls c = true) group /\ k group rest = Some r).
  { induction n as [| n IH]; intros Hn Hr; [discriminate |].
    cbn [give_back] in Hr.
    destruct (k (take (S n) s) (drop (S n) s)) as [r' |] eqn:Hk.
    - injection Hr as ->. exists (take (S n) s), (drop (S n) s).
      destruct (class_run_take cls s (S n) Hn) as [Hall Hlen].
      split; [now rewrite take_drop |]. split; [| now split].
      intros He. rewrite He in Hlen. discriminate.
    - apply IH; [lia | exact Hr]. }
  apply Hgen. lia.
Qed.

Lemma either_inv {A : Type} (a b : str -> option A) (s : str) (r : A) :
  either a b s = Some r -> a s = Some r \/ b s = Some r.
Proof. unfold either. destruct (a s); [intros [= ->]; now left | now right]. Qed.

Section NameFacts.

Context `{U : unicode} `{N : numerals}.

Lemma match_generated_inv (filename number category : str) :
  match_generated filename = Some (number, category) ->
  exists rest,
    filename = lit "generated_note_" ++ number ++ lit "_" ++ category
               ++ lit ".md" ++ rest
    /\ number <> [] /\ Forall (fun c => is_digit c = true) number
    /\ category <> [] /\ Forall (fun c => is_word c = true) category.
Proof.
  unfold match_generated. intros Hm.
  apply literal_inv in Hm. destruct Hm as (s1 & -> & Hm).
  apply one_or_more_inv in Hm. destruct Hm as (g1 & s2 & -> & Hne1 & Hd1 & Hm).
  apply literal_inv in Hm. destruct Hm as (s3 & -> & Hm).
  apply one_or_more_inv in Hm. destruct Hm as (g2 & s4 & -> & Hne2 & Hd2 & Hm).
  apply literal_inv in Hm. destruct Hm as (rest & -> & Hm).
  injection Hm as <- <-. exists rest. rewrite <- ?app_assoc. auto.
Qed.

Lemma match_original_inv (filename number chapter : str) :
  match_original filename = Some (number, chapter) ->
  exists rest,
    filename = lit "note_" ++ number ++ lit "_unknown_book_chapter_" ++ chapter
               ++ lit ".md" ++ rest
    /\ number <> [] /\ Forall (fun c => is_digit c = true) number
    /\ ((chapter <> [] /\ Forall (fun c => is_digit c = true) chapter)
        \/ chapter = lit "xx" \/ chapter = lit "conclusion").
Proof.
  unfold match_original. intros Hm.
  apply literal_inv in Hm. destruct Hm as (s1 & -> & Hm).
  apply one_or_more_inv in Hm. destruct Hm as (g1 & s2 & -> & Hne1 & Hd1 & Hm).
  apply literal_inv in Hm. destruct Hm as (s3 & -> & Hm).
  apply either_inv in Hm. destruct Hm as [Hm | Hm]; [| apply either_inv in Hm;
                                                      destruct Hm as [Hm | Hm]].
  - apply one_or_more_inv in Hm. destruct Hm as (g2 & s4 & -> & Hne2 & Hd2 & Hm).
    apply literal_inv in Hm. destruct Hm as (rest & -> & Hm).
    injection Hm as <- <-. exists rest. rewrite <- ?app_assoc. auto 10.
  - apply literal_inv in Hm. destruct Hm as (s4 & -> & Hm).
    apply literal_inv in Hm. destruct Hm as (rest & -> & Hm).
    injection Hm as <- <-. exists rest. rewrite <- ?app_assoc. auto 10.
  - apply literal_inv in Hm. destruct Hm as (s4 & -> & Hm).
    apply literal_inv in Hm. destruct Hm as (rest & -> & Hm).
    injection Hm as <- <-. exists rest. rewrite <- ?app_assoc. auto 10.
Qed.

(** X19.  For every file name on whose digit strings [int] returns,
    [parse_file_info] returns a dict holding a string under [type] and under
    [category]: the type original with the category literature, or the type
    generated with a non-empty category of word characters taken from a
    name of the form generated_note_<digits>_<category>.md followed by
    anything, or the type and category unknown. *)
Theorem every_name_gets_a_category (filename : str) :
  (forall digits, digits <> [] -> Forall (fun c => is_digit c = true) digits ->
                  (length digits <= length filename)%nat ->
                  exists n, int_of digits = Ret n) ->
  exists info type category,
    parse_file_info filename = Ret info
    /\ info !! lit "type" = Some (Str type)
    /\ info !! lit "category" = Some (Str category)
    /\ ((type = lit "original" /\ category = lit "literature")
        \/ (type = lit "generated" /\ category <> []
            /\ Forall (fun c => is_word c = true) category
            /\ exists number rest,
                 filename = lit "generated_note_" ++ number ++ lit "_"
                            ++ category ++ lit ".md" ++ rest)
        \/ (type = lit "unknown" /\ category = lit "unknown")).
Proof.
  intros Hint.
  assert (Hunknown : exists info type category,
             Ret unknown_info = Ret info
             /\ info !! lit "type" = Some (Str type)
             /\ info !! lit "category" = Some (Str category)
             /\ ((type = lit "original" /\ category = lit "literature")
                 \/ (type = lit "generated" /\ category <> []
                     /\ Forall (fun c => is_word c = true) category
                     /\ exists number rest,
                          filename = lit "generated_note_" ++ number ++ lit "_"
                                     ++ category ++ lit ".md" ++ rest)
                 \/ (type = lit "unknown" /\ category = lit "unknown"))).
  { exists unknown_info, (lit "unknown"), (lit "unknown").
    split; [reflexivity |]. unfold unknown_info.
    split; [now rewrite lookup_insert_ne, lookup_insert_eq by discriminate |].
    split; [now rewrite lookup_insert_eq | auto]. }
  unfold parse_file_info.
  destruct (startswith filename (lit "note_")).
  - destruct (match_original filename) as [[number chapter] |] eqn:Hm;
      [| exact Hunknown].
    destruct (match_original_inv _ _ _ Hm) as (rest & Hname & Hne & Hd & _).
    destruct (Hint number Hne Hd) as [n Hn].
    { rewrite Hname, !length_app. lia. }
    rewrite Hn, bind_Ret. eexists _, (lit "original"), (lit "literature").
    split; [reflexivity |].
    split; [now rewrite !lookup_insert_ne, lookup_insert_eq by discriminate |].
    split; [now rewrite lookup_insert_eq | auto].
  - destruct (startswith filename (lit "generated_note_")); [| exact Hunknown].
    destruct (match_generated filename) as [[number category] |] eqn:Hm;
      [| exact Hunknown].
    destruct (match_generated_inv _ _ _ Hm) as (rest & Hname & Hne & Hd & Hnc & Hw).
    destruct (Hint number Hne Hd) as [n Hn].
    { rewrite Hname, !length_app. lia. }
    rewrite Hn, bind_Ret. eexists _, (lit "generated"), category.
    split; [reflexivity |].
    split; [now rewrite !lookup_insert_ne, lookup_insert_eq by discriminate |].
    split; [now rewrite lookup_insert_eq |].
    right. left. eauto 10.
Qed.

End NameFacts.

(** ** Numbers in file names *)

Lemma decimal_digit_char (n : Z) :
  0 <= n -> ascii_digit (Z.to_N (48 + n mod 10)) = true
            /\ Z.of_N (Z.to_N (48 + n mod 10)) - 48 = n mod 10.
Proof.
  intros Hn. pose proof (Z.mod_pos_bound n 10). unfold ascii_digit.
  split; [| lia].
  apply andb_true_intro. split; apply N.leb_le; lia.
Qed.

Lemma decimal_digits_are_digits (fuel : nat) : forall n acc,
  0 <= n -> Forall (fun c => ascii_digit c = true) acc ->
  Forall (fun c => ascii_digit c = true) (decimal_digits fuel n acc).
Proof.
  induction fuel as [| fuel IH]; intros n acc Hn Hacc; [exact Hacc |].
  cbn [decimal_digits]. cbn zeta.
  assert (Hcons : Forall (fun c => ascii_digit c = true)
                    (Z.to_N (48 + n mod 10) :: acc))
    by (constructor; [apply decimal_digit_char, Hn | exact Hacc]).
  destruct (n <? 10); [exact Hcons |].
  apply IH; [apply Z.div_pos; lia | exact Hcons].
Qed.

Lemma decimal_digits_value (fuel : nat) : forall n acc,
  0 <= n < 2 ^ Z.of_nat fuel ->
  decimal_value (decimal_digits fuel n acc)
  = fold_left (fun n c => 10 * n + (Z.of_N c - 48)) acc n.
Proof.
  unfold decimal_value.
  induction fuel as [| fuel IH]; intros n acc Hn.
  - change (2 ^ Z.of_nat 0) with 1 in Hn. assert (n = 0) by lia. now subst.
  - cbn [decimal_digits]. cbn zeta.
    destruct (decimal_digit_char n) as [_ Hd]; [lia |].
    destruct (Z.ltb_spec n 10) as [Hlt | Hge].
    + cbn [fold_left]. rewrite Hd, Z.mod_small by lia. f_equal.
    + rewrite IH.
      * cbn [fold_left]. rewrite Hd. f_equal.
        pose proof (Z.div_mod n 10). lia.
      * rewrite Nat2Z.inj_succ, Z.pow_succ_r in Hn by lia.
        split; [apply Z.div_pos; lia | apply Z.div_lt_upper_bound; lia].
Qed.

Lemma decimal_digits_length (fuel : nat) : forall n acc (k : nat),
  0 <= n < 10 ^ Z.of_nat k -> (1 <= k)%nat ->
  (length (decimal_digits fuel n acc) <= k + length acc)%nat.
Proof.
  induction fuel as [| fuel IH]; intros n acc k Hn Hk; [cbn; lia |].
  cbn [decimal_digits]. cbn zeta.
  destruct (Z.ltb_spec n 10) as [Hlt | Hge]; [cbn [length]; lia |].
  destruct k as [| k]; [lia |].
  rewrite Nat2Z.inj_succ, Z.pow_succ_r in Hn by lia.
  destruct k as [| k]; [change (10 ^ Z.of_nat 0) with 1 in Hn; lia |].
  specialize (IH (n / 10) (Z.to_N (48 + n mod 10) :: acc) (S k)).
  cbn [length] in IH. etransitivity; [apply IH |]; try lia.
  split; [apply Z.div_pos; lia | apply Z.div_lt_upper_bound; lia].
Qed.

Lemma decimal_digits_grow (fuel : nat) (n : Z) (acc : str) :
  (S (length acc) <= length (decimal_digits (S fuel) n acc))%nat.
Proof.
  assert (Hgrow : forall f m a, (length a <= length (decimal_digits f m a))%nat).
  { induction f as [| f IHf]; intros m a; [cbn; lia |].
    cbn [decimal_digits]. cbn zeta. destruct (m <? 10); [cbn; lia |].
    etransitivity; [| apply IHf]. cbn; lia. }
  cbn [decimal_digits]. cbn zeta. destruct (n <? 10); [cbn; lia |].
  etransitivity; [| apply Hgrow]. cbn; lia.
Qed.

Lemma decimal_value_zeros (m : nat) (digits : str) :
  decimal_value (replicate m 48%N ++ digits) = decimal_value digits.
Proof.
  unfold decimal_value. induction m as [| m IH]; [reflexivity |].
  cbn [replicate app fold_left]. exact IH.
Qed.

Lemma format_06d_digits (n : Z) :
  0 <= n ->
  format_06d n <> [] /\ Forall (fun c => ascii_digit c = true) (format_06d n)
  /\ decimal_value (format_06d n) = n.
Proof.
  intros Hn. unfold format_06d, decimal.
  destruct (Z.ltb_spec n 0) as [Hneg | _]; [lia |].
  set (digits := decimal_digits _ n []).
  assert (Hne : digits <> []).
  { intros He. apply (f_equal length) in He.
    pose proof (decimal_digits_grow (Z.to_nat (Z.log2 n)) n []) as Hg.
    fold digits in Hg. rewrite He in Hg. cbn in Hg. lia. }
  split; [destruct (replicate _ _); [exact Hne | discriminate] |].
  split.
  - apply Forall_app. split.
    + apply Forall_forall. intros c Hc. apply elem_of_replicate in Hc.
      destruct Hc as [-> _]. reflexivity.
    + apply decimal_digits_are_digits; [exact Hn | constructor].
  - rewrite decimal_value_zeros. unfold digits.
    rewrite decimal_digits_value; [reflexivity |].
    split; [exact Hn |]. rewrite Nat2Z.inj_succ, Z2Nat.id by apply Z.log2_nonneg.
    destruct (Z.eq_dec n 0) as [-> | Hnz]; [reflexivity |].
    apply Z.log2_spec. lia.
Qed.

Lemma format_06d_length (n : Z) (k : nat) :
  0 <= n < 10 ^ Z.of_nat k -> (6 <= k)%nat -> (length (format_06d n) <= k)%nat.
Proof.
  intros Hn Hk. unfold format_06d, decimal.
  destruct (Z.ltb_spec n 0) as [Hneg | _]; [lia |].
  set (digits := decimal_digits _ n []).
  rewrite length_app, length_replicate.
  assert (Hl : (length digits <= k + 0)%nat)
    by (apply decimal_digits_length; [exact Hn | lia]).
  clearbody digits. clear Hn. unfold str, char in *. lia.
Qed.

Lemma ascii_int_value (digits : str) :
  digits <> [] -> Forall (fun c => ascii_digit c = true) digits ->
  (length digits <= 4300)%nat ->
  ascii_int digits = Ret (decimal_value digits).
Proof.
  intros Hne Hd Hlen. unfold ascii_int.
  destruct digits as [| c digits]; [congruence |]. cbn [is_empty orb].
  assert (Hall : forallb ascii_digit (c :: digits) = true)
    by (apply forallb_forall; intros x Hx; rewrite Forall_forall in Hd;
        apply Hd, list_elem_of_In, Hx).
  rewrite Hall. cbn [negb orb].
  destruct (Z.ltb_spec 4300 (len (c :: digits))) as [Hlt | _]; [| reflexivity].
  unfold len in Hlt. lia.
Qed.

(** X20.  The file names [create_large_corpus] writes are decoded by
    [parse_file_info]: on ASCII text, the name made of a number [i] and a
    non-empty category of word characters gives back the type generated,
    the number [i] and the category, also when text follows the [.md]. *)
Theorem generated_names_are_decoded (i : Z) (category rest : str) :
  0 <= i < 10 ^ 4300 -> category <> [] ->
  Forall (fun c => ascii_word c = true) category ->
  parse_file_info (U := ascii) (N := ascii_numerals)
    (generated_filename i category ++ rest)
  = Ret (<[lit "category" := Str category]>
           (<[lit "number" := Int i]>
              (<[lit "type" := Str (lit "generated")]> ∅))).
Proof.
  intros Hi Hne Hw.
  destruct (format_06d_digits i) as (Hdne & Hdd & Hdv); [apply Hi |].
  assert (Hint : ascii_int (format_06d i) = Ret i).
  { rewrite ascii_int_value, Hdv; [reflexivity | exact Hdne | exact Hdd |].
    apply (format_06d_length i 4300); [exact Hi | lia]. }
  unfold parse_file_info, generated_filename. rewrite <- !app_assoc.
  assert (Hnote : forall s, startswith (lit "generated_note_" ++ s) (lit "note_") = false)
    by reflexivity.
  rewrite Hnote, startswith_app. unfold match_generated.
  rewrite literal_app.
  rewrite (one_or_more_greedy _ _ _ _ (format_06d i, category));
    [| exact Hdne | exact Hdd | reflexivity |].
  - cbn [int_of ascii_numerals]. now rewrite Hint.
  - rewrite literal_app.
    rewrite (one_or_more_greedy _ _ _ _ (format_06d i, category));
      [reflexivity | exact Hne | exact Hw | reflexivity |].
    now rewrite literal_app.
Qed.

(** X21.  On ASCII text, a name of the documented form
    note_<digits>_unknown_book_chapter_<chapter>.md, where the chapter is
    digits, [xx] or [conclusion], is decoded to the type original, its
    number, its chapter and the category literature, also when text follows
    the [.md]. *)
Theorem original_names_are_decoded (number chapter rest : str) :
  number <> [] -> Forall (fun c => ascii_digit c = true) number ->
  (length number <= 4300)%nat ->
  chapter = lit "xx" \/ chapter = lit "conclusion"
  \/ (chapter <> [] /\ Forall (fun c => ascii_digit c = true) chapter) ->
  parse_file_info (U := ascii) (N := ascii_numerals)
    (lit "note_" ++ number ++ lit "_unknown_book_chapter_" ++ chapter
     ++ lit ".md" ++ rest)
  = Ret (<[lit "category" := Str (lit "literature")]>
           (<[lit "chapter" := Str chapter]>
              (<[lit "number" := Int (decimal_value number)]>
                 (<[lit "type" := Str (lit "original")]> ∅)))).
Proof.
  intros Hne Hd Hlen Hch.
  unfold parse_file_info. rewrite startswith_app. unfold match_original.
  rewrite literal_app.
  rewrite (one_or_more_greedy _ _ _ _ (number, chapter));
    [| exact Hne | exact Hd | reflexivity |].
  - cbn [int_of ascii_numerals]. now rewrite ascii_int_value.
  - rewrite literal_app. unfold either.
    destruct Hch as [-> | [-> | [Hcne Hcd]]].
    + change (one_or_more is_digit ?k (lit "xx" ++ ?s)) with (@None (str * str)).
      now rewrite !literal_app.
    + change (one_or_more is_digit ?k (lit "conclusion" ++ ?s))
        with (@None (str * str)).
      change (literal (lit "xx") ?k (lit "conclusion" ++ ?s))
        with (@None (str * str)).
      now rewrite !literal_app.
    + rewrite (one_or_more_greedy _ _ _ _ (number, chapter));
        [reflexivity | exact Hcne | exact Hcd | reflexivity |].
      now rewrite literal_app.
Qed.

(** ** A generated note, read back *)

Lemma split_on_app (sep : char) (a b : str) :
  split_on sep (a ++ sep :: b) = split_on sep a ++ split_on sep b.
Proof.
  induction a as [| c a IH].
  - cbn [app split_on]. now rewrite N.eqb_refl.
  - cbn [app split_on]. rewrite IH.
    destruct (c =? sep)%N; [reflexivity |].
    destruct (split_on_cons sep a) as (line & lines & ->). reflexivity.
Qed.

Lemma split_on_line (sep : char) (line : str) :
  sep ∉ line -> split_on sep line = [line].
Proof.
  induction line as [| c line IH]; intros Hsep; [reflexivity |].
  cbn [split_on]. destruct (N.eqb_spec c sep) as [-> | _].
  - exfalso. apply Hsep. constructor.
  - rewrite IH; [reflexivity |]. intros Hin. apply Hsep. now constructor.
Qed.

(** A piece between two newlines is one of the lines. *)
Lemma line_between_newlines (pre line post : str) :
  10%N ∉ line ->
  line ∈ split_on 10%N (pre ++ [10%N] ++ line ++ [10%N] ++ post).
Proof.
  intros Hline. cbn [app].
  rewrite !split_on_app, (split_on_line _ line Hline).
  apply elem_of_app. right. apply elem_of_app. left. constructor.
Qed.

Lemma elem_of_join (sep part : str) (parts : list str) (c : char) :
  part ∈ parts -> c ∈ part -> c ∈ join sep parts.
Proof.
  intros Hpart Hc. induction parts as [| p parts IH]; [now apply elem_of_nil in Hpart |].
  apply elem_of_cons in Hpart.
  destruct parts as [| q parts].
  - destruct Hpart as [-> | Hin]; [exact Hc | now apply elem_of_nil in Hin].
  - change (join sep (p :: q :: parts)) with (p ++ sep ++ join sep (q :: parts)).
    apply elem_of_app. destruct Hpart as [-> | Hin]; [now left |].
    right. apply elem_of_app. right. apply IH, Hin.
Qed.

Section ReadBack.

Context `{U : unicode} `{C : corpus}.

(** A kept line with a character that is not white space leaves the
    cleaned text non-empty. *)
Lemma kept_line_gives_content (filepath content line : str) (c : char) :
  file_system filepath = Some content ->
  line ∈ split_on 10%N content -> dropped_line line = false ->
  c ∈ line -> is_space c = false ->
  read_file_content filepath <> [].
Proof.
  intros Hfile Hline Hkept Hc Hspace Hempty.
  unfold read_file_content in Hempty. rewrite Hfile in Hempty.
  apply strip_nil_iff in Hempty. rewrite Forall_forall in Hempty.
  specialize (Hempty c). rewrite Hspace in Hempty.
  assert (c ∈ join (lit " ")
                 (List.filter (fun line =>
                     negb (startswith line (lit "#"))
                     && negb (startswith line (lit "From:"))
                     && negb (startswith line (lit "Category:"))
                     && negb (startswith line (lit "Generated:")))
                    (split_on 10%N content))) as Hin.
  { apply (elem_of_join _ line); [| exact Hc].
    apply list_elem_of_In, filter_In. split; [now apply list_elem_of_In |].
    now rewrite clean_line_filter, Hkept. }
  specialize (Hempty Hin). discriminate.
Qed.

End ReadBack.

Section GeneratedNotes.

Context `{U : unicode} `{C : corpus} `{G : generator}.

Lemma add_section_shape (content : str) (i : Z) (chunk : str) :
  exists pre post, add_section content (i, chunk)
                   = content ++ pre ++ [10%N] ++ chunk ++ [10%N] ++ post.
Proof.
  unfold add_section. exists (lit "## Section " ++ format_d i ++ [10%N]).
  destruct (relates i) as [key |]; eexists; rewrite <- ?app_assoc;
    cbn [app]; rewrite <- ?app_assoc; reflexivity.
Qed.

Lemma add_section_prefix (content : str) (numbered : Z * str) :
  exists more, add_section content numbered = content ++ more.
Proof.
  destruct numbered as [i chunk].
  destruct (add_section_shape content i chunk) as (pre & post & ->). eauto.
Qed.

Lemma sections_keep_prefix (numbered : list (Z * str)) : forall content,
  exists more, fold_left add_section numbered content = content ++ more.
Proof.
  induction numbered as [| x numbered IH]; intros content.
  - exists []. now rewrite app_nil_r.
  - cbn [fold_left]. destruct (add_section_prefix content x) as [m1 ->].
    destruct (IH (content ++ m1)) as [m2 ->]. exists (m1 ++ m2).
    now rewrite app_assoc.
Qed.

Lemma sections_hold_chunk (numbered : list (Z * str)) (i : Z) (chunk : str) :
  (i, chunk) ∈ numbered ->
  forall content,
  exists pre post,
    fold_left add_section numbered content
    = pre ++ [10%N] ++ chunk ++ [10%N] ++ post.
Proof.
  induction numbered as [| x numbered IH]; intros Hin content;
    [now apply elem_of_nil in Hin |].
  apply elem_of_cons in Hin. cbn [fold_left].
  destruct Hin as [<- | Hin]; [| now apply IH].
  destruct (add_section_shape content i chunk) as (pre & post & ->).
  destruct (sections_keep_prefix numbered
              (content ++ pre ++ [10%N] ++ chunk ++ [10%N] ++ post)) as [more ->].
  exists (content ++ pre), (post ++ more). now rewrite <- !app_assoc.
Qed.

Lemma elem_of_enumerate {A : Type} (l : list A) (start : Z) (x : A) :
  x ∈ l -> exists i, (i, x) ∈ enumerate l start.
Proof.
  intros Hx. apply list_elem_of_lookup in Hx. destruct Hx as [p Hp].
  exists (start + Z.of_nat p). apply list_elem_of_lookup. exists p.
  unfold enumerate. now rewrite list_lookup_imap, Hp.
Qed.

Lemma generate_content_holds_chunk (category : str) (chunk_list : list str)
  (file_num : Z) (chunk : str) :
  chunk ∈ sample chunk_list (Z.min randint_3_5 (len chunk_list)) ->
  exists pre post,
    generate_content category chunk_list file_num
    = pre ++ [10%N] ++ chunk ++ [10%N] ++ post.
Proof.
  intros Hin. unfold generate_content. cbn zeta.
  destruct (elem_of_enumerate _ 1 _ Hin) as [i Hi].
  match goal with
  | |- context [fold_left add_section ?l ?c] =>
      destruct (sections_hold_chunk l i chunk Hi c) as (pre & post & ->)
  end.
  destruct cross_reference; [| eauto].
  eexists pre, _. rewrite <- !app_assoc. reflexivity.
Qed.

(** X22.  A note written by [generate_content] is never read back as
    empty: when one of the selected chunks is a single line that is not a
    heading or a metadata line and holds a character that is not white
    space, [read_file_content] returns a non-empty text for the note. *)
Theorem generated_note_is_never_empty (filepath category : str)
  (chunk_list : list str) (file_num : Z) (chunk : str) (c : char) :
  file_system filepath = Some (generate_content category chunk_list file_num) ->
  chunk ∈ sample chunk_list (Z.min randint_3_5 (len chunk_list)) ->
  10%N ∉ chunk -> dropped_line chunk = false ->
  c ∈ chunk -> is_space c = false ->
  read_file_content filepath <> [].
Proof.
  intros Hfile Hin Hline Hkept Hc Hspace.
  destruct (generate_content_holds_chunk category chunk_list file_num chunk Hin)
    as (pre & post & Hshape).
  apply (kept_line_gives_content filepath _ chunk c Hfile); try assumption.
  rewrite Hshape. now apply line_between_newlines.
Qed.

End GeneratedNotes.

Lemma insert_descending_perm {A : Type} (x : float * A) (l : list (float * A)) :
  insert_descending x l ≡ₚ x :: l.
Proof.
  induction l as [| y l IH]; [reflexivity |]. cbn [insert_descending].
  destruct (flt x.1 y.1); [| reflexivity].
  rewrite IH. apply perm_swap.
Qed.

Lemma sorted_reverse_perm {A : Type} (keyed : list (float * A)) :
  sorted_reverse keyed ≡ₚ keyed.
Proof.
  induction keyed as [| x l IH]; [reflexivity |].
  cbn [sorted_reverse foldr]. rewrite insert_descending_perm.
  now constructor.
Qed.

Lemma flt_false (a b : float) : flt a b = false -> (b <= a)%Q.
Proof.
  unfold flt. intros H. apply negb_false_iff in H. now apply Qle_bool_iff.
Qed.

Lemma flt_true (a b : float) : flt a b = true -> (a < b)%Q.
Proof.
  unfold flt. intros H. apply negb_true_iff in H.
  apply Qnot_le_lt. intros Hle. apply Qle_bool_iff in Hle. congruence.
Qed.

Lemma insert_descending_sorted {A : Type} (x : float * A) (l : list (float * A)) :
  StronglySorted key_ge l -> StronglySorted key_ge (insert_descending x l).
Proof.
  induction 1 as [| y l Hs IH Hy]; cbn [insert_descending].
  - repeat constructor.
  - destruct (flt x.1 y.1) eqn:Hlt.
    + constructor; [exact IH |].
      rewrite insert_descending_perm. constructor; [| exact Hy].
      apply flt_true in Hlt. unfold key_ge. lra.
    + apply flt_false in Hlt. constructor; [now constructor |].
      constructor; [exact Hlt |].
      eapply Forall_impl; [exact Hy |]. unfold key_ge. intros z Hz. cbn beta in Hz. lra.
Qed.

Lemma sorted_reverse_sorted {A : Type} (keyed : list (float * A)) :
  StronglySorted key_ge (sorted_reverse keyed).
Proof.
  induction keyed as [| x l IH]; [constructor |].
  now apply insert_descending_sorted.
Qed.

Lemma StronglySorted_app_parts {A : Type} (R : A -> A -> Prop) (l1 l2 : list A) :
  StronglySorted R (l1 ++ l2) ->
  StronglySorted R l1 /\ Forall (fun a => Forall (R a) l2) l1.
Proof.
  induction l1 as [| a l1 IH]; cbn [app]; intros Hs.
  - split; constructor.
  - inversion Hs as [| ? ? Hs' Ha]; subst.
    destruct (IH Hs') as [H1 H2]. apply Forall_app in Ha as [Ha1 Ha2].
    split; constructor; assumption.
Qed.

Lemma keys_of_pairs (method : str) (pairs : list pair_result) :
  Forall (fun pair => is_Some (similarities pair !! method)) pairs ->
  exists keys,
    comprehension (fun x => dict_get (similarities x) method) pairs = Ret keys
    /\ Forall (fun '(key, p) => similarities p !! method = Some key)
         (zip keys pairs)
    /\ map snd (zip keys pairs) = pairs.
Proof.
  induction 1 as [| pair pairs [key Hkey] _ IH].
  - exists []. repeat split; constructor.
  - destruct IH as (keys & Hrun & Hall & Hsnd). exists (key :: keys).
    cbn [comprehension]. rewrite (dict_get_Some _ _ _ Hkey), bind_Ret, Hrun, bind_Ret.
    split; [reflexivity |]. cbn [zip zip_with map snd].
    split; [now constructor | now rewrite Hsnd].
Qed.

Lemma listed_with_values (method : str) (keyed : list (float * pair_result)) :
  Forall (fun '(key, p) => similarities p !! method = Some key) keyed ->
  comprehension (fun pair =>
                   sim ← dict_get (similarities pair) method;
                   Ret (sim, pair))
                (map snd keyed)
  = Ret keyed.
Proof.
  induction 1 as [| [key p] keyed Hkey _ IH]; [reflexivity |].
  cbn [map snd comprehension].
  now rewrite (dict_get_Some _ _ _ Hkey), !bind_Ret, IH, bind_Ret.
Qed.

(** X23.  When every pair holds a value for the method, the list of the
    most similar pairs is computed without error and holds the five
    largest values (all of them when there are fewer than five pairs), each
    with its pair, in descending order: every pair that is not listed has a
    value no larger than every listed one. *)
Theorem top_five_are_the_largest (res : results) (method : str) :
  Forall (fun pair => is_Some (similarities pair !! method)) (res_all_pairs res) ->
  exists top rest,
    most_similar_pairs res method = Ret top
    /\ length top = Nat.min 5 (length (res_all_pairs res))
    /\ map snd top ++ rest ≡ₚ res_all_pairs res
    /\ Forall (fun '(sim, p) => similarities p !! method = Some sim) top
    /\ StronglySorted (fun a b : float => (b <= a)%Q) (map fst top)
    /\ Forall (fun pair =>
                 exists sim,
                   similarities pair !! method = Some sim
                   /\ Forall (fun listed => (sim <= listed)%Q) (map fst top))
         rest.
Proof.
  intros Hall. unfold most_similar_pairs.
  destruct (keys_of_pairs method _ Hall) as (keys & -> & Hkeys & Hsnd).
  rewrite bind_Ret. cbn zeta.
  set (s := sorted_reverse (zip keys (res_all_pairs res))).
  assert (Hperm : s ≡ₚ zip keys (res_all_pairs res)) by apply sorted_reverse_perm.
  assert (Hval : Forall (fun '(key, p) => similarities p !! method = Some key) s)
    by now rewrite Hperm.
  pose proof (sorted_reverse_sorted (zip keys (res_all_pairs res))) as Hsorted.
  fold s in Hsorted. rewrite <- (take_drop 5 s) in Hsorted, Hval.
  apply StronglySorted_app_parts in Hsorted as [Htop Hrest].
  apply Forall_app in Hval as [Hvt Hvr].
  exists (take 5 s), (map snd (drop 5 s)).
  rewrite <- firstn_map. change (firstn 5 (map snd s)) with (take 5 (map snd s)).
  rewrite <- fmap_take. 
  split; [now apply listed_with_values |].
  split.
  { rewrite length_take. f_equal.
    transitivity (length (map snd (zip keys (res_all_pairs res))));
      [now rewrite length_map, Hperm | now rewrite Hsnd]. }
  split.
  { rewrite <- map_app, take_drop. rewrite <- Hsnd. now apply fmap_Permutation. }
  split; [exact Hvt |].
  split.
  { clear -Htop. induction Htop as [| a l _ IH Ha]; cbn [map]; constructor; [exact IH |].
    apply Forall_fmap. exact Ha. }
  apply Forall_fmap. apply Forall_forall. intros [sim p] Hin. cbn [snd compose].
  exists sim. split.
  - rewrite Forall_forall in Hvr. exact (Hvr _ Hin).
  - apply Forall_fmap. eapply Forall_impl; [exact Hrest |].
    intros a Ha. cbn beta in Ha. rewrite Forall_forall in Ha. exact (Ha _ Hin).
Qed.

Section MainFacts.

Context `{U : unicode} `{C : corpus}.
Variable fsqrt : Q -> float.

Lemma filter_length_Forall2 {A B : Type} (R : A -> B -> Prop)
  (f : A -> bool) (g : B -> bool) (l1 : list A) (l2 : list B) :
  (forall a b, R a b -> f a = g b) ->
  Forall2 R l1 l2 ->
  length (List.filter f l1) = length (List.filter g l2).
Proof.
  intros Hfg. induction 1 as [| a b l1 l2 Hab _ IH]; [reflexivity |].
  cbn [List.filter]. rewrite (Hfg a b Hab). destruct (g b); cbn [length]; lia.
Qed.

Lemma records_same (fuel : nat) (pair : pair_result) (i : Z) :
  records fuel pair i -> same_category pair = same_draw i.
Proof.
  unfold records, same_draw. destruct (random_sample (Z.to_nat i)) as [f1 f2].
  tauto.
Qed.

(** X24.  On a vault of at least two notes [main] ends in one of three
    ways, decided by the 2000 draws: with no draw having content on both
    sides it stops before the statistics; when exactly one draw has
    content, or exactly one of them pairs notes of the same category, or
    exactly one pairs notes of different categories, it raises
    [StatisticsError]; otherwise it prints the statistics. *)
Theorem main_stops_raises_or_reports (fuel : nat) :
  (64 < fuel)%nat -> 2 <= len all_files ->
  (forall i, (random_sample i).1 ∈ all_files /\ (random_sample i).2 ∈ all_files) ->
  let drawn := List.filter has_content (range 2000) in
  let same := length (List.filter same_draw drawn) in
  let different := length (List.filter (fun i => negb (same_draw i)) drawn) in
  (drawn = [] -> main fsqrt true fuel = Ret None)
  /\ (length drawn = 1%nat \/ same = 1%nat \/ different = 1%nat ->
      main fsqrt true fuel = Raise StatisticsError)
  /\ ((2 <= length drawn)%nat -> same <> 1%nat -> different <> 1%nat ->
      exists report, main fsqrt true fuel = Ret (Some report)).
Proof.
  intros Hfuel Hfiles Hdraws drawn same different.
  destruct (analyze_test_corpus_runs fuel 2000 Hfuel Hfiles Hdraws)
    as (res & Hrun & [Hscored _] & _).
  destruct (analyze_test_corpus_records fuel 2000 Hfuel Hfiles Hdraws)
    as (res' & Hrun' & Hrec & Hsame & Hdiff).
  rewrite Hrun in Hrun'. injection Hrun' as <-. fold drawn in Hrec.
  assert (Hn : length (res_all_pairs res) = length drawn)
    by exact (Forall2_length _ _ _ Hrec).
  assert (Hs : length (res_same_category res) = same).
  { rewrite Hsame. apply (filter_length_Forall2 (records fuel)); [| exact Hrec].
    apply records_same. }
  assert (Hd : length (res_different_category res) = different).
  { rewrite Hdiff.
    apply (filter_length_Forall2 (records fuel)); [| exact Hrec].
    intros a b Hab. now rewrite (records_same fuel a b Hab). }
  assert (Hss : Forall scored (res_same_category res))
    by (rewrite Hsame; now apply Forall_filter_list).
  assert (Hsd : Forall scored (res_different_category res))
    by (rewrite Hdiff; now apply Forall_filter_list).
  unfold main. cbn [negb]. cbn zeta. rewrite Hrun, bind_Ret.
  split; [| split].
  - intros He. rewrite He in Hn.
    destruct (res_all_pairs res); [reflexivity | discriminate].
  - intros Hbad.
    destruct (res_all_pairs res) as [| pair pairs] eqn:Hall.
    + exfalso. cbn [length] in Hn.
      assert (Hnil : drawn = []) by (destruct drawn; [reflexivity | discriminate]).
      subst same different. rewrite Hnil in Hbad. cbn in Hbad.
      destruct Hbad as [Hb | [Hb | Hb]]; discriminate.
    + cbn [is_empty]. rewrite <- Hall in *.
      unfold print_statistics. cbn zeta. cbn [comprehension].
      rewrite (method_statistics_raises fsqrt res (lit "word_jaccard"));
        [reflexivity | now left | assumption .. |].
      unfold len. destruct Hbad as [Hb | [Hb | Hb]]; [left | right; left | right; right];
        lia.
  - intros H2 Hns Hnd.
    destruct (res_all_pairs res) as [| pair pairs] eqn:Hall;
      [cbn [length] in Hn; lia |].
    cbn [is_empty]. rewrite <- Hall in *.
    unfold print_statistics. cbn zeta. cbn [comprehension].
    destruct (method_statistics_returns fsqrt res (lit "word_jaccard"))
      as (r1 & -> & _); [now left | assumption .. | unfold len; lia
                        | unfold len; lia | unfold len; lia |].
    destruct (method_statistics_returns fsqrt res (lit "simhash"))
      as (r2 & -> & _); [now right | assumption .. | unfold len; lia
                        | unfold len; lia | unfold len; lia |].
    rewrite !bind_Ret. eauto.
Qed.

End MainFacts.

Lemma elem_of_range_from (start stop i : Z) :
  i ∈ range_from start stop <-> start <= i < stop.
Proof.
  unfold range_from. rewrite list_elem_of_fmap. split.
  - intros (k & -> & Hk). apply elem_of_range in Hk. lia.
  - intros Hi. exists (i - start). split; [lia |]. apply elem_of_range. lia.
Qed.

Lemma range_NoDup (n : Z) : NoDup (range n).
Proof.
  unfold range. apply NoDup_fmap_2; [intros a b; lia | apply NoDup_seq].
Qed.

Lemma range_from_NoDup (start stop : Z) : NoDup (range_from start stop).
Proof.
  unfold range_from. apply NoDup_fmap_2; [intros a b; lia | apply range_NoDup].
Qed.

Lemma generated_filename_inj (i i' : Z) (category category' : str) :
  0 <= i -> 0 <= i' ->
  generated_filename i category = generated_filename i' category' ->
  i = i' /\ category = category'.
Proof.
  intros Hi Hi' Heq. unfold generated_filename in Heq.
  apply app_inv_head in Heq.
  destruct (format_06d_digits i Hi) as (_ & Hd & Hv).
  destruct (format_06d_digits i' Hi') as (_ & Hd' & Hv').
  assert (Hrun : forall n c, Forall (fun c => ascii_digit c = true) (format_06d n) ->
            class_run ascii_digit (format_06d n ++ lit "_" ++ c ++ lit ".md")
            = length (format_06d n)).
  { intros n c Hn. apply class_run_app; [exact Hn | reflexivity]. }
  assert (Hlen : length (format_06d i) = length (format_06d i')).
  { rewrite <- (Hrun i category Hd), <- (Hrun i' category' Hd'). now rewrite Heq. }
  apply app_inj_1 in Heq as [Hnum Hrest]; [| exact Hlen].
  split; [congruence |].
  apply app_inv_head in Hrest. now apply app_inv_tail in Hrest.
Qed.

Lemma range_from_cons (start stop : Z) :
  start < stop -> range_from start stop = start :: range_from (start + 1) stop.
Proof.
  intros Hlt. unfold range_from, range.
  replace (Z.to_nat (stop - start)) with (S (Z.to_nat (stop - (start + 1)))) by lia.
  cbn [seq map]. f_equal; [lia |].
  rewrite <- seq_shift, !map_map. apply map_ext. intros k. lia.
Qed.

Lemma range_from_split (start k stop : Z) :
  start <= k < stop ->
  range_from start stop = range_from start k ++ k :: range_from (k + 1) stop.
Proof.
  intros Hk. unfold range_from, range.
  set (a := Z.to_nat (k - start)). set (b := Z.to_nat (stop - (k + 1))).
  replace (Z.to_nat (stop - start)) with (a + S b)%nat by lia.
  rewrite seq_app, !map_app. cbn [seq map]. f_equal. f_equal; [lia |].
  rewrite !map_map. apply list_eq. intros j. rewrite !list_lookup_fmap.
  destruct (decide (j < b)%nat) as [Hj | Hj].
  - rewrite !lookup_seq_lt by exact Hj. cbn. f_equal. lia.
  - rewrite !lookup_seq_ge by lia. reflexivity.
Qed.

Section CorpusFacts.

Context `{R : corpus_generator} `{O : operating_system}.

Hypothesis choice_in : forall i population,
  population <> [] -> choice i population ∈ population.

Lemma chosen_category (i : Z) :
  exists chunks,
    (choice i (map fst categories), chunks) ∈ categories
    /\ dict_get (list_to_map categories : gmap str (list str))
         (choice i (map fst categories)) = Ret chunks.
Proof.
  pose proof (choice_in i (map fst categories)) as Hin.
  assert (Hne : map fst categories <> []) by discriminate.
  specialize (Hin Hne). set (category := choice i (map fst categories)) in *.
  clearbody category.
  assert (Hcases : category = lit "fiction" \/ category = lit "science"
                   \/ category = lit "philosophy" \/ category = lit "history").
  { cbn [categories map fst] in Hin.
    repeat (apply elem_of_cons in Hin as [Hin | Hin]; [auto |]).
    now apply elem_of_nil in Hin. }
  destruct Hcases as [-> | [-> | [-> | ->]]]; eexists; (split; [| reflexivity]).
  - apply list_elem_of_here.
  - do 1 apply list_elem_of_further. apply list_elem_of_here.
  - do 2 apply list_elem_of_further. apply list_elem_of_here.
  - do 3 apply list_elem_of_further. apply list_elem_of_here.
Qed.

Lemma write_note_writes (files : gmap str str) (i : Z) :
  refused (name_of i) = false ->
  exists name content,
    written i name content
    /\ write_note (Some files) i = (Some (<[name := content]> files), Ret tt).
Proof.
  intros Hok. destruct (chosen_category i) as (chunks & Hin & Hget).
  unfold write_note. cbn zeta. rewrite Hget. unfold write_file.
  fold (name_of i). rewrite Hok.
  eexists _, _. split; [| reflexivity]. exists chunks. auto.
Qed.

Lemma write_note_refused (files : gmap str str) (i : Z) :
  refused (name_of i) = true ->
  write_note (Some files) i = (Some files, Raise OSError).
Proof.
  intros Hno. destruct (chosen_category i) as (chunks & _ & Hget).
  unfold write_note. cbn zeta. rewrite Hget. unfold write_file.
  fold (name_of i). now rewrite Hno.
Qed.

Lemma write_note_missing (i : Z) :
  write_note None i = (None, Raise FileNotFoundError).
Proof.
  destruct (chosen_category i) as (chunks & _ & Hget).
  unfold write_note. cbn zeta. now rewrite Hget.
Qed.

Lemma written_name_inj (i j : Z) (name ci cj : str) :
  0 <= i -> 0 <= j -> written i name ci -> written j name cj -> i = j.
Proof.
  intros Hi Hj (? & _ & Hn & _) (? & _ & Hn' & _).
  rewrite Hn in Hn'. now apply generated_filename_inj in Hn' as [? _].
Qed.

Lemma write_notes_app (before after : list Z) (vault : directory) :
  write_notes (before ++ after) vault
  = match write_notes before vault with
    | (vault', Ret _) => write_notes after vault'
    | (vault', Raise e) => (vault', Raise e)
    | (vault', OutOfFuel) => (vault', OutOfFuel)
    end.
Proof.
  revert vault. induction before as [| i before IH]; intros vault.
  - cbn [app write_notes]. now destruct (write_notes after vault) as [? [[] | |]].
  - cbn [app write_notes]. destruct (write_note vault i) as [vault' [[] | e |]];
      [apply IH | reflexivity | reflexivity].
Qed.

Lemma write_loop (indices : list Z) :
  NoDup indices -> Forall (fun i => 0 <= i) indices ->
  Forall (fun i => refused (name_of i) = false) indices ->
  forall files,
  exists files',
    write_notes indices (Some files) = (Some files', Ret tt)
    /\ (forall i, i ∈ indices ->
          exists name content, written i name content /\ files' !! name = Some content)
    /\ (forall name,
          (forall i content, i ∈ indices -> ~ written i name content) ->
          files' !! name = files !! name).
Proof.
  induction 1 as [| i indices Hnotin Hnd IH]; intros Hpos Hok files.
  - exists files. split; [reflexivity |]. split; [| reflexivity].
    intros i Hi. now apply elem_of_nil in Hi.
  - apply Forall_cons in Hpos as [Hi Hpos]. apply Forall_cons in Hok as [Hoki Hok].
    destruct (write_note_writes files i Hoki) as (name & content & Hw & Hrun).
    destruct (IH Hpos Hok (<[name := content]> files)) as (files' & Hloop & Hin & Hout).
    exists files'. cbn [write_notes]. rewrite Hrun.
    split; [exact Hloop |]. split.
    + intros j Hj. apply elem_of_cons in Hj as [-> | Hj]; [| now apply Hin].
      exists name, content. split; [exact Hw |].
      rewrite Hout; [apply lookup_insert_eq |].
      intros j cj Hj Hwj. apply Hnotin.
      rewrite Forall_forall in Hpos.
      now rewrite (written_name_inj i j name content cj Hi (Hpos j Hj) Hw Hwj).
    + intros other Hother. rewrite Hout.
      * apply lookup_insert_ne. intros <-.
        apply (Hother i content); [apply list_elem_of_here | exact Hw].
      * intros j cj Hj. apply Hother. now apply list_elem_of_further.
Qed.

Lemma write_range (files : gmap str str) (start stop : Z) :
  0 <= start ->
  (forall i, start <= i < stop -> refused (name_of i) = false) ->
  exists files',
    write_notes (range_from start stop) (Some files) = (Some files', Ret tt)
    /\ (forall i, start <= i < stop ->
          exists name content, written i name content /\ files' !! name = Some content)
    /\ (forall name,
          (forall i content, start <= i < stop -> ~ written i name content) ->
          files' !! name = files !! name).
Proof.
  intros Hstart Hok.
  destruct (write_loop (range_from start stop)) with (files := files)
    as (files' & Hrun & Hin & Hout).
  - apply range_from_NoDup.
  - apply Forall_forall. intros i Hi. apply elem_of_range_from in Hi. lia.
  - apply Forall_forall. intros i Hi. apply Hok. now apply elem_of_range_from.
  - exists files'. split; [exact Hrun |]. split.
    + intros i Hi. apply Hin. now apply elem_of_range_from.
    + intros name Hname. apply Hout. intros i content Hi.
      apply Hname. now apply elem_of_range_from in Hi.
Qed.

Lemma create_large_corpus_returns (files : gmap str str) (target_files : Z) :
  let start_num := len (md_names files) + 1 in
  (forall i, start_num <= i < start_num + target_files ->
             refused (name_of i) = false) ->
  exists files',
    create_large_corpus (Some files) target_files = (Some files', Ret tt)
    /\ (forall i, start_num <= i < start_num + target_files ->
          exists name content,
            written i name content /\ files' !! name = Some content)
    /\ (forall name,
          (forall i content, start_num <= i < start_num + target_files ->
                             ~ written i name content) ->
          files' !! name = files !! name).
Proof.
  intros start_num Hok. unfold create_large_corpus. cbn zeta. cbn [glob_md].
  fold start_num. apply write_range; [unfold start_num, len; lia | exact Hok].
Qed.

Lemma create_large_corpus_missing (target_files : Z) :
  0 < target_files ->
  create_large_corpus None target_files = (None, Raise FileNotFoundError).
Proof.
  intros Htarget. unfold create_large_corpus. cbn zeta. cbn [glob_md].
  rewrite range_from_cons by (unfold len; cbn; lia).
  cbn [write_notes]. now rewrite write_note_missing.
Qed.

(** X25.  On an existing vault directory in which the operating system
    refuses none of the files to be written, [create_large_corpus] raises
    nothing and numbers its notes from one more than the count of
    markdown files in the vault: afterwards the vault holds, for each
    number of the range, the note generated for it under its name
    generated_note_<number>_<category>.md (no later iteration overwrites
    it), and every other file is as it was.  When the directory does not
    exist and a file is asked for, the first write raises
    [FileNotFoundError] and nothing is created. *)
Theorem create_large_corpus_writes_numbered_notes (files : gmap str str)
  (target_files : Z) :
  let start_num := len (glob_md (Some files)) + 1 in
  ((forall i, start_num <= i < start_num + target_files ->
              refused (name_of i) = false) ->
   exists files',
     create_large_corpus (Some files) target_files = (Some files', Ret tt)
     /\ (forall i, start_num <= i < start_num + target_files ->
           exists name content,
             written i name content /\ files' !! name = Some content)
     /\ (forall name,
           (forall i content, start_num <= i < start_num + target_files ->
                              ~ written i name content) ->
           files' !! name = files !! name))
  /\ (0 < target_files ->
      create_large_corpus None target_files = (None, Raise FileNotFoundError)).
Proof.
  intros start_num. split.
  - exact (create_large_corpus_returns files target_files).
  - exact (create_large_corpus_missing target_files).
Qed.

(** X28.  When the operating system refuses the file of one number of
    the range and none before it, [create_large_corpus] raises [OSError]
    at that number: the notes of the numbers before it are in the vault,
    and no other file has changed, so that no later note is written. *)
Theorem create_large_corpus_stops_at_a_refusal (files : gmap str str)
  (target_files k : Z) :
  let start_num := len (glob_md (Some files)) + 1 in
  start_num <= k < start_num + target_files ->
  refused (name_of k) = true ->
  (forall i, start_num <= i < k -> refused (name_of i) = false) ->
  exists files',
    create_large_corpus (Some files) target_files = (Some files', Raise OSError)
    /\ (forall i, start_num <= i < k ->
          exists name content,
            written i name content /\ files' !! name = Some content)
    /\ (forall name,
          (forall i content, start_num <= i < k -> ~ written i name content) ->
          files' !! name = files !! name).
Proof.
  intros start_num Hk Hno Hok. unfold create_large_corpus. cbn zeta.
  fold start_num. rewrite (range_from_split start_num k) by exact Hk.
  destruct (write_range files start_num k) as (files' & Hrun & Hin & Hout);
    [unfold start_num, len; lia | exact Hok |].
  exists files'. rewrite write_notes_app, Hrun. cbn [write_notes].
  rewrite (write_note_refused files' k Hno). auto.
Qed.

End CorpusFacts.

Lemma chunks_are_kept :
  forallb (fun entry : str * list str => forallb kept_chunk entry.2) categories = true.
Proof. vm_compute. reflexivity. Qed.

Lemma chunks_are_ten :
  forallb (fun entry : str * list str => (len entry.2 =? 10)) categories = true.
Proof. vm_compute. reflexivity. Qed.

Lemma kept_chunk_line (chunk : str) :
  kept_chunk chunk = true ->
  (10%N ∉ chunk) /\ dropped_line chunk = false
  /\ exists c, c ∈ chunk /\ ascii_space c = false.
Proof.
  unfold kept_chunk. rewrite !andb_true_iff, negb_true_iff, forallb_forall, existsb_exists.
  intros [[Hline Hkept] (c & Hc & Hspace)]. split; [| split; [exact Hkept |]].
  - intros Hin. apply list_elem_of_In in Hin. specialize (Hline _ Hin). cbn in Hline.
    discriminate.
  - exists c. split; [now apply list_elem_of_In | now apply negb_true_iff].
Qed.

Section CorpusContent.

Context `{R : corpus_generator} `{O : operating_system}.

Hypothesis choice_in : forall i population,
  population <> [] -> choice i population ∈ population.
Hypothesis randint_range : forall i,
  3 <= randint_3_5 (generator := note_generator i) <= 5.
Hypothesis sample_spec : forall i population k,
  0 <= k <= len population ->
  length (sample (generator := note_generator i) population k) = Z.to_nat k
  /\ sample (generator := note_generator i) population k ⊆ population.

Lemma written_note_has_content (C : corpus) (i : Z) (name content : str) :
  written i name content -> file_system name = Some content ->
  read_file_content (U := ascii) name <> [].
Proof.
  intros (chunks & Hin & _ & ->) Hfile.
  pose proof chunks_are_kept as Hkept. pose proof chunks_are_ten as Hten.
  rewrite forallb_forall in Hkept, Hten. apply list_elem_of_In in Hin.
  specialize (Hkept _ Hin). specialize (Hten _ Hin). cbn [snd] in Hkept, Hten.
  apply Z.eqb_eq in Hten. rewrite forallb_forall in Hkept.
  pose proof (randint_range i) as Hr.
  destruct (sample_spec i chunks (Z.min (randint_3_5 (generator := note_generator i))
                                    (len chunks))) as [Hlen Hsub]; [lia |].
  destruct (sample (generator := note_generator i) chunks
              (Z.min (randint_3_5 (generator := note_generator i)) (len chunks)))
    as [| chunk selected] eqn:Hsel; [cbn [length] in Hlen; lia |].
  assert (Hchunk : chunk ∈ chunks) by (apply Hsub, list_elem_of_here).
  apply list_elem_of_In in Hchunk.
  destruct (kept_chunk_line chunk (Hkept _ Hchunk)) as (Hline & Hdropped & c & Hc & Hspace).
  destruct (generate_content_holds_chunk (G := note_generator i)
              (choice i (map fst categories)) chunks i chunk) as (pre & post & Hshape).
  { rewrite Hsel. apply list_elem_of_here. }
  apply (kept_line_gives_content (U := ascii) name _ chunk c Hfile);
    [| exact Hdropped | exact Hc | exact Hspace].
  rewrite Hshape. now apply line_between_newlines.
Qed.

(** X26.  No note of a generated corpus is skipped by the analysis for
    lack of content: when [random.randint(3, 5)] answers in its range and
    [random.sample] returns as many chunks of the population as asked,
    [read_file_content] returns a non-empty text for every note that
    [create_large_corpus] wrote.  This holds of a note once it is in a
    file, whether or not the run is completed; and a run on an existing
    vault whose files are not refused is completed and leaves such a note
    for every number of its range. *)
Theorem generated_corpus_has_content (files : gmap str str) (target_files : Z) :
  let start_num := len (glob_md (Some files)) + 1 in
  (forall i, start_num <= i < start_num + target_files ->
             refused (name_of i) = false) ->
  (forall (C : corpus) (i : Z) (name content : str),
     written i name content -> file_system name = Some content ->
     read_file_content (U := ascii) name <> [])
  /\ exists files',
       create_large_corpus (Some files) target_files = (Some files', Ret tt)
       /\ forall C : corpus,
            (forall path, file_system path = files' !! path) ->
            forall i, start_num <= i < start_num + target_files ->
              read_file_content (U := ascii)
                (generated_filename i (choice i (map fst categories))) <> [].
Proof.
  intros start_num Hok. split; [exact written_note_has_content |].
  destruct (create_large_corpus_returns choice_in files target_files Hok)
    as (files' & Hrun & Hin & _).
  exists files'. split; [exact Hrun |]. intros C Hfs i Hi.
  destruct (Hin i Hi) as (name & content & Hw & Hlookup).
  assert (Hname : name = generated_filename i (choice i (map fst categories))).
  { destruct Hw as (? & _ & Hn & _). exact Hn. }
  rewrite <- Hname. apply (written_note_has_content C i name content Hw).
  now rewrite Hfs.
Qed.

End CorpusContent.

Lemma elem_of_md_names (files : gmap str str) (name : str) :
  name ∈ md_names files <-> is_Some (files !! name) /\ lit ".md" `suffix_of` name.
Proof.
  unfold md_names. rewrite list_elem_of_In, List.filter_In, <- list_elem_of_In.
  rewrite bool_decide_eq_true, list_elem_of_fmap. split.
  - intros [([k v] & -> & Hkv) Hmd]. apply elem_of_map_to_list in Hkv.
    split; [now exists v | exact Hmd].
  - intros [[v Hv] Hmd]. split; [| exact Hmd].
    exists (name, v). split; [reflexivity | now apply elem_of_map_to_list].
Qed.

Lemma NoDup_list_filter {A : Type} (f : A -> bool) (l : list A) :
  NoDup l -> NoDup (List.filter f l).
Proof.
  induction 1 as [| x l Hx _ IH]; [constructor |]. cbn [List.filter].
  destruct (f x); [| exact IH]. constructor; [| exact IH].
  intros Hin. apply Hx. apply list_elem_of_In in Hin. apply List.filter_In in Hin.
  now apply list_elem_of_In.
Qed.

Lemma md_names_NoDup (files : gmap str str) : NoDup (md_names files).
Proof. apply NoDup_list_filter, NoDup_fst_map_to_list. Qed.

Lemma generated_filename_md (i : Z) (category : str) :
  lit ".md" `suffix_of` generated_filename i category.
Proof.
  exists (lit "generated_note_" ++ format_06d i ++ lit "_" ++ category).
  unfold generated_filename. now rewrite <- !app_assoc.
Qed.

Section CorpusSize.

Context `{R : corpus_generator} `{O : operating_system}.

Hypothesis choice_in : forall i population,
  population <> [] -> choice i population ∈ population.

Lemma written_name (i : Z) (name content : str) :
  written i name content -> name = name_of i.
Proof. now intros (? & _ & -> & _). Qed.

Lemma create_large_corpus_size (files : gmap str str) (target_files : Z) :
  0 <= target_files ->
  let start_num := len (md_names files) + 1 in
  (forall i, start_num <= i < start_num + target_files ->
             refused (name_of i) = false) ->
  exists files',
    create_large_corpus (Some files) target_files = (Some files', Ret tt)
    /\ len (md_names files) <= len (md_names files')
    /\ target_files <= len (md_names files')
    /\ len (md_names files') <= len (md_names files) + target_files
    /\ ((forall i, start_num <= i < start_num + target_files ->
           files !! name_of i = None) ->
        len (md_names files') = len (md_names files) + target_files).
Proof.
  intros Htarget start_num Hok.
  destruct (create_large_corpus_returns choice_in files target_files Hok)
    as (files' & Hrun & Hin & Hout).
  fold start_num in Hin, Hout.
  exists files'. split; [exact Hrun |].
  set (indices := range_from start_num (start_num + target_files)).
  set (names := map name_of indices).
  assert (Hpos : forall i, i ∈ indices -> 0 <= i).
  { intros i Hi. apply elem_of_range_from in Hi. unfold start_num, len in Hi. lia. }
  assert (Hnames : NoDup names).
  { apply NoDup_fmap_2_strong; [| apply range_from_NoDup].
    intros i j Hi Hj Heq. unfold name_of in Heq.
    apply generated_filename_inj in Heq as [? _]; auto. }
  assert (Hlen : len names = target_files).
  { unfold len, names, indices, range_from. rewrite !length_map, range_length. lia. }
  assert (Hnew : forall name, name ∈ names -> is_Some (files' !! name)).
  { intros name Hname. apply list_elem_of_fmap in Hname as (i & -> & Hi).
    apply elem_of_range_from in Hi.
    destruct (Hin i Hi) as (name & content & Hw & Hl).
    rewrite <- (written_name _ _ _ Hw). now exists content. }
  assert (Hold : forall name, name ∉ names -> files' !! name = files !! name).
  { intros name Hname. apply Hout. intros i content Hi Hw. apply Hname.
    rewrite (written_name _ _ _ Hw). apply list_elem_of_fmap.
    exists i. split; [reflexivity | now apply elem_of_range_from]. }
  assert (Hmd : forall name, name ∈ names -> name ∈ md_names files').
  { intros name Hname. apply elem_of_md_names. split; [now apply Hnew |].
    apply list_elem_of_fmap in Hname as (i & -> & _). apply generated_filename_md. }
  assert (Hkeep : forall name, name ∈ md_names files -> name ∈ md_names files').
  { intros name Hname. destruct (decide (name ∈ names)) as [Hn | Hn]; [now apply Hmd |].
    apply elem_of_md_names. apply elem_of_md_names in Hname. now rewrite (Hold _ Hn). }
  assert (Hfrom : forall name, name ∈ md_names files' -> name ∈ md_names files ++ names).
  { intros name Hname. apply elem_of_app.
    destruct (decide (name ∈ names)) as [Hn | Hn]; [now right | left].
    apply elem_of_md_names. apply elem_of_md_names in Hname. now rewrite <- (Hold _ Hn). }
  assert (Hle : forall l k : list str, NoDup l -> (forall x, x ∈ l -> x ∈ k) ->
                len l <= len k).
  { intros l k Hl Hlk. unfold len. apply inj_le, submseteq_length.
    now apply NoDup_submseteq. }
  split; [apply Hle; [apply md_names_NoDup | exact Hkeep] |].
  split; [rewrite <- Hlen; apply Hle; assumption |].
  assert (Happ : len (md_names files ++ names) = len (md_names files) + target_files).
  { unfold len in *. rewrite length_app. lia. }
  split; [rewrite <- Happ; apply Hle; [apply md_names_NoDup | exact Hfrom] |].
  intros Hfresh. apply Z.le_antisymm;
    [rewrite <- Happ; apply Hle; [apply md_names_NoDup | exact Hfrom] |].
  rewrite <- Happ. apply Hle.
  - apply NoDup_app. split; [apply md_names_NoDup |]. split; [| exact Hnames].
    intros name Hname Hn. apply elem_of_md_names in Hname as [[v Hv] _].
    apply list_elem_of_fmap in Hn as (i & -> & Hi). apply elem_of_range_from in Hi.
    rewrite (Hfresh i Hi) in Hv. discriminate.
  - intros name Hname. apply elem_of_app in Hname as [Hname | Hname]; auto.
Qed.

(** X27.  [main] of the expander leaves an existing vault of 20000
    markdown files or more as it is.  On an existing vault with fewer, in
    which the operating system refuses none of the files to be written,
    it runs to the end and leaves at least as many markdown files as
    before, at least 20000 minus that count and at most 20000; exactly
    20000 when none of the names it writes existed before.  When the
    vault directory does not exist it raises [FileNotFoundError] at its
    first write, and creates nothing. *)
Theorem expander_fills_the_vault (files : gmap str str) :
  let n := len (glob_md (Some files)) in
  (20000 <= n -> expand_test_corpus.main (Some files) = (Some files, Ret tt))
  /\ (n < 20000 ->
      (forall i, n < i <= 20000 -> refused (name_of i) = false) ->
      exists files',
        expand_test_corpus.main (Some files) = (Some files', Ret tt)
        /\ n <= len (glob_md (Some files')) <= 20000
        /\ 20000 - n <= len (glob_md (Some files'))
        /\ ((forall i, n < i <= 20000 -> files !! name_of i = None) ->
            len (glob_md (Some files')) = 20000))
  /\ expand_test_corpus.main None = (None, Raise FileNotFoundError).
Proof.
  intros n. cbn [glob_md] in *. split; [| split].
  - intros Hn. unfold expand_test_corpus.main. cbn zeta. cbn [glob_md]. fold n.
    destruct (Z.ltb_spec 0 (Z.max 0 (20000 - n))); [lia | reflexivity].
  - intros Hn Hok. unfold expand_test_corpus.main. cbn zeta. cbn [glob_md]. fold n.
    destruct (Z.ltb_spec 0 (Z.max 0 (20000 - n))); [| lia].
    destruct (create_large_corpus_size files (Z.max 0 (20000 - n)))
      as (files' & Hrun & H1 & H2 & H3 & H4); [lia | |].
    { intros i Hi. apply Hok. fold n in Hi. lia. }
    fold n in H1, H3, H4. exists files'. split; [exact Hrun |].
    repeat split; try lia.
    intros Hfresh. rewrite H4; [lia |]. intros i Hi. apply Hfresh. lia.
  - unfold expand_test_corpus.main. cbn zeta. cbn [glob_md].
    change (0 <? Z.max 0 (20000 - len (@nil str))) with true. cbn iota.
    apply (create_large_corpus_missing choice_in). reflexivity.
Qed.

End CorpusSize.

(** ** Runs of the further properties *)

Lemma hamming_distance_zero_iff_equal_run :
  0 <= 5 < 2 ^ Z.of_nat 8 /\ (8 < 9)%nat
  /\ (hamming_distance 9 5 5 = Ret 0 <-> 5 = 5).
Proof.
  split; [lia |]. split; [lia |].
  apply (hamming_distance_zero_iff_equal 8 9 5 5); lia.
Defined.

Lemma similarity_one_iff_same_fingerprint_run :
  (64 < 65)%nat
  /\ (simhash_similarity (U := ascii) 65 (lit "the cat") (lit "Cat, the!") = Ret 1%Q
      <-> simhash_hash (U := ascii) (lit "the cat") 64
          = simhash_hash (U := ascii) (lit "Cat, the!") 64).
Proof.
  split; [lia |].
  apply (similarity_one_iff_same_fingerprint (U := ascii) 65); lia.
Defined.

Lemma hamming_distance_of_opposite_signs_loops_run :
  0 <= 5 /\ -1 < 0
  /\ hamming_distance 1000 5 (-1) = OutOfFuel
  /\ hamming_distance 1000 (-1) 5 = OutOfFuel.
Proof.
  split; [lia |]. split; [lia |].
  apply (hamming_distance_of_opposite_signs_loops 1000 5 (-1)); lia.
Defined.

Lemma fingerprint_ignores_word_order_run :
  lit "the cat" <> [] /\ lit "Cat, the!" <> []
  /\ simhash_hash (U := ascii) (lit "the cat") (Z.of_nat 64)
     = simhash_hash (U := ascii) (lit "Cat, the!") (Z.of_nat 64).
Proof.
  split; [discriminate |]. split; [discriminate |].
  apply (fingerprint_ignores_word_order (U := ascii) 64);
    [discriminate | discriminate |].
  change (findall (U := ascii) (lower (unicode := ascii) (lit "the cat")))
    with [lit "the"; lit "cat"].
  change (findall (U := ascii) (lower (unicode := ascii) (lit "Cat, the!")))
    with [lit "cat"; lit "the"].
  apply perm_swap.
Defined.

Lemma jaccard_of_same_words_is_one_run :
  lit "the cat" <> [] /\ lit "Cat, the cat!" <> []
  /\ compute_simple_similarity (U := ascii) (lit "the cat") (lit "Cat, the cat!")
     = Ret 1%Q.
Proof.
  split; [discriminate |]. split; [discriminate |].
  apply (jaccard_of_same_words_is_one (U := ascii));
    [discriminate | discriminate | vm_compute; reflexivity |].
  intros He. vm_compute in He. discriminate.
Defined.

Lemma fingerprint_of_one_word_run :
  lit "Hello!" <> []
  /\ findall (U := ascii) (lower (unicode := ascii) (lit "Hello!")) = [lit "hello"]
  /\ simhash_hash (U := ascii) (lit "Hello!") 32 = Ret (hash_string (lit "hello"))
  /\ simhash_hash (U := ascii) (lit "Hello!") 64
     = Ret (Z.lor (hash_string (lit "hello"))
              (Z.shiftl (hash_string (lit "hello")) 32)).
Proof.
  split; [discriminate |]. split; [reflexivity |].
  apply (fingerprint_of_one_word (U := ascii)); [discriminate | reflexivity].
Defined.

Lemma read_file_content_is_stripped_run :
  head (read_file_content (U := ascii) (C := example_vault) (lit "a.md")) = Some 97%N
  /\ is_space (unicode := ascii) 97%N = false.
Proof.
  split; [reflexivity |].
  apply (read_file_content_is_stripped (U := ascii) (C := example_vault) (lit "a.md")).
  left. reflexivity.
Defined.

Lemma note_of_headings_reads_empty_run :
  file_system (corpus := example_vault) (lit "e.md") = Some (lit "# heading only")
  /\ (64 < 65)%nat /\ 2 <= len (all_files (corpus := example_vault))
  /\ (random_sample (corpus := example_vault) (Z.to_nat 0)).2 = lit "e.md"
  /\ read_file_content (U := ascii) (C := example_vault) (lit "e.md") = []
  /\ sample_pair (U := ascii) (C := example_vault) 65
       (<[lit "a.md" := lit "unknown"]> (<[lit "e.md" := lit "unknown"]> ∅))
       no_results 0
     = Ret no_results
  /\ exists res,
       analyze_test_corpus (U := ascii) (C := example_vault) 65 3 = Ret (Some res)
       /\ Forall (fun pair => file1 pair <> lit "e.md" /\ file2 pair <> lit "e.md")
            (res_all_pairs res ++ res_same_category res
             ++ res_different_category res).
Proof.
  split; [reflexivity |]. split; [lia |]. split; [vm_compute; discriminate |].
  split; [reflexivity |].
  destruct (note_of_headings_reads_empty (U := ascii) (C := example_vault) 65 3
              (lit "e.md")) as (Hread & Hskip & Hres);
    [| lia | vm_compute; discriminate | apply example_draws |].
  { right. exists (lit "# heading only"). split; [reflexivity |].
    repeat constructor. }
  split; [exact Hread |]. split; [| exact Hres].
  apply Hskip; [| | right; reflexivity].
  - exists (lit "unknown"). apply lookup_insert_eq.
  - exists (lit "unknown"). cbn [random_sample example_vault snd].
    rewrite lookup_insert_ne by discriminate. apply lookup_insert_eq.
Defined.

Lemma plain_note_reads_as_one_line_run :
  file_system (corpus := example_vault) (lit "a.md") = Some (lit "alpha beta gamma")
  /\ read_file_content (U := ascii) (C := example_vault) (lit "a.md")
     = strip (U := ascii)
         (map (fun c => if (c =? 10)%N then 32%N else c) (lit "alpha beta gamma")).
Proof.
  split; [reflexivity |].
  apply (plain_note_reads_as_one_line (U := ascii) (C := example_vault));
    [reflexivity | repeat constructor].
Defined.

Lemma sampled_pairs_are_recorded_in_order_run :
  (64 < 65)%nat /\ 2 <= len (all_files (corpus := example_vault))
  /\ exists res,
       analyze_test_corpus (U := ascii) (C := example_vault) 65 3 = Ret (Some res)
       /\ Forall2 (records (U := ascii) (C := example_vault) 65) (res_all_pairs res)
            (List.filter (has_content (U := ascii) (C := example_vault)) (range 3)).
Proof.
  split; [lia |]. split; [vm_compute; discriminate |].
  apply (sampled_pairs_are_recorded_in_order (U := ascii) (C := example_vault) 65 3);
    [lia | vm_compute; discriminate | apply example_draws].
Defined.

Lemma views_split_the_pairs_by_category_run :
  (64 < 65)%nat /\ 2 <= len (all_files (corpus := example_vault))
  /\ exists res,
       analyze_test_corpus (U := ascii) (C := example_vault) 65 3 = Ret (Some res)
       /\ res_same_category res
          = List.filter (fun pair => bool_decide (category1 pair = category2 pair))
              (res_all_pairs res)
       /\ res_different_category res
          = List.filter
              (fun pair => negb (bool_decide (category1 pair = category2 pair)))
              (res_all_pairs res)
       /\ Forall (fun pair =>
                    same_category pair
                    = bool_decide (category1 pair = category2 pair))
                 (res_all_pairs res).
Proof.
  split; [lia |]. split; [vm_compute; discriminate |].
  apply (views_split_the_pairs_by_category (U := ascii) (C := example_vault) 65 3);
    [lia | vm_compute; discriminate | apply example_draws].
Defined.

Lemma example_pair_scored (j s : float) :
  (0 <= j <= 1)%Q -> (0 <= s <= 1)%Q -> scored (example_pair j s).
Proof.
  intros Hj Hs. exists j, s. unfold example_pair. cbn [similarities].
  rewrite lookup_insert_ne, !lookup_insert_eq by discriminate. auto.
Qed.

Lemma two_pairs_scored :
  Forall scored [example_pair (1 # 5)%Q (21 # 32)%Q; example_pair 1%Q 1%Q].
Proof.
  repeat constructor; apply example_pair_scored; split; discriminate.
Qed.

Lemma print_statistics_reports_run :
  2 <= len (res_all_pairs two_pairs)
  /\ exists jaccard simhash,
       print_statistics rounded_sqrt two_pairs = Ret [jaccard; simhash]
       /\ total (map fst (rows jaccard)) = len (res_all_pairs two_pairs)
       /\ total (map fst (rows simhash)) = len (res_all_pairs two_pairs)
       /\ (same_view jaccard = None <-> res_same_category two_pairs = [])
       /\ (different_view jaccard = None <-> res_different_category two_pairs = [])
       /\ (same_view simhash = None <-> res_same_category two_pairs = [])
       /\ (different_view simhash = None <-> res_different_category two_pairs = []).
Proof.
  split; [discriminate |].
  apply (print_statistics_reports rounded_sqrt two_pairs);
    [exact two_pairs_scored | exact two_pairs_scored | constructor
    | discriminate | discriminate | discriminate].
Defined.

Lemma print_statistics_raises_run :
  len (res_all_pairs one_pair) < 2
  /\ print_statistics rounded_sqrt one_pair = Raise StatisticsError.
Proof.
  split; [reflexivity |].
  apply (print_statistics_raises rounded_sqrt one_pair).
  - repeat constructor; apply example_pair_scored; split; discriminate.
  - repeat constructor; apply example_pair_scored; split; discriminate.
  - constructor.
  - left. reflexivity.
Defined.

Lemma value_is_counted_in_its_bucket_run :
  (0 <= 5404319552844595 # 18014398509481984 <= 1)%Q
  /\ bucket_of (5404319552844595 # 18014398509481984) = 3%nat
  /\ exists x lo hi,
       list_mul 0 10 !! bucket_of (5404319552844595 # 18014398509481984) = Some x
       /\ count_in_bucket (5404319552844595 # 18014398509481984)
            (range (len bins - 1)) (list_mul 0 10)
          = Ret (<[bucket_of (5404319552844595 # 18014398509481984) := x + 1]>
                   (list_mul 0 10))
       /\ bins !! bucket_of (5404319552844595 # 18014398509481984) = Some lo
       /\ bins !! S (bucket_of (5404319552844595 # 18014398509481984)) = Some hi
       /\ (lo <= 5404319552844595 # 18014398509481984)%Q
       /\ ((5404319552844595 # 18014398509481984 < hi)%Q
           \/ (bucket_of (5404319552844595 # 18014398509481984) = 9%nat
               /\ 5404319552844595 # 18014398509481984 == 1)%Q).
Proof.
  assert (Hrange : (0 <= 5404319552844595 # 18014398509481984 <= 1)%Q)
    by (split; apply Qle_bool_iff; vm_compute; reflexivity).
  split; [exact Hrange |]. split; [vm_compute; reflexivity |].
  apply (value_is_counted_in_its_bucket (5404319552844595 # 18014398509481984)
           (list_mul 0 10));
    [exact Hrange | reflexivity].
Defined.

Lemma every_name_gets_a_category_run :
  exists info type category,
    parse_file_info (U := ascii) (N := ascii_numerals)
      (lit "generated_note_000001_fiction.md") = Ret info
    /\ info !! lit "type" = Some (Str type)
    /\ info !! lit "category" = Some (Str category)
    /\ ((type = lit "original" /\ category = lit "literature")
        \/ (type = lit "generated" /\ category <> []
            /\ Forall (fun c => is_word (unicode := ascii) c = true) category
            /\ exists number rest,
                 lit "generated_note_000001_fiction.md"
                 = lit "generated_note_" ++ number ++ lit "_" ++ category
                   ++ lit ".md" ++ rest)
        \/ (type = lit "unknown" /\ category = lit "unknown")).
Proof.
  apply (every_name_gets_a_category (U := ascii) (N := ascii_numerals)).
  intros digits Hne Hd Hlen. exists (decimal_value digits).
  apply ascii_int_value; [exact Hne | exact Hd |].
  cbn [length lit] in Hlen. lia.
Defined.

Lemma generated_names_are_decoded_run :
  0 <= 1234 < 10 ^ 4300 /\ lit "fiction" <> []
  /\ parse_file_info (U := ascii) (N := ascii_numerals)
       (generated_filename 1234 (lit "fiction") ++ lit ".bak")
     = Ret (<[lit "category" := Str (lit "fiction")]>
              (<[lit "number" := Int 1234]>
                 (<[lit "type" := Str (lit "generated")]> ∅))).
Proof.
  assert (Hi : 0 <= 1234 < 10 ^ 4300) by (split; [discriminate | vm_compute; reflexivity]).
  split; [exact Hi |]. split; [discriminate |].
  apply (generated_names_are_decoded 1234 (lit "fiction") (lit ".bak"));
    [exact Hi | discriminate | repeat constructor].
Defined.

Lemma original_names_are_decoded_run :
  lit "000001" <> [] /\ (length (lit "000001") <= 4300)%nat
  /\ parse_file_info (U := ascii) (N := ascii_numerals)
       (lit "note_" ++ lit "000001" ++ lit "_unknown_book_chapter_" ++ lit "16"
        ++ lit ".md" ++ [])
     = Ret (<[lit "category" := Str (lit "literature")]>
              (<[lit "chapter" := Str (lit "16")]>
                 (<[lit "number" := Int (decimal_value (lit "000001"))]>
                    (<[lit "type" := Str (lit "original")]> ∅)))).
Proof.
  split; [discriminate |]. split; [cbn; lia |].
  apply (original_names_are_decoded (lit "000001") (lit "16") []);
    [discriminate | repeat constructor | cbn; lia |].
  right. right. split; [discriminate | repeat constructor].
Defined.

Lemma generated_note_is_never_empty_run :
  file_system (corpus := generated_vault) (generated_filename 7 (lit "fiction"))
  = Some (generate_content (G := example_generator) (lit "fiction") fiction_chunks 7)
  /\ read_file_content (U := ascii) (C := generated_vault)
       (generated_filename 7 (lit "fiction")) <> [].
Proof.
  split; [reflexivity |].
  apply (generated_note_is_never_empty (U := ascii) (C := generated_vault)
           (G := example_generator)
           (generated_filename 7 (lit "fiction")) (lit "fiction") fiction_chunks 7
           (lit "The old mansion stood silently against the dark sky, its windows like hollow eyes watching the approaching storm.")
           84%N).
  - reflexivity.
  - apply list_elem_of_here.
  - apply (proj1 (bool_decide_eq_true _)). vm_compute. reflexivity.
  - reflexivity.
  - apply list_elem_of_here.
  - reflexivity.
Defined.

Lemma top_five_are_the_largest_run :
  Forall (fun pair => is_Some (similarities pair !! lit "simhash"))
    (res_all_pairs two_pairs)
  /\ exists top rest,
       most_similar_pairs two_pairs (lit "simhash") = Ret top
       /\ length top = Nat.min 5 (length (res_all_pairs two_pairs))
       /\ map snd top ++ rest ≡ₚ res_all_pairs two_pairs
       /\ Forall (fun '(sim, p) => similarities p !! lit "simhash" = Some sim) top
       /\ StronglySorted (fun a b : float => (b <= a)%Q) (map fst top)
       /\ Forall (fun pair =>
                    exists sim,
                      similarities pair !! lit "simhash" = Some sim
                      /\ Forall (fun listed => (sim <= listed)%Q) (map fst top))
            rest.
Proof.
  assert (H : Forall (fun pair => is_Some (similarities pair !! lit "simhash"))
                (res_all_pairs two_pairs)).
  { repeat constructor; eexists; apply lookup_insert_eq. }
  split; [exact H |].
  apply (top_five_are_the_largest two_pairs (lit "simhash") H).
Defined.

Lemma main_stops_raises_or_reports_run :
  let drawn :=
    List.filter (has_content (U := ascii) (C := example_vault)) (range 2000) in
  let same := length (List.filter (same_draw (C := example_vault)) drawn) in
  let different :=
    length (List.filter (fun i => negb (same_draw (C := example_vault) i)) drawn) in
  (drawn = [] ->
   main (U := ascii) (C := example_vault) rounded_sqrt true 65 = Ret None)
  /\ (length drawn = 1%nat \/ same = 1%nat \/ different = 1%nat ->
      main (U := ascii) (C := example_vault) rounded_sqrt true 65
      = Raise StatisticsError)
  /\ ((2 <= length drawn)%nat -> same <> 1%nat -> different <> 1%nat ->
      exists report,
        main (U := ascii) (C := example_vault) rounded_sqrt true 65
        = Ret (Some report)).
Proof.
  apply (main_stops_raises_or_reports (U := ascii) (C := example_vault)
           rounded_sqrt 65);
    [lia | vm_compute; discriminate | apply example_draws].
Defined.

Lemma example_choice_in (i : Z) (population : list str) :
  population <> [] ->
  choice (corpus_generator := example_corpus_generator) i population ∈ population.
Proof.
  intros Hne. unfold choice, example_corpus_generator.
  destruct (population !! (Z.to_nat i mod length population)%nat) as [x |] eqn:Hx.
  - cbn [from_option id]. eapply list_elem_of_lookup_2, Hx.
  - apply lookup_ge_None in Hx.
    assert (Hlt : (Z.to_nat i mod length population < length population)%nat)
      by (apply Nat.mod_upper_bound; now destruct population).
    unfold str in *. lia.
Qed.

Lemma example_sample_spec (i : Z) (population : list str) (k : Z) :
  0 <= k <= len population ->
  length (sample (generator := note_generator
                                 (corpus_generator := example_corpus_generator) i)
            population k) = Z.to_nat k
  /\ sample (generator := note_generator
                            (corpus_generator := example_corpus_generator) i)
       population k ⊆ population.
Proof.
  intros Hk. cbn [sample note_generator example_corpus_generator example_generator].
  split.
  - rewrite length_take. unfold len in Hk. lia.
  - intros x Hx. rewrite <- (take_drop (Z.to_nat k) population).
    apply elem_of_app. now left.
Qed.

Lemma create_large_corpus_writes_numbered_notes_run :
  let start_num := len (glob_md (Some ∅)) + 1 in
  (forall i, start_num <= i < start_num + 3 ->
             refused (operating_system := willing)
               (name_of (R := example_corpus_generator) i) = false)
  /\ 0 < 3
  /\ (exists files',
        create_large_corpus (R := example_corpus_generator) (O := willing)
          (Some ∅) 3 = (Some files', Ret tt)
        /\ (forall i, start_num <= i < start_num + 3 ->
              exists name content,
                written (R := example_corpus_generator) i name content
                /\ files' !! name = Some content)
        /\ (forall name,
              (forall i content, start_num <= i < start_num + 3 ->
                 ~ written (R := example_corpus_generator) i name content) ->
              files' !! name = (∅ : gmap str str) !! name))
  /\ create_large_corpus (R := example_corpus_generator) (O := willing) None 3
     = (None, Raise FileNotFoundError).
Proof.
  intros start_num.
  assert (Hok : forall i, start_num <= i < start_num + 3 ->
                  refused (operating_system := willing)
                    (name_of (R := example_corpus_generator) i) = false)
    by (intros i _; reflexivity).
  split; [exact Hok |]. split; [lia |].
  destruct (create_large_corpus_writes_numbered_notes
              (R := example_corpus_generator) (O := willing)
              example_choice_in ∅ 3) as [Hrun Hmissing].
  split; [exact (Hrun Hok) | apply Hmissing; lia].
Defined.

Lemma example_second_refused :
  refused (operating_system := refusing_second)
    (name_of (R := example_corpus_generator) 2) = true.
Proof. vm_compute. reflexivity. Qed.

Lemma example_first_accepted (i : Z) :
  1 <= i < 2 ->
  refused (operating_system := refusing_second)
    (name_of (R := example_corpus_generator) i) = false.
Proof.
  intros Hi. assert (i = 1) by lia. subst i. vm_compute. reflexivity.
Qed.

Lemma create_large_corpus_stops_at_a_refusal_run :
  let start_num := len (glob_md (Some ∅)) + 1 in
  start_num <= 2 < start_num + 3
  /\ refused (operating_system := refusing_second)
       (name_of (R := example_corpus_generator) 2) = true
  /\ exists files',
       create_large_corpus (R := example_corpus_generator) (O := refusing_second)
         (Some ∅) 3 = (Some files', Raise OSError)
       /\ (forall i, start_num <= i < 2 ->
             exists name content,
               written (R := example_corpus_generator) i name content
               /\ files' !! name = Some content)
       /\ (forall name,
             (forall i content, start_num <= i < 2 ->
                ~ written (R := example_corpus_generator) i name content) ->
             files' !! name = (∅ : gmap str str) !! name).
Proof.
  intros start_num.
  assert (Hs : start_num = 1) by (vm_compute; reflexivity).
  assert (Hk : start_num <= 2 < start_num + 3) by (rewrite Hs; lia).
  split; [exact Hk |]. split; [exact example_second_refused |].
  apply (create_large_corpus_stops_at_a_refusal
           (R := example_corpus_generator) (O := refusing_second)
           example_choice_in ∅ 3 2 Hk example_second_refused).
  exact example_first_accepted.
Defined.

Lemma generated_corpus_has_content_run :
  let start_num := len (glob_md (Some ∅)) + 1 in
  (forall i, start_num <= i < start_num + 3 ->
             refused (operating_system := willing)
               (name_of (R := example_corpus_generator) i) = false)
  /\ (forall (C : corpus) (i : Z) (name content : str),
        written (R := example_corpus_generator) i name content ->
        file_system name = Some content ->
        read_file_content (U := ascii) name <> [])
  /\ exists files',
       create_large_corpus (R := example_corpus_generator) (O := willing)
         (Some ∅) 3 = (Some files', Ret tt)
       /\ forall C : corpus,
            (forall path, file_system path = files' !! path) ->
            forall i, start_num <= i < start_num + 3 ->
              read_file_content (U := ascii)
                (generated_filename i
                   (choice (corpus_generator := example_corpus_generator) i
                      (map fst categories))) <> [].
Proof.
  intros start_num.
  assert (Hok : forall i, start_num <= i < start_num + 3 ->
                  refused (operating_system := willing)
                    (name_of (R := example_corpus_generator) i) = false)
    by (intros i _; reflexivity).
  split; [exact Hok |].
  apply (generated_corpus_has_content (R := example_corpus_generator) (O := willing)
           example_choice_in
           (fun _ => ltac:(cbn; lia))
           example_sample_spec ∅ 3 Hok).
Defined.

Lemma expander_fills_the_vault_run :
  let n := len (glob_md (Some ∅)) in
  (forall i, n < i <= 20000 ->
             refused (operating_system := willing)
               (name_of (R := example_corpus_generator) i) = false)
  /\ n < 20000
  /\ (20000 <= n ->
      expand_test_corpus.main (R := example_corpus_generator) (O := willing) (Some ∅)
      = (Some ∅, Ret tt))
  /\ (exists files',
        expand_test_corpus.main (R := example_corpus_generator) (O := willing) (Some ∅)
        = (Some files', Ret tt)
        /\ n <= len (glob_md (Some files')) <= 20000
        /\ 20000 - n <= len (glob_md (Some files'))
        /\ ((forall i, n < i <= 20000 ->
               (∅ : gmap str str) !! name_of (R := example_corpus_generator) i = None) ->
            len (glob_md (Some files')) = 20000))
  /\ expand_test_corpus.main (R := example_corpus_generator) (O := willing) None
     = (None, Raise FileNotFoundError).
Proof.
  intros n.
  assert (Hok : forall i, n < i <= 20000 ->
                  refused (operating_system := willing)
                    (name_of (R := example_corpus_generator) i) = false)
    by (intros i _; reflexivity).
  assert (Hn : n < 20000) by (vm_compute; reflexivity).
  split; [exact Hok |]. split; [exact Hn |].
  destruct (expander_fills_the_vault (R := example_corpus_generator) (O := willing)
              example_choice_in ∅) as (Hfull & Hfill & Hmissing).
  split; [exact Hfull |]. split; [exact (Hfill Hn Hok) | exact Hmissing].
Defined.
